(** * OGRGeometryCollection: a shallow embedding of ogr/ogrgeometrycollection.cpp

    The collection owns an array of geometry pointers ([papoGeoms]) and a
    count ([nGeomCount]).  Both are modelled as the code has them: the array
    as a list of nullable slots, the count as a C [int].  Code that
    dereferences a null slot or reads past the allocation has undefined
    behaviour; such functions return [option], [None] standing for it.

    Leaf geometries (points, curves, surfaces), derived collection classes,
    the WKB/WKT readers and the allocator live outside this translation
    unit and are taken as parameters.  A null [papoGeoms] is the empty
    array.  [delete] is recorded: functions that destroy objects return the
    list of what they destroyed.  The diagnostics of CPLError and CPLDebug
    are not part of the model. *)

From Stdlib Require Import ZArith Bool Lia Ascii String DecimalString.
From stdpp Require Import base option list.

Local Open Scope Z_scope.

(** ** Error codes, wire variants and constants *)

Inductive OGRErr : Type :=
| OGRERR_NONE
| OGRERR_NOT_ENOUGH_DATA
| OGRERR_NOT_ENOUGH_MEMORY
| OGRERR_UNSUPPORTED_GEOMETRY_TYPE
| OGRERR_UNSUPPORTED_OPERATION
| OGRERR_CORRUPT_DATA
| OGRERR_FAILURE.

#[global] Instance OGRErr_eq_dec : EqDecision OGRErr.
Proof. solve_decision. Defined.

Inductive OGRwkbVariant : Type :=
| wkbVariantOldOgc
| wkbVariantIso
| wkbVariantPostGIS1.

#[global] Instance OGRwkbVariant_eq_dec : EqDecision OGRwkbVariant.
Proof. solve_decision. Defined.

Inductive OGRwkbByteOrder : Type :=
| wkbXDR
| wkbNDR.

#[global] Instance OGRwkbByteOrder_eq_dec : EqDecision OGRwkbByteOrder.
Proof. solve_decision. Defined.

(** Geometry type tags are the integer codes of [OGRwkbGeometryType]. *)
Definition OGRwkbGeometryType : Type := Z.

(** Modelled from the spec: the tag constants of ogr_core.h are not part of
    this translation unit.  The collection tag is 7; the ISO variant encodes
    M and ZM through the numeric ranges 2000 and 3000, the legacy 2.5D tag
    through the high bit (spec 4.3, 6). *)
Definition wkbGeometryCollection : OGRwkbGeometryType := 7.
Definition wkbGeometryCollectionM : OGRwkbGeometryType := 2007.
Definition wkbGeometryCollectionZM : OGRwkbGeometryType := 3007.
Definition wkbGeometryCollection25D : OGRwkbGeometryType := 0x80000007.
Definition wkbMultiCurve : OGRwkbGeometryType := 11.
Definition wkbMultiSurface : OGRwkbGeometryType := 12.

(** Modelled from the spec: the dimensionality flag bits of ogr_geometry.h
    (the pair [(is3D, isMeasured)] of spec 3), two distinct bits of [flags]. *)
Definition OGR_G_3D : Z := 2.
Definition OGR_G_MEASURED : Z := 4.

Definition INT_MAX : Z := 2147483647.
Definition SIZE_MAX : Z := 2 ^ 64 - 1.

(** [size_t] arithmetic wraps modulo 2^64. *)
Definition size_t (x : Z) : Z := x mod 2 ^ 64.

(** A byte is a number below 256; a buffer pointer is the list of bytes from
    that address on, so [pabyData + n] is [drop n pabyData]. *)
Definition byte : Type := Z.

(** An output buffer is addressed by offset. *)
Definition buffer : Type := Z → byte.

Definition poke (buf : buffer) (off : Z) (b : byte) : buffer :=
  fun p => if decide (p = off) then b else buf p.

(** [memcpy(buf + off, bytes, length bytes)] *)
Fixpoint memcpy (buf : buffer) (off : Z) (bytes : list byte) : buffer :=
  match bytes with
  | [] => buf
  | b :: rest => memcpy (poke buf off b) (off + 1) rest
  end.

(** The options of [exportToWkb] that this file reads. *)
Record OGRwkbExportOptions : Type := mkExportOptions {
  eByteOrder : OGRwkbByteOrder;
  eWkbVariant : OGRwkbVariant
}.

(** ** Loops over the element range *)

(** Outcome of a loop body: go on with a new state, or [return r]. *)
Inductive step (A R : Type) : Type :=
| Next (a : A)
| Return (r : R).
Arguments Next {A R} a.
Arguments Return {A R} r.

Section RangeFor.
Context {G A R : Type}.
Variable body : G → A → option (step A R).

(** [for (auto &poSubGeom : *this)] over the first [n] slots, every slot
    dereferenced by the body: a null slot, or a slot past the allocation,
    is undefined behaviour. *)
Fixpoint range_for (slots : list (option G)) (n : nat) (a : A)
  {struct slots} : option (step A R) :=
  match n with
  | O => Some (Next a)
  | S n' =>
      match slots with
      | Some e :: rest =>
          match body e a with
          | Some (Next a') => range_for rest n' a'
          | Some (Return r) => Some (Return r)
          | None => None
          end
      | _ => None
      end
  end.
End RangeFor.

Section PairFor.
Context {G : Type}.
Variable eq_elem : G → G → option bool.

(** The index loop of [Equals]: slot [i] of both arrays is dereferenced,
    the loop returns FALSE at the first unequal pair. *)
Fixpoint pair_for (slots others : list (option G)) (n : nat)
  {struct slots} : option bool :=
  match n with
  | O => Some true
  | S n' =>
      match slots, others with
      | Some e :: rest, Some o :: orest =>
          match eq_elem e o with
          | Some true => pair_for rest orest n'
          | Some false => Some false
          | None => None
          end
      | _, _ => None
      end
  end.
End PairFor.

Section CloneFor.
Context {G : Type}.
Variable clone : G → option (option G).

(** [for (i = 0; i < n; i++) papoGeoms[i] = other.papoGeoms[i]->clone()]:
    the source slot is dereferenced, the clone may come back null. *)
Fixpoint clone_for (others : list (option G)) (n : nat)
  {struct others} : option (list (option G)) :=
  match n with
  | O => Some []
  | S n' =>
      match others with
      | Some o :: orest =>
          match clone o with
          | Some p =>
              match clone_for orest n' with
              | Some done => Some (p :: done)
              | None => None
              end
          | None => None
          end
      | _ => None
      end
  end.
End CloneFor.

(** [memmove(a + dst, a + src, len * sizeof(slot))] inside one array. *)
Definition memmove {T : Type} (a : list T) (dst src len : nat) : list T :=
  take dst a ++ take len (drop src a) ++ drop (dst + len) a.

(** ** The geometry model *)

Section Collection.
(** Leaf geometry objects, derived collection classes and spatial
    references are opaque. *)
Context {LeafT Derived SRS : Type}.

(** Dynamic class of a collection object: the class of this file, or a
    derived class that overrides [getGeometryType] and
    [isCompatibleSubType]. *)
Inductive GCClass : Type :=
| cls_OGRGeometryCollection
| cls_Derived (d : Derived).

(** The fields of an [OGRGeometryCollection] object. *)
Record GCFields (G : Type) : Type := mkGC {
  vptr : GCClass;
  flags : Z;
  poSRS : option SRS;
  nGeomCount : Z;
  papoGeoms : list (option G)
}.
Arguments mkGC {G}.
Arguments vptr {G}.
Arguments flags {G}.
Arguments poSRS {G}.
Arguments nGeomCount {G}.
Arguments papoGeoms {G}.

#[local] Unset Elimination Schemes.
Inductive OGRGeometry : Type :=
| Leaf (l : LeafT)
| Collection (c : GCFields OGRGeometry).
#[local] Set Elimination Schemes.

Definition OGRGeometryCollection : Type := GCFields OGRGeometry.

Definition set_flags (c : OGRGeometryCollection) (f : Z) :=
  mkGC (vptr c) f (poSRS c) (nGeomCount c) (papoGeoms c).
Definition set_nGeomCount (c : OGRGeometryCollection) (n : Z) :=
  mkGC (vptr c) (flags c) (poSRS c) n (papoGeoms c).
Definition set_papoGeoms (c : OGRGeometryCollection)
  (a : list (option OGRGeometry)) :=
  mkGC (vptr c) (flags c) (poSRS c) (nGeomCount c) a.

(** [delete p]: the object destroyed, nothing for a null pointer. *)
Definition delete (p : option OGRGeometry) : list OGRGeometry :=
  match p with Some g => [g] | None => [] end.

(** *** The capability interface of leaf geometries *)
Record LeafOps : Type := mkLeafOps {
  leaf_getGeometryType : LeafT → OGRwkbGeometryType;
  leaf_flags : LeafT → Z;
  leaf_IsEmpty : LeafT → bool;
  leaf_hasEmptyParts : LeafT → bool;
  leaf_removeEmptyParts : LeafT → LeafT;
  leaf_WkbSize : LeafT → Z;
  leaf_clone : LeafT → option LeafT;
  leaf_Equals : LeafT → OGRGeometry → bool;
  leaf_set3D : LeafT → LeafT;
  leaf_setMeasured : LeafT → LeafT
}.

(** *** Overrides of derived collection classes *)
Record DerivedOps : Type := mkDerivedOps {
  derived_getGeometryType : Derived → Z → OGRwkbGeometryType;
  derived_isCompatibleSubType : Derived → OGRwkbGeometryType → bool
}.

Variable leaf : LeafOps.
Variable derived : DerivedOps.

Definition Is3D_flags (f : Z) : bool := negb (Z.land f OGR_G_3D =? 0).
Definition IsMeasured_flags (f : Z) : bool :=
  negb (Z.land f OGR_G_MEASURED =? 0).

Definition geom_flags (g : OGRGeometry) : Z :=
  match g with
  | Leaf l => leaf_flags leaf l
  | Collection c => flags c
  end.

Definition Is3D (g : OGRGeometry) : bool := Is3D_flags (geom_flags g).
Definition IsMeasured (g : OGRGeometry) : bool :=
  IsMeasured_flags (geom_flags g).

(** [OGRGeometryCollection::getGeometryType] *)
Definition base_getGeometryType (f : Z) : OGRwkbGeometryType :=
  if Is3D_flags f && IsMeasured_flags f then wkbGeometryCollectionZM
  else if IsMeasured_flags f then wkbGeometryCollectionM
  else if Is3D_flags f then wkbGeometryCollection25D
  else wkbGeometryCollection.

Definition getGeometryType (c : OGRGeometryCollection)
  : OGRwkbGeometryType :=
  match vptr c with
  | cls_OGRGeometryCollection => base_getGeometryType (flags c)
  | cls_Derived d => derived_getGeometryType derived d (flags c)
  end.

Definition geom_getGeometryType (g : OGRGeometry) : OGRwkbGeometryType :=
  match g with
  | Leaf l => leaf_getGeometryType leaf l
  | Collection c => getGeometryType c
  end.

(** [OGRGeometryCollection::isCompatibleSubType]: every tag is accepted;
    derived classes narrow it. *)
Definition isCompatibleSubType (c : OGRGeometryCollection)
  (eSubType : OGRwkbGeometryType) : bool :=
  match vptr c with
  | cls_OGRGeometryCollection => true
  | cls_Derived d => derived_isCompatibleSubType derived d eSubType
  end.

Definition getNumGeometries (c : OGRGeometryCollection) : Z := nGeomCount c.

(** [getGeometryRef]: null outside [0, nGeomCount); inside, the slot is
    read, which needs it to be allocated. *)
Definition getGeometryRef (c : OGRGeometryCollection) (i : Z)
  : option (option OGRGeometry) :=
  if (i <? 0) || (i >=? nGeomCount c) then Some None
  else papoGeoms c !! Z.to_nat i.

(** The range [begin(), end())] of [for (... : *this)]. *)
Definition for_geoms {A R : Type}
  (body : OGRGeometry → A → option (step A R))
  (c : OGRGeometryCollection) (a : A) : option (step A R) :=
  if nGeomCount c <? 0 then None
  else range_for body (papoGeoms c) (Z.to_nat (nGeomCount c)) a.

(** *** Read-only queries *)

(** [IsEmpty]: virtual on every geometry, the collection's body below. *)
Fixpoint geom_IsEmpty (g : OGRGeometry) : option bool :=
  match g with
  | Leaf l => Some (leaf_IsEmpty leaf l)
  | Collection c =>
      if nGeomCount c <? 0 then None
      else
        match
          range_for
            (fun e (_ : unit) =>
               match geom_IsEmpty e with
               | Some false => Some (Return false)
               | Some true => Some (Next tt)
               | None => None
               end)
            (papoGeoms c) (Z.to_nat (nGeomCount c)) tt
        with
        | Some (Return b) => Some b
        | Some (Next _) => Some true
        | None => None
        end
  end.

Definition IsEmpty (c : OGRGeometryCollection) : option bool :=
  geom_IsEmpty (Collection c).

(** [hasEmptyParts] *)
Fixpoint geom_hasEmptyParts (g : OGRGeometry) : option bool :=
  match g with
  | Leaf l => Some (leaf_hasEmptyParts leaf l)
  | Collection c =>
      if nGeomCount c <? 0 then None
      else
        match
          range_for
            (fun e (_ : unit) =>
               match geom_IsEmpty e with
               | Some true => Some (Return true)
               | Some false =>
                   match geom_hasEmptyParts e with
                   | Some true => Some (Return true)
                   | Some false => Some (Next tt)
                   | None => None
                   end
               | None => None
               end)
            (papoGeoms c) (Z.to_nat (nGeomCount c)) tt
        with
        | Some (Return b) => Some b
        | Some (Next _) => Some false
        | None => None
        end
  end.

Definition hasEmptyParts (c : OGRGeometryCollection) : option bool :=
  geom_hasEmptyParts (Collection c).

(** [WkbSize]: [nSize = 9; nSize += poGeom->WkbSize()] in [size_t]. *)
Fixpoint geom_WkbSize (g : OGRGeometry) : option Z :=
  match g with
  | Leaf l => Some (leaf_WkbSize leaf l)
  | Collection c =>
      if nGeomCount c <? 0 then None
      else
        match
          range_for (R := Empty_set)
            (fun e (nSize : Z) =>
               match geom_WkbSize e with
               | Some s => Some (Next (size_t (nSize + s)))
               | None => None
               end)
            (papoGeoms c) (Z.to_nat (nGeomCount c)) 9
        with
        | Some (Next nSize) => Some nSize
        | _ => None
        end
  end.

Definition WkbSize (c : OGRGeometryCollection) : option Z :=
  geom_WkbSize (Collection c).

(** [Equals] against a distinct object.  The elements of two distinct
    collections are distinct objects as well, so the recursion stays in
    this function. *)
Fixpoint geom_Equals (g other : OGRGeometry) {struct g} : option bool :=
  match g with
  | Leaf l => Some (leaf_Equals leaf l other)
  | Collection c =>
      if negb (geom_getGeometryType other =? getGeometryType c)
      then Some false
      else
        match geom_IsEmpty (Collection c) with
        | None => None
        | Some bThisEmpty =>
            match
              (if bThisEmpty then geom_IsEmpty other else Some false)
            with
            | None => None
            | Some true => Some true
            | Some false =>
                match other with
                | Leaf _ => None (* toGeometryCollection() on a leaf *)
                | Collection poOGC =>
                    if negb (getNumGeometries c =? getNumGeometries poOGC)
                    then Some false
                    else
                      pair_for geom_Equals (papoGeoms c) (papoGeoms poOGC)
                        (Z.to_nat (nGeomCount c))
                end
            end
        end
  end.

(** [OGRGeometryCollection::Equals]; [bSameObject] tells whether
    [poOther == this]. *)
Definition Equals (c : OGRGeometryCollection) (poOther : OGRGeometry)
  (bSameObject : bool) : option bool :=
  if bSameObject then Some true else geom_Equals (Collection c) poOther.

(** *** Allocation and the base class *)

(** Whether an allocation succeeds is decided outside the program. *)
Record Allocator : Type := mkAllocator {
  SIZEOF_VOIDP : Z;
  VSI_CALLOC_VERBOSE : Z → bool;
  VSI_REALLOC_VERBOSE : Z → bool;
  new_nothrow : OGRGeometryCollection → bool
}.

Record BaseClass : Type := mkBaseClass {
  (** [OGRGeometry::operator=(other)], called on the destination.  The
      operator is not part of this file; it runs on the whole object and
      may call its virtual methods, [empty()] among them, so it is given
      the destination and the source and returns the destination as it
      leaves it and the objects it destroyed. *)
  OGRGeometry_assign :
    OGRGeometryCollection → OGRGeometryCollection →
    OGRGeometryCollection * list OGRGeometry;
  (** [OGRGeometry::HomogenizeDimensionalityWith], on the collection and
      the geometry passed to it. *)
  HomogenizeDimensionalityWith :
    OGRGeometryCollection → OGRGeometry →
    OGRGeometryCollection * OGRGeometry
}.

Variable alloc : Allocator.
Variable base : BaseClass.

(** The destination after [OGRGeometry::operator=(other)], and what that
    call destroyed: whatever the operator does to the members, the object
    keeps its class. *)
Definition base_assigned (this other : OGRGeometryCollection)
  : OGRGeometryCollection * list OGRGeometry :=
  let '(r, d) := OGRGeometry_assign base this other in
  (mkGC (vptr this) (flags r) (poSRS r) (nGeomCount r) (papoGeoms r), d).

(** The copy constructor.  [OGRGeometry(other)] copies flags and spatial
    reference; a derived class constructs its own class through it, so the
    copy keeps the class of [other]. *)
Definition copy_construct
  (clone : OGRGeometry → option (option OGRGeometry))
  (other : OGRGeometryCollection) : option OGRGeometryCollection :=
  if VSI_CALLOC_VERBOSE alloc (nGeomCount other) then
    match clone_for clone (papoGeoms other) (Z.to_nat (nGeomCount other)) with
    | Some a =>
        Some (mkGC (vptr other) (flags other) (poSRS other)
                (nGeomCount other) a)
    | None => None
    end
  else Some (mkGC (vptr other) (flags other) (poSRS other) 0 []).

(** [clone()]: a copy constructed by [new (std::nothrow)]. *)
Fixpoint geom_clone (g : OGRGeometry) : option (option OGRGeometry) :=
  match g with
  | Leaf l => Some (Leaf <$> leaf_clone leaf l)
  | Collection c =>
      if new_nothrow alloc c then
        match copy_construct geom_clone c with
        | Some c' => Some (Some (Collection c'))
        | None => None
        end
      else Some None
  end.

(** [operator=]; [bSameObject] tells whether [this == &other].  The
    result is the destination and the objects destroyed on the way; the
    array the destination held when the new one is stored is not freed
    here. *)
Definition operator_assign (this other : OGRGeometryCollection)
  (bSameObject : bool)
  : option (OGRGeometryCollection * list OGRGeometry) :=
  if bSameObject then Some (this, [])
  else
    let '(this1, d) := base_assigned this other in
    match
      for_geoms
        (fun poOtherSubGeom (_ : unit) =>
           if isCompatibleSubType this1 (geom_getGeometryType poOtherSubGeom)
           then Some (Next tt)
           else Some (Return tt))
        other tt
    with
    | None => None
    | Some (Return _) => Some (this1, d)
    | Some (Next _) =>
        if VSI_CALLOC_VERBOSE alloc (nGeomCount other) then
          match
            clone_for geom_clone (papoGeoms other)
              (Z.to_nat (nGeomCount other))
          with
          | Some a =>
              Some (set_papoGeoms (set_nGeomCount this1 (nGeomCount other)) a,
                    d)
          | None => None
          end
        else Some (set_papoGeoms this1 [], d)
    end.

(** *** Insertion *)

(** [addGeometryDirectly]: the error code, the collection, and the geometry
    as the call leaves it (homogenization may promote it).  The array is
    reallocated to [nGeomCount + 1] slots; slots that a shorter old
    allocation did not have are indeterminate and shown as null. *)
Definition addGeometryDirectly (this : OGRGeometryCollection)
  (poNewGeom : OGRGeometry)
  : OGRErr * OGRGeometryCollection * OGRGeometry :=
  if negb (isCompatibleSubType this (geom_getGeometryType poNewGeom)) then
    (OGRERR_UNSUPPORTED_GEOMETRY_TYPE, this, poNewGeom)
  else if
    nGeomCount this =?
      (if SIZEOF_VOIDP alloc <? 8
       then INT_MAX `quot` SIZEOF_VOIDP alloc
       else INT_MAX)
  then (OGRERR_FAILURE, this, poNewGeom)
  else
    let '(this1, poNewGeom1) :=
      HomogenizeDimensionalityWith base this poNewGeom in
    if negb (VSI_REALLOC_VERBOSE alloc (nGeomCount this1 + 1)) then
      (OGRERR_FAILURE, this1, poNewGeom1)
    else
      let n := Z.to_nat (nGeomCount this1) in
      let a := resize n None (papoGeoms this1) ++ [Some poNewGeom1] in
      (OGRERR_NONE,
       set_nGeomCount (set_papoGeoms this1 a) (nGeomCount this1 + 1),
       poNewGeom1).

(** [addGeometry] on a borrowed geometry: clone, insert, and delete the
    clone when the insertion is refused. *)
Definition addGeometry (this : OGRGeometryCollection)
  (poNewGeom : OGRGeometry)
  : option (OGRErr * OGRGeometryCollection * list OGRGeometry) :=
  match geom_clone poNewGeom with
  | None => None
  | Some None => Some (OGRERR_FAILURE, this, [])
  | Some (Some poClone) =>
      let '(eErr, this1, poClone1) := addGeometryDirectly this poClone in
      if decide (eErr ≠ OGRERR_NONE)
      then Some (eErr, this1, delete (Some poClone1))
      else Some (eErr, this1, [])
  end.

(** [addGeometry(std::unique_ptr<OGRGeometry>)] *)
Definition addGeometry_unique (this : OGRGeometryCollection)
  (geom : OGRGeometry)
  : OGRErr * OGRGeometryCollection * list OGRGeometry :=
  let '(eErr, this1, poGeom1) := addGeometryDirectly this geom in
  if decide (eErr ≠ OGRERR_NONE)
  then (eErr, this1, delete (Some poGeom1))
  else (eErr, this1, []).

(** *** Removal *)

(** [removeGeometry] for an index other than -1: the range check, the
    optional delete, the memmove and the decrement.  Reading the slot to
    delete, or moving slots, beyond the allocation is undefined. *)
Definition removeGeometry_at (this : OGRGeometryCollection) (iGeom : Z)
  (bDelete : bool)
  : option (OGRErr * OGRGeometryCollection * list OGRGeometry) :=
  if (iGeom <? -1) || (iGeom >=? nGeomCount this) then
    Some (OGRERR_FAILURE, this, [])
  else if iGeom <? 0 then None
  else
    let i := Z.to_nat iGeom in
    let len := Z.to_nat (nGeomCount this - iGeom - 1) in
    match
      (if bDelete then delete <$> papoGeoms this !! i else Some [])
    with
    | None => None
    | Some d =>
        if (0 <? len)%nat && (length (papoGeoms this) <? i + 1 + len)%nat
        then None
        else
          Some (OGRERR_NONE,
                set_nGeomCount
                  (set_papoGeoms this (memmove (papoGeoms this) i (i + 1) len))
                  (nGeomCount this - 1),
                d)
    end.

(** [while (nGeomCount > 0) removeGeometry(nGeomCount - 1, bDelete)];
    every turn lowers the count by one, [k] bounds the turns. *)
Fixpoint removeGeometry_all (k : nat) (this : OGRGeometryCollection)
  (bDelete : bool) (dels : list OGRGeometry)
  : option (OGRGeometryCollection * list OGRGeometry) :=
  match k with
  | O => Some (this, dels)
  | S k' =>
      if nGeomCount this >? 0 then
        match removeGeometry_at this (nGeomCount this - 1) bDelete with
        | Some (_, this1, d) => removeGeometry_all k' this1 bDelete (dels ++ d)
        | None => None
        end
      else Some (this, dels)
  end.

Definition removeGeometry (this : OGRGeometryCollection) (iGeom : Z)
  (bDelete : bool)
  : option (OGRErr * OGRGeometryCollection * list OGRGeometry) :=
  if (iGeom <? -1) || (iGeom >=? nGeomCount this) then
    Some (OGRERR_FAILURE, this, [])
  else if iGeom =? -1 then
    match
      removeGeometry_all (Z.to_nat (nGeomCount this)) this bDelete []
    with
    | Some (this1, d) => Some (OGRERR_NONE, this1, d)
    | None => None
    end
  else removeGeometry_at this iGeom bDelete.

(** [stealGeometry]: the pointer handed out (it is whatever the slot
    held), the collection, and the objects destroyed.  [removeGeometry] is
    called with its default [bDelete = TRUE]. *)
Definition stealGeometry (this : OGRGeometryCollection) (iGeom : Z)
  : option (option OGRGeometry * OGRGeometryCollection * list OGRGeometry) :=
  if (iGeom <? 0) || (iGeom >=? nGeomCount this) then
    Some (None, this, [])
  else
    match papoGeoms this !! Z.to_nat iGeom with
    | None => None
    | Some poSubGeom =>
        let this1 :=
          set_papoGeoms this (<[Z.to_nat iGeom := None]> (papoGeoms this)) in
        match removeGeometry this1 iGeom true with
        | Some (_, this2, d) => Some (poSubGeom, this2, d)
        | None => None
        end
    end.

(** [removeEmptyParts]: the index runs down from [nGeomCount - 1]; [k] is
    [i + 1].  [rec] is the virtual call on the element, which changes the
    element in place. *)
Fixpoint removeEmptyParts_loop
  (rec : OGRGeometry → option (OGRGeometry * list OGRGeometry))
  (k : nat) (this : OGRGeometryCollection) (dels : list OGRGeometry)
  : option (OGRGeometryCollection * list OGRGeometry) :=
  match k with
  | O => Some (this, dels)
  | S i =>
      match papoGeoms this !! i with
      | Some (Some e) =>
          match rec e with
          | None => None
          | Some (e', d1) =>
              let this1 :=
                set_papoGeoms this (<[i := Some e']> (papoGeoms this)) in
              match geom_IsEmpty e' with
              | None => None
              | Some true =>
                  match removeGeometry this1 (Z.of_nat i) true with
                  | Some (_, this2, d2) =>
                      removeEmptyParts_loop rec i this2 (dels ++ d1 ++ d2)
                  | None => None
                  end
              | Some false =>
                  removeEmptyParts_loop rec i this1 (dels ++ d1)
              end
          end
      | _ => None
      end
  end.

(** The virtual [removeEmptyParts]; every level of nesting takes one unit
    of [fuel], [None] also stands for running out of it. *)
Fixpoint geom_removeEmptyParts (fuel : nat) (g : OGRGeometry)
  : option (OGRGeometry * list OGRGeometry) :=
  match g with
  | Leaf l => Some (Leaf (leaf_removeEmptyParts leaf l), [])
  | Collection c =>
      match fuel with
      | O => None
      | S fuel' =>
          match
            removeEmptyParts_loop (geom_removeEmptyParts fuel')
              (Z.to_nat (nGeomCount c)) c []
          with
          | Some (c', d) => Some (Collection c', d)
          | None => None
          end
      end
  end.

Definition removeEmptyParts (fuel : nat) (this : OGRGeometryCollection)
  : option (OGRGeometryCollection * list OGRGeometry) :=
  removeEmptyParts_loop (geom_removeEmptyParts fuel)
    (Z.to_nat (nGeomCount this)) this [].

(** [empty()]: when the array is not null every pointer of the range is
    deleted (a null one is harmless) and the array is freed; the count is
    reset. *)
Definition empty (this : OGRGeometryCollection)
  : option (OGRGeometryCollection * list OGRGeometry) :=
  match papoGeoms this with
  | [] => Some (set_nGeomCount this 0, [])
  | _ =>
      if (nGeomCount this <? 0) ||
         (Z.of_nat (length (papoGeoms this)) <? nGeomCount this)
      then None
      else
        Some (set_nGeomCount (set_papoGeoms this []) 0,
              concat (delete <$> take (Z.to_nat (nGeomCount this))
                                   (papoGeoms this)))
  end.

(** *** WKB export *)

(** Macros, constants and base-class methods used by [exportToWkb]. *)
Record WkbExportExternals : Type := mkWkbExport {
  defaultOptions : OGRwkbExportOptions;
  byte_order_code : OGRwkbByteOrder → byte;
  DB2_V72_UNFIX_BYTE_ORDER : byte → byte;
  OGR_SWAP : OGRwkbByteOrder → bool;
  CPL_SWAP32 : Z → Z;
  (** the four bytes of a 32-bit value in memory *)
  host_int32 : Z → list byte;
  wkbFlatten : OGRwkbGeometryType → OGRwkbGeometryType;
  wkbHasZ : OGRwkbGeometryType → bool;
  getIsoGeometryType : OGRGeometryCollection → Z;
  POSTGIS15_MULTICURVE : Z;
  POSTGIS15_MULTISURFACE : Z;
  wkb25DBitInternalUse : Z;
  leaf_exportToWkb : LeafT → buffer → Z → OGRwkbExportOptions → buffer
}.

Variable wkbout : WkbExportExternals.

(** The type code written after the byte-order marker. *)
Definition export_type_code (this : OGRGeometryCollection)
  (sOptions : OGRwkbExportOptions) : Z :=
  let nGType := getGeometryType this in
  let nGType :=
    match eWkbVariant sOptions with
    | wkbVariantIso => getIsoGeometryType wkbout this
    | wkbVariantPostGIS1 =>
        let bIs3D := wkbHasZ wkbout nGType in
        let nGType := wkbFlatten wkbout nGType in
        let nGType :=
          if nGType =? wkbMultiCurve then POSTGIS15_MULTICURVE wkbout
          else if nGType =? wkbMultiSurface
               then POSTGIS15_MULTISURFACE wkbout
               else nGType in
        if bIs3D then Z.lor nGType (wkb25DBitInternalUse wkbout)
        else nGType
    | wkbVariantOldOgc => nGType
    end in
  if OGR_SWAP wkbout (eByteOrder sOptions) then CPL_SWAP32 wkbout nGType
  else nGType.

(** [exportToWkb], with the virtual call on an element as [rec].  The
    result carries the buffer and the final value of [nOffset]. *)
Definition exportToWkb_with
  (rec : OGRGeometry → buffer → Z → OGRwkbExportOptions → option buffer)
  (this : OGRGeometryCollection) (buf : buffer) (pabyData : Z)
  (psOptions : option OGRwkbExportOptions)
  : option (OGRErr * buffer * Z) :=
  let psOptions1 :=
    match psOptions with
    | None => defaultOptions wkbout
    | Some o => o
    end in
  let sOptions :=
    if bool_decide (eWkbVariant psOptions1 = wkbVariantOldOgc) &&
       ((wkbFlatten wkbout (getGeometryType this) =? wkbMultiCurve) ||
        (wkbFlatten wkbout (getGeometryType this) =? wkbMultiSurface))
    then mkExportOptions (eByteOrder psOptions1) wkbVariantIso
    else psOptions1 in
  let buf :=
    poke buf pabyData
      (DB2_V72_UNFIX_BYTE_ORDER wkbout
         (byte_order_code wkbout (eByteOrder sOptions))) in
  let buf :=
    memcpy buf (pabyData + 1)
      (take 4 (host_int32 wkbout (export_type_code this sOptions))) in
  let buf :=
    if OGR_SWAP wkbout (eByteOrder sOptions) then
      memcpy buf (pabyData + 5)
        (take 4 (host_int32 wkbout (CPL_SWAP32 wkbout (nGeomCount this))))
    else
      memcpy buf (pabyData + 5) (take 4 (host_int32 wkbout (nGeomCount this)))
  in
  match
    for_geoms (R := Empty_set)
      (fun poSubGeom '(buf, nOffset) =>
         match rec poSubGeom buf (pabyData + nOffset) sOptions with
         | None => None
         | Some buf' =>
             match geom_WkbSize poSubGeom with
             | None => None
             | Some s => Some (Next (buf', size_t (nOffset + s)))
             end
         end)
      this (buf, 9)
  with
  | Some (Next (buf', nOffset)) => Some (OGRERR_NONE, buf', nOffset)
  | _ => None
  end.

Fixpoint geom_exportToWkb (g : OGRGeometry) (buf : buffer) (pabyData : Z)
  (sOptions : OGRwkbExportOptions) : option buffer :=
  match g with
  | Leaf l => Some (leaf_exportToWkb wkbout l buf pabyData sOptions)
  | Collection c =>
      match
        exportToWkb_with geom_exportToWkb c buf pabyData (Some sOptions)
      with
      | Some (_, buf', _) => Some buf'
      | None => None
      end
  end.

Definition exportToWkb (this : OGRGeometryCollection) (buf : buffer)
  (pabyData : Z) (psOptions : option OGRwkbExportOptions)
  : option (OGRErr * buffer * Z) :=
  exportToWkb_with geom_exportToWkb this buf pabyData psOptions.

(** *** WKB import *)

(** What [importPreambleOfCollectionFromWkb] leaves behind: the error, the
    collection (it empties it and sets its flags), what it destroyed, and
    its reference parameters. *)
Record WkbPreamble : Type := mkWkbPreamble {
  pre_eErr : OGRErr;
  pre_this : OGRGeometryCollection;
  pre_deleted : list OGRGeometry;
  pre_nSize : Z;
  pre_nDataOffset : Z;
  pre_eByteOrder : OGRwkbByteOrder;
  pre_nGeomCount : Z
}.

(** Readers and factories used by [importFromWkbInternal].  In the branch
    that calls [createFromWkb] the tag is no collection tag, so the
    factory builds a leaf. *)
Record WkbImportExternals : Type := mkWkbImport {
  importPreambleOfCollectionFromWkb :
    OGRGeometryCollection → list byte → Z → Z → OGRwkbVariant → WkbPreamble;
  OGRReadWKBGeometryType :
    list byte → OGRwkbVariant → OGRErr * OGRwkbGeometryType;
  OGR_GT_IsSubClassOf : OGRwkbGeometryType → OGRwkbGeometryType → bool;
  createGeometry : OGRwkbGeometryType → option OGRGeometry;
  createFromWkb : list byte → Z → OGRwkbVariant → OGRErr * option LeafT * Z
}.

Variable wkbin : WkbImportExternals.

(** Result of an import call: error, collection, [nBytesConsumedOut],
    destroyed objects. *)
Definition WkbResult : Type :=
  OGRErr * OGRGeometryCollection * Z * list OGRGeometry.

(** The promotion of a freshly decoded leaf to the outer dimensionality. *)
Definition promote_leaf (this : OGRGeometryCollection) (l : LeafT) : LeafT :=
  let l :=
    if Is3D_flags (flags this) && negb (Is3D_flags (leaf_flags leaf l))
    then leaf_set3D leaf l else l in
  if IsMeasured_flags (flags this) &&
     negb (IsMeasured_flags (leaf_flags leaf l))
  then leaf_setMeasured leaf l else l.

(** The element loop.  [todo] counts the turns left, [iGeom] is the index;
    [rec] is the call on a nested collection at [nRecLevel + 1]. *)
Fixpoint importFromWkb_loop
  (rec : OGRGeometryCollection → list byte → Z → option WkbResult)
  (todo : nat) (iGeom : Z) (this : OGRGeometryCollection)
  (pabyData : list byte) (nSize nDataOffset : Z) (eWkbVariant : OGRwkbVariant)
  (dels : list OGRGeometry) : option WkbResult :=
  match todo with
  | O => Some (OGRERR_NONE, this, nDataOffset, dels)
  | S todo' =>
      let pabySubData := drop (Z.to_nat nDataOffset) pabyData in
      if (nSize <? 9) && negb (nSize =? SIZE_MAX) then
        Some (OGRERR_NOT_ENOUGH_DATA, this, 0, dels)
      else
        let '(eErr, eSubGeomType) :=
          OGRReadWKBGeometryType wkbin pabySubData eWkbVariant in
        if decide (eErr ≠ OGRERR_NONE) then Some (eErr, this, 0, dels)
        else if negb (isCompatibleSubType this eSubGeomType) then
          Some (OGRERR_CORRUPT_DATA, set_nGeomCount this iGeom, 0, dels)
        else
          let decoded :
            option (OGRErr * option OGRGeometry * Z * list OGRGeometry) :=
            if OGR_GT_IsSubClassOf wkbin eSubGeomType wkbGeometryCollection
            then
              match createGeometry wkbin eSubGeomType with
              | None => Some (OGRERR_FAILURE, None, 0, [])
              | Some (Leaf _) => None (* toGeometryCollection() on a leaf *)
              | Some (Collection sub) =>
                  match rec sub pabySubData nSize with
                  | None => None
                  | Some (e, sub', consumed, d) =>
                      Some (e, Some (Collection sub'), consumed, d)
                  end
              end
            else
              let '(e, poSubGeom, consumed) :=
                createFromWkb wkbin pabySubData nSize eWkbVariant in
              if decide (e = OGRERR_NONE) then
                match poSubGeom with
                | None => None
                | Some l =>
                    Some (e, Some (Leaf (promote_leaf this l)), consumed, [])
                end
              else Some (e, Leaf <$> poSubGeom, consumed, [])
          in
          match decoded with
          | None => None
          | Some (eErr, poSubGeom, nSubGeomBytesConsumed, d) =>
              if decide (eErr ≠ OGRERR_NONE) then
                Some (eErr, set_nGeomCount this iGeom, 0,
                      dels ++ d ++ delete poSubGeom)
              else
                match poSubGeom with
                | None => None
                | Some g =>
                    let this :=
                      set_papoGeoms this
                        (<[Z.to_nat iGeom := Some g]> (papoGeoms this)) in
                    let this :=
                      if Is3D g
                      then set_flags this (Z.lor (flags this) OGR_G_3D)
                      else this in
                    let this :=
                      if IsMeasured g
                      then set_flags this (Z.lor (flags this) OGR_G_MEASURED)
                      else this in
                    let nSize :=
                      if negb (nSize =? SIZE_MAX)
                      then size_t (nSize - nSubGeomBytesConsumed)
                      else nSize in
                    importFromWkb_loop rec todo' (iGeom + 1) this pabyData
                      nSize (size_t (nDataOffset + nSubGeomBytesConsumed))
                      eWkbVariant (dels ++ d)
                end
          end
  end.

(** [importFromWkbInternal].  Every nested call takes one unit of [fuel];
    the recursion guard stops at level 32, so 33 units always suffice. *)
Fixpoint importFromWkbInternal (fuel : nat) (this : OGRGeometryCollection)
  (pabyData : list byte) (nSize : Z) (nRecLevel : Z)
  (eWkbVariant : OGRwkbVariant) : option WkbResult :=
  match fuel with
  | O => None
  | S fuel' =>
      if nRecLevel =? 32 then Some (OGRERR_CORRUPT_DATA, this, 0, [])
      else
        let pre :=
          importPreambleOfCollectionFromWkb wkbin this pabyData nSize 9
            eWkbVariant in
        if decide (pre_eErr pre ≠ OGRERR_NONE) then
          Some (pre_eErr pre, pre_this pre, 0, pre_deleted pre)
        else
          let this := set_nGeomCount (pre_this pre) (pre_nGeomCount pre) in
          if negb (nGeomCount this =? 0) &&
             negb (VSI_CALLOC_VERBOSE alloc (nGeomCount this))
          then
            Some (OGRERR_NOT_ENOUGH_MEMORY,
                  set_nGeomCount (set_papoGeoms this []) 0, 0,
                  pre_deleted pre)
          else
            let this :=
              set_papoGeoms this
                (if VSI_CALLOC_VERBOSE alloc (nGeomCount this)
                 then replicate (Z.to_nat (nGeomCount this)) None
                 else []) in
            importFromWkb_loop
              (fun sub pabySubData nSubSize =>
                 importFromWkbInternal fuel' sub pabySubData nSubSize
                   (nRecLevel + 1) eWkbVariant)
              (Z.to_nat (nGeomCount this)) 0 this pabyData (pre_nSize pre)
              (pre_nDataOffset pre) eWkbVariant (pre_deleted pre)
  end.

Definition importFromWkb (this : OGRGeometryCollection)
  (pabyData : list byte) (nSize : Z) (eWkbVariant : OGRwkbVariant)
  : option WkbResult :=
  importFromWkbInternal 33 this pabyData nSize 0 eWkbVariant.

(** *** WKT import *)

Record WktPreamble : Type := mkWktPreamble {
  wpre_eErr : OGRErr;
  wpre_this : OGRGeometryCollection;
  wpre_deleted : list OGRGeometry;
  wpre_input : string;
  wpre_bHasZ : bool;
  wpre_bHasM : bool;
  wpre_bIsEmpty : bool
}.

(** The tokenizer and element parser.  A [const char *] is the text from
    that position on. *)
Record WktExternals : Type := mkWkt {
  importPreambleFromWkt : OGRGeometryCollection → string → WktPreamble;
  (** the token and the position after it *)
  OGRWktReadToken : string → string * string;
  STARTS_WITH_CI : string → string → bool;
  createFromWkt : string → OGRErr * option OGRGeometry * string
}.

Variable wkt : WktExternals.

(** [new OGRGeometryCollection()] *)
Definition new_OGRGeometryCollection : OGRGeometryCollection :=
  mkGC cls_OGRGeometryCollection 0 None 0 [].

(** Result of a text import: error, collection, [*ppszInput], destroyed
    objects. *)
Definition WktResult : Type :=
  OGRErr * OGRGeometryCollection * string * list OGRGeometry.

Definition first_char_is (szToken : string) (c : ascii) : bool :=
  match szToken with
  | String c0 _ => Ascii.eqb c0 c
  | EmptyString => false
  end.

(** What the loop does with an element once the parser has returned:
    validate the measured flag, insert, or delete on failure.  The result
    is the error, the collection and the destroyed objects. *)
Definition wkt_accept (this : OGRGeometryCollection) (eErr : OGRErr)
  (poGeom : option OGRGeometry)
  : option (OGRErr * OGRGeometryCollection * list OGRGeometry) :=
  if decide (eErr = OGRERR_NONE) then
    match poGeom with
    | None => None
    | Some g =>
        if negb (Is3D_flags (flags this)) && IsMeasured_flags (flags this)
           && negb (IsMeasured g)
        then Some (OGRERR_CORRUPT_DATA, this, delete (Some g))
        else
          let '(eErr, this1, g1) := addGeometryDirectly this g in
          if decide (eErr ≠ OGRERR_NONE)
          then Some (eErr, this1, delete (Some g1))
          else Some (eErr, this1, [])
    end
  else Some (eErr, this, delete poGeom).

(** The element parser of one turn of the loop: the token is peeked, a
    nested collection goes through [rec] (the call at [nRecLevel + 1]),
    anything else through the generic parser.  The result is the error,
    [poGeom], the position reached and the destroyed objects. *)
Definition wkt_parse_element
  (rec : OGRGeometryCollection → string → option WktResult)
  (pszInput : string)
  : option (OGRErr * option OGRGeometry * string * list OGRGeometry) :=
  let szToken := fst (OGRWktReadToken wkt pszInput) in
  if STARTS_WITH_CI wkt szToken "GEOMETRYCOLLECTION"%string then
    match rec new_OGRGeometryCollection pszInput with
    | None => None
    | Some (e, poGC, pszInput', d) =>
        Some (e, Some (Collection poGC), pszInput', d)
    end
  else
    let '(e, poGeom, pszInput') := createFromWkt wkt pszInput in
    Some (e, poGeom, pszInput', []).

(** The do-while loop over the elements.  [ppszInput] is the caller's
    position, written only on success; [n] bounds the turns. *)
Fixpoint importFromWkt_loop
  (rec : OGRGeometryCollection → string → option WktResult)
  (n : nat) (this : OGRGeometryCollection) (ppszInput pszInput : string)
  (dels : list OGRGeometry) : option WktResult :=
  match n with
  | O => None
  | S n' =>
      match wkt_parse_element rec pszInput with
      | None => None
      | Some (eErr, poGeom, pszInput, d) =>
          match wkt_accept this eErr poGeom with
          | None => None
          | Some (eErr, this, d') =>
              if decide (eErr ≠ OGRERR_NONE) then
                Some (eErr, this, ppszInput, dels ++ d ++ d')
              else
                let '(szToken, pszInput) := OGRWktReadToken wkt pszInput in
                if first_char_is szToken ","%char
                then importFromWkt_loop rec n' this ppszInput pszInput
                       (dels ++ d)
                else if negb (first_char_is szToken ")"%char)
                then Some (OGRERR_CORRUPT_DATA, this, ppszInput, dels ++ d)
                else Some (OGRERR_NONE, this, pszInput, dels ++ d)
          end
      end
  end.

(** [importFromWktInternal]; [fuel] bounds both the nesting and the turns
    of each element loop. *)
Fixpoint importFromWktInternal (fuel : nat) (this : OGRGeometryCollection)
  (ppszInput : string) (nRecLevel : Z) : option WktResult :=
  match fuel with
  | O => None
  | S fuel' =>
      if nRecLevel =? 32 then
        Some (OGRERR_CORRUPT_DATA, this, ppszInput, [])
      else
        let pre := importPreambleFromWkt wkt this ppszInput in
        if decide (wpre_eErr pre ≠ OGRERR_NONE) then
          Some (wpre_eErr pre, wpre_this pre, wpre_input pre,
                wpre_deleted pre)
        else
          let this := wpre_this pre in
          let this :=
            if wpre_bHasZ pre
            then set_flags this (Z.lor (flags this) OGR_G_3D) else this in
          let this :=
            if wpre_bHasM pre
            then set_flags this (Z.lor (flags this) OGR_G_MEASURED)
            else this in
          if wpre_bIsEmpty pre then
            Some (OGRERR_NONE, this, wpre_input pre, wpre_deleted pre)
          else
            let pszInput := snd (OGRWktReadToken wkt (wpre_input pre)) in
            importFromWkt_loop
              (fun poGC psz =>
                 importFromWktInternal fuel' poGC psz (nRecLevel + 1))
              fuel' this (wpre_input pre) pszInput (wpre_deleted pre)
  end.

Definition importFromWkt (fuel : nat) (this : OGRGeometryCollection)
  (ppszInput : string) : option WktResult :=
  importFromWktInternal fuel this ppszInput 0.

(** *** Nested input *)

(** The binary input at [pabyData] opens [k] collections inside one
    another: at each level the preamble is accepted and declares at least
    one element, and the first element is again a collection that the
    level above accepts. *)
Fixpoint wkb_nests (k : nat) (this : OGRGeometryCollection)
  (pabyData : list byte) (nSize : Z) (eWkbVariant : OGRwkbVariant) : bool :=
  match k with
  | O => true
  | S k' =>
      let pre :=
        importPreambleOfCollectionFromWkb wkbin this pabyData nSize 9
          eWkbVariant in
      let pabySubData := drop (Z.to_nat (pre_nDataOffset pre)) pabyData in
      let '(eErr, eSubGeomType) :=
        OGRReadWKBGeometryType wkbin pabySubData eWkbVariant in
      bool_decide (pre_eErr pre = OGRERR_NONE) &&
      (0 <? pre_nGeomCount pre) &&
      VSI_CALLOC_VERBOSE alloc (pre_nGeomCount pre) &&
      negb ((pre_nSize pre <? 9) && negb (pre_nSize pre =? SIZE_MAX)) &&
      bool_decide (eErr = OGRERR_NONE) &&
      isCompatibleSubType (pre_this pre) eSubGeomType &&
      OGR_GT_IsSubClassOf wkbin eSubGeomType wkbGeometryCollection &&
      match createGeometry wkbin eSubGeomType with
      | Some (Collection sub) =>
          wkb_nests k' sub pabySubData (pre_nSize pre) eWkbVariant
      | _ => false
      end
  end.

(** The text at [ppszInput] opens [k] collections inside one another: at
    each level the preamble is accepted, the collection is not EMPTY, and
    its first element starts with the collection keyword. *)
Fixpoint wkt_nests (k : nat) (this : OGRGeometryCollection)
  (ppszInput : string) : bool :=
  match k with
  | O => true
  | S k' =>
      let pre := importPreambleFromWkt wkt this ppszInput in
      let pszInput := snd (OGRWktReadToken wkt (wpre_input pre)) in
      bool_decide (wpre_eErr pre = OGRERR_NONE) &&
      negb (wpre_bIsEmpty pre) &&
      STARTS_WITH_CI wkt (fst (OGRWktReadToken wkt pszInput))
        "GEOMETRYCOLLECTION"%string &&
      wkt_nests k' new_OGRGeometryCollection pszInput
  end.

End Collection.

Arguments mkGC {Derived SRS G}.
Arguments vptr {Derived SRS G}.
Arguments flags {Derived SRS G}.
Arguments poSRS {Derived SRS G}.
Arguments nGeomCount {Derived SRS G}.
Arguments papoGeoms {Derived SRS G}.

(** ** Well-formed objects *)

Section WellFormed.
Context {G : Type}.
Variable wf_elem : G → bool.

(** The first [n] slots exist and hold well-formed objects. *)
Fixpoint wf_slots (slots : list (option G)) (n : nat) {struct slots} : bool :=
  match n with
  | O => true
  | S n' =>
      match slots with
      | Some e :: rest => wf_elem e && wf_slots rest n'
      | _ => false
      end
  end.
End WellFormed.

(** The class invariant of spec 3, at every level of nesting: the count is
    not negative, the first [nGeomCount] slots are allocated and none of
    them is null. *)
Fixpoint wf_geom {LeafT Derived SRS : Type}
  (g : @OGRGeometry LeafT Derived SRS) : bool :=
  match g with
  | Leaf _ => true
  | Collection c =>
      (0 <=? nGeomCount c) &&
      wf_slots wf_geom (papoGeoms c) (Z.to_nat (nGeomCount c))
  end.

Definition wf_collection {LeafT Derived SRS : Type}
  (c : @OGRGeometryCollection LeafT Derived SRS) : bool :=
  wf_geom (Collection c).

(** The elements of the stored range, nulls included. *)
Definition stored {LeafT Derived SRS : Type}
  (c : @OGRGeometryCollection LeafT Derived SRS)
  : list (option OGRGeometry) :=
  take (Z.to_nat (nGeomCount c)) (papoGeoms c).

(** The loop of [range_for] over elements already known to be there. *)
Fixpoint for_list {G A R : Type} (body : G → A → option (step A R))
  (es : list G) (a : A) : option (step A R) :=
  match es with
  | [] => Some (Next a)
  | e :: rest =>
      match body e a with
      | Some (Next a') => for_list body rest a'
      | Some (Return r) => Some (Return r)
      | None => None
      end
  end.

(** The sum of the elements' own [WkbSize()] over the stored range. *)
Definition sum_WkbSize {LeafT Derived SRS : Type}
  (leaf : @LeafOps LeafT Derived SRS)
  (c : @OGRGeometryCollection LeafT Derived SRS) : Z :=
  foldr (fun s acc => default 0 (s ≫= geom_WkbSize leaf) + acc) 0 (stored c).

(** Depth of nesting of collections. *)
Fixpoint depth {LeafT Derived SRS : Type}
  (g : @OGRGeometry LeafT Derived SRS) : nat :=
  match g with
  | Leaf _ => O
  | Collection c =>
      S (foldr (fun s acc =>
                  match s with
                  | Some e => Nat.max (depth e) acc
                  | None => acc
                  end) O (papoGeoms c))
  end.

(** The sizes that [exportToWkb] adds up stay inside [size_t] at every
    level of nesting: no size is negative, and 9 plus the sizes of the
    stored elements is below 2^64.  Well-formedness is part of it. *)
Fixpoint wkb_fits {LeafT Derived SRS : Type}
  (leaf : @LeafOps LeafT Derived SRS)
  (g : @OGRGeometry LeafT Derived SRS) : bool :=
  match g with
  | Leaf l => 0 <=? leaf_WkbSize leaf l
  | Collection c =>
      (0 <=? nGeomCount c) &&
      (9 + sum_WkbSize leaf c <? 2 ^ 64) &&
      wf_slots (wkb_fits leaf) (papoGeoms c) (Z.to_nat (nGeomCount c))
  end.

(** ** Further methods of the collection *)

(** The options of [exportToWkt] that this file reads. *)
Record OGRWktOptions : Type := mkWktOptions {
  variant : OGRwkbVariant
}.

Section RangeMut.
Context {G E : Type}.
(** A call on an element: the element as the call leaves it, and the
    reason to leave the loop, if there is one. *)
Variable call : G → option (option E * G).

(** [for (auto &poSubGeom : *this)] over the first [n] slots with a body
    that changes the element in place and may return: the result is the
    index and the reason of the return, if any, and the array. *)
Fixpoint range_mut (slots : list (option G)) (n : nat) {struct slots}
  : option (option (nat * E) * list (option G)) :=
  match n with
  | O => Some (None, slots)
  | S n' =>
      match slots with
      | Some e :: rest =>
          match call e with
          | None => None
          | Some (Some why, e') => Some (Some (O, why), Some e' :: rest)
          | Some (None, e') =>
              match range_mut rest n' with
              | None => None
              | Some (None, rest') => Some (None, Some e' :: rest')
              | Some (Some (i, why), rest') =>
                  Some (Some (S i, why), Some e' :: rest')
              end
          end
      | _ => None
      end
  end.
End RangeMut.

(** [tempWkt.erase(pos, n)] *)
Definition str_erase (s : string) (pos n : nat) : string :=
  (substring 0 pos s
   ++ substring (pos + n) (String.length s - (pos + n)) s)%string.

(** The text of an element as it is listed: with a type name to exclude,
    the element's text is cut down to its opening parenthesis, and left out
    when it has none; outside the ISO variant the first dimension token
    among " Z ", " M " and " ZM " is taken out. *)
Definition wkt_element_text (opts : OGRWktOptions) (exclude tempWkt : string)
  : option string :=
  let cut :=
    if negb (String.length exclude =? 0)%nat && String.prefix exclude tempWkt
    then
      match index 0 "(" tempWkt with
      | None => None
      | Some pos =>
          Some (substring pos (String.length tempWkt - pos) tempWkt)
      end
    else Some tempWkt in
  match cut with
  | None => None
  | Some tempWkt =>
      if bool_decide (variant opts ≠ wkbVariantIso) then
        match index 0 " Z " tempWkt with
        | Some pos => Some (str_erase tempWkt (pos + 1) 2)
        | None =>
            match index 0 " M " tempWkt with
            | Some pos => Some (str_erase tempWkt (pos + 1) 2)
            | None =>
                match index 0 " ZM " tempWkt with
                | Some pos => Some (str_erase tempWkt (pos + 1) 3)
                | None => Some tempWkt
                end
            end
        end
      else Some tempWkt
  end.

Section Methods.
Context {LeafT Derived SRS : Type}.
(** The coordinate transformation object is opaque. *)
Context {CT : Type}.

Abbreviation Geometry := (@OGRGeometry LeafT Derived SRS).
Abbreviation GeometryCollection :=
  (@OGRGeometryCollection LeafT Derived SRS).

(** Further virtual methods of leaf geometries.  The setters return the
    [bool] of the call and the leaf as the call leaves it. *)
Record LeafMethods : Type := mkLeafMethods {
  leaf_getDimension : LeafT → Z;
  leaf_flattenTo2D : LeafT → LeafT;
  leaf_transform : CT → LeafT → OGRErr * LeafT;
  leaf_assignSpatialReference : option SRS → LeafT → LeafT;
  leaf_set3D_to : bool → LeafT → bool * LeafT;
  leaf_setMeasured_to : bool → LeafT → bool * LeafT;
  leaf_setCoordinateDimension : Z → LeafT → bool * LeafT;
  leaf_exportToWkt : OGRWktOptions → LeafT → string * OGRErr
}.

(** Methods of the base class [OGRGeometry] and the accessor of the
    transformation.  [set3D], [setMeasured] and [assignSpatialReference]
    are given on the base-class state they touch.
    [OGRGeometry::setCoordinateDimension] is given on the whole object: it
    is not part of this file and may call the virtual methods of the
    object, which visit the elements again. *)
Record BaseMethods : Type := mkBaseMethods {
  OGRGeometry_set3D : bool → Z → bool * Z;
  OGRGeometry_setMeasured : bool → Z → bool * Z;
  OGRGeometry_setCoordinateDimension :
    Z → GeometryCollection → option (bool * GeometryCollection);
  OGRGeometry_assignSpatialReference : option SRS → option SRS → option SRS;
  GetTargetCS : CT → option SRS;
  wktTypeString : OGRwkbVariant → Z → string
}.

(** Further overrides of derived collection classes: the classes derived
    from the collection have their own [getDimension], [getGeometryName]
    and [exportToWkt]; the other methods modelled here are inherited. *)
Record DerivedMethods : Type := mkDerivedMethods {
  derived_getDimension : Derived → GeometryCollection → Z;
  derived_getGeometryName : Derived → string;
  derived_exportToWkt :
    Derived → GeometryCollection → OGRWktOptions → string * OGRErr
}.

Variable leaf : @LeafOps LeafT Derived SRS.
Variable derived : @DerivedOps Derived.
Variable wkbout : @WkbExportExternals LeafT Derived SRS.
Variable leafm : LeafMethods.
Variable basem : BaseMethods.
Variable derivedm : DerivedMethods.

(** [getDimension], with the virtual call on an element as [rec]: the
    largest dimension met, the scan stopping at 2. *)
Definition getDimension_with (rec : Geometry → option Z)
  (this : GeometryCollection) : option Z :=
  match
    for_geoms
      (fun poSubGeom (nDimension : Z) =>
         match rec poSubGeom with
         | None => None
         | Some nSubGeomDimension =>
             if nSubGeomDimension >? nDimension then
               if nSubGeomDimension =? 2
               then Some (Return nSubGeomDimension)
               else Some (Next nSubGeomDimension)
             else Some (Next nDimension)
         end)
      this 0
  with
  | Some (Next nDimension) => Some nDimension
  | Some (Return nDimension) => Some nDimension
  | None => None
  end.

(** The virtual [getDimension]: the method of this file for an object of
    its class, the override for an object of a derived class. *)
Fixpoint geom_getDimension (g : Geometry) : option Z :=
  match g with
  | Leaf l => Some (leaf_getDimension leafm l)
  | Collection c =>
      match vptr c with
      | cls_OGRGeometryCollection => getDimension_with geom_getDimension c
      | cls_Derived d => Some (derived_getDimension derivedm d c)
      end
  end.

Definition getDimension (c : GeometryCollection) : option Z :=
  getDimension_with geom_getDimension c.

(** [flattenTo2D]: every element, then the two flags of the collection. *)
Fixpoint geom_flattenTo2D (g : Geometry) : option Geometry :=
  match g with
  | Leaf l => Some (Leaf (leaf_flattenTo2D leafm l))
  | Collection c =>
      if nGeomCount c <? 0 then None
      else
        match
          range_mut (E := Empty_set)
            (fun e =>
               match geom_flattenTo2D e with
               | None => None
               | Some e' => Some (None, e')
               end)
            (papoGeoms c) (Z.to_nat (nGeomCount c))
        with
        | Some (None, a) =>
            Some (Collection
                    (mkGC (vptr c)
                       (Z.land (Z.land (flags c) (Z.lnot OGR_G_3D))
                          (Z.lnot OGR_G_MEASURED))
                       (poSRS c) (nGeomCount c) a))
        | _ => None
        end
  end.

Definition flattenTo2D (c : GeometryCollection) : option Geometry :=
  geom_flattenTo2D (Collection c).

(** [assignSpatialReference]: the base class first, then every element. *)
Fixpoint geom_assignSpatialReference (poSR : option SRS) (g : Geometry)
  : option Geometry :=
  match g with
  | Leaf l => Some (Leaf (leaf_assignSpatialReference leafm poSR l))
  | Collection c =>
      if nGeomCount c <? 0 then None
      else
        match
          range_mut (E := Empty_set)
            (fun e =>
               match geom_assignSpatialReference poSR e with
               | None => None
               | Some e' => Some (None, e')
               end)
            (papoGeoms c) (Z.to_nat (nGeomCount c))
        with
        | Some (None, a) =>
            Some (Collection
                    (mkGC (vptr c) (flags c)
                       (OGRGeometry_assignSpatialReference basem poSR
                          (poSRS c))
                       (nGeomCount c) a))
        | _ => None
        end
  end.

(** A method of the base class that touches the flags only, as a call on
    the object. *)
Definition on_flags (base_set : Z → bool * Z) (c : GeometryCollection)
  : option (bool * GeometryCollection) :=
  let '(ok, f) := base_set (flags c) in Some (ok, set_flags c f).

(** The common shape of [set3D], [setMeasured] and
    [setCoordinateDimension]: every element in turn, [false] at the first
    one that returns [false], then the method of the base class on the
    object. *)
Fixpoint geom_set (leaf_set : LeafT → bool * LeafT)
  (base_set : GeometryCollection → option (bool * GeometryCollection))
  (g : Geometry) : option (bool * Geometry) :=
  match g with
  | Leaf l => let '(ok, l') := leaf_set l in Some (ok, Leaf l')
  | Collection c =>
      if nGeomCount c <? 0 then None
      else
        match
          range_mut
            (fun e =>
               match geom_set leaf_set base_set e with
               | None => None
               | Some (ok, e') => Some (if ok then None else Some tt, e')
               end)
            (papoGeoms c) (Z.to_nat (nGeomCount c))
        with
        | None => None
        | Some (Some _, a) => Some (false, Collection (set_papoGeoms c a))
        | Some (None, a) =>
            match base_set (set_papoGeoms c a) with
            | Some (ok, c') => Some (ok, Collection c')
            | None => None
            end
        end
  end.

Definition set3D (bIs3D : bool) (c : GeometryCollection)
  : option (bool * Geometry) :=
  geom_set (leaf_set3D_to leafm bIs3D)
    (on_flags (OGRGeometry_set3D basem bIs3D)) (Collection c).

Definition setMeasured (bIsMeasured : bool) (c : GeometryCollection)
  : option (bool * Geometry) :=
  geom_set (leaf_setMeasured_to leafm bIsMeasured)
    (on_flags (OGRGeometry_setMeasured basem bIsMeasured)) (Collection c).

Definition setCoordinateDimension (nNewDimension : Z)
  (c : GeometryCollection) : option (bool * Geometry) :=
  geom_set (leaf_setCoordinateDimension leafm nNewDimension)
    (OGRGeometry_setCoordinateDimension basem nNewDimension) (Collection c).

(** [transform]: every element in turn; the error of the first element is
    returned as it is, the error of a later one as OGRERR_FAILURE; after
    the last element the target reference system is assigned. *)
Fixpoint geom_transform (poCT : CT) (g : Geometry)
  : option (OGRErr * Geometry) :=
  match g with
  | Leaf l => let '(eErr, l') := leaf_transform leafm poCT l in
              Some (eErr, Leaf l')
  | Collection c =>
      if nGeomCount c <? 0 then None
      else
        match
          range_mut
            (fun e =>
               match geom_transform poCT e with
               | None => None
               | Some (eErr, e') =>
                   Some (if decide (eErr ≠ OGRERR_NONE) then Some eErr
                         else None, e')
               end)
            (papoGeoms c) (Z.to_nat (nGeomCount c))
        with
        | None => None
        | Some (Some (iGeom, eErr), a) =>
            Some (if negb (iGeom =? 0)%nat then OGRERR_FAILURE else eErr,
                  Collection (set_papoGeoms c a))
        | Some (None, a) =>
            match
              geom_assignSpatialReference (GetTargetCS basem poCT)
                (Collection (set_papoGeoms c a))
            with
            | Some g' => Some (OGRERR_NONE, g')
            | None => None
            end
        end
  end.

Definition transform (poCT : CT) (c : GeometryCollection)
  : option (OGRErr * Geometry) :=
  geom_transform poCT (Collection c).

(** [TransferMembersAndDestroy]: the destination takes the reference
    system, the flags, the count and the array of the source; the source is
    deleted after it has given its array away.  The result is the
    destination and the destroyed objects. *)
Definition TransferMembersAndDestroy (poSrc poDst : GeometryCollection)
  : option (GeometryCollection * list Geometry) :=
  match geom_assignSpatialReference (poSRS poSrc) (Collection poDst) with
  | Some (Collection poDst) =>
      match set3D (Is3D_flags (flags poSrc)) poDst with
      | Some (_, Collection poDst) =>
          match setMeasured (IsMeasured_flags (flags poSrc)) poDst with
          | Some (_, Collection poDst) =>
              Some (set_papoGeoms
                      (set_nGeomCount poDst (nGeomCount poSrc))
                      (papoGeoms poSrc),
                    delete
                      (Some (Collection
                               (set_papoGeoms (set_nGeomCount poSrc 0) []))))
          | _ => None
          end
      | _ => None
      end
  | _ => None
  end.

(** [CastToGeometryCollection] *)
Definition CastToGeometryCollection (poSrc : GeometryCollection)
  : option (GeometryCollection * list Geometry) :=
  if wkbFlatten wkbout (getGeometryType derived poSrc)
     =? wkbGeometryCollection
  then Some (poSrc, [])
  else TransferMembersAndDestroy poSrc new_OGRGeometryCollection.

(** [getGeometryName] *)
Definition getGeometryName (c : GeometryCollection) : string :=
  match vptr c with
  | cls_OGRGeometryCollection => "GEOMETRYCOLLECTION"
  | cls_Derived d => derived_getGeometryName derivedm d
  end.

(** [exportToWktInternal], with the virtual [exportToWkt] of an element as
    [rec].  The result is the text and the value stored through [err].
    The handler of [std::bad_alloc] is left out: building a string does not
    fail here. *)
Definition exportToWktInternal
  (rec : Geometry → OGRWktOptions → option (string * OGRErr))
  (this : GeometryCollection) (opts : OGRWktOptions) (exclude : string)
  : option (string * OGRErr) :=
  let wkt :=
    (getGeometryName this ++ wktTypeString basem (variant opts) (flags this))
      %string in
  match
    for_geoms
      (fun poSubGeom '(first, wkt) =>
         match rec poSubGeom opts with
         | None => None
         | Some (tempWkt, subgeomErr) =>
             if decide (subgeomErr ≠ OGRERR_NONE) then
               Some (Return (EmptyString, subgeomErr))
             else
               match wkt_element_text opts exclude tempWkt with
               | None => Some (Next (first, wkt))
               | Some tempWkt =>
                   Some (Next (false,
                               (wkt ++ (if first : bool then "(" else ",")
                                    ++ tempWkt)%string))
               end
         end)
      this (true, wkt)
  with
  | None => None
  | Some (Return r) => Some r
  | Some (Next (first, wkt)) =>
      Some ((wkt ++ (if first : bool then "EMPTY" else ")"))%string,
            OGRERR_NONE)
  end.

(** The virtual [exportToWkt]: the collection of this file exports with
    nothing to exclude; the override of a derived class is its own. *)
Fixpoint geom_exportToWkt (g : Geometry) (opts : OGRWktOptions)
  : option (string * OGRErr) :=
  match g with
  | Leaf l => Some (leaf_exportToWkt leafm opts l)
  | Collection c =>
      match vptr c with
      | cls_OGRGeometryCollection =>
          exportToWktInternal geom_exportToWkt c opts EmptyString
      | cls_Derived d => Some (derived_exportToWkt derivedm d c opts)
      end
  end.

Definition exportToWkt (c : GeometryCollection) (opts : OGRWktOptions)
  : option (string * OGRErr) :=
  exportToWktInternal geom_exportToWkt c opts EmptyString.

End Methods.

(** The largest dimension among the stored elements, 0 without any. *)
Definition max_dimension {LeafT Derived SRS CT : Type}
  (leafm : @LeafMethods LeafT SRS CT)
  (derivedm : @DerivedMethods LeafT Derived SRS)
  (c : @OGRGeometryCollection LeafT Derived SRS) : Z :=
  foldr (fun s acc =>
           Z.max (default 0 (s ≫= geom_getDimension leafm derivedm)) acc)
    0 (stored c).

(** The listed texts between the parentheses, or EMPTY without any. *)
Definition wkt_list (texts : list string) : string :=
  match texts with
  | [] => "EMPTY"
  | t :: rest =>
      ("(" ++ t ++ foldr (fun t acc => "," ++ t ++ acc) ")" rest)%string
  end.

(** ** A concrete instance: points, a multipoint class, a little-endian host

    The leaf operations and the readers below stand for the parts of the
    library outside this translation unit.  They follow the wire formats of
    spec 6 for points and collections and are used to run the code on
    concrete inputs. *)

Module Sample.

(** Modelled from the spec: a point leaf, with its flags and the raw
    64-bit patterns of its coordinates. *)
Record OGRPoint : Type := mkPoint {
  pt_flags : Z;
  pt_x : Z;
  pt_y : Z;
  pt_z : Z;
  pt_m : Z
}.

#[global] Instance OGRPoint_eq_dec : EqDecision OGRPoint.
Proof. solve_decision. Defined.

Inductive DerivedClass : Type := OGRMultiPoint.

Definition Geometry : Type := @OGRGeometry OGRPoint DerivedClass unit.
Definition GeometryCollection : Type :=
  @OGRGeometryCollection OGRPoint DerivedClass unit.

Definition OGR_G_NOT_EMPTY_POINT : Z := 1.
Definition wkbPoint : OGRwkbGeometryType := 1.
Definition wkbMultiPoint : OGRwkbGeometryType := 4.

(** Modelled from the spec: tags carry the dimensionality, through the
    high bit (legacy 2.5D) or the ISO ranges 1000, 2000 and 3000. *)
Definition tag_of (code f : Z) : OGRwkbGeometryType :=
  if Is3D_flags f && IsMeasured_flags f then 3000 + code
  else if IsMeasured_flags f then 2000 + code
  else if Is3D_flags f then 0x80000000 + code
  else code.

Definition iso_range (t : OGRwkbGeometryType) : Z :=
  Z.land t 0x7fffffff `div` 1000.

Definition wkbFlatten (t : OGRwkbGeometryType) : OGRwkbGeometryType :=
  Z.land t 0x7fffffff `mod` 1000.

Definition wkbHasZ (t : OGRwkbGeometryType) : bool :=
  Z.testbit t 31 || (iso_range t =? 1) || (iso_range t =? 3).

Definition wkbHasM (t : OGRwkbGeometryType) : bool :=
  (iso_range t =? 2) || (iso_range t =? 3).

Definition flags_of_tag (t : OGRwkbGeometryType) : Z :=
  Z.lor (if wkbHasZ t then OGR_G_3D else 0)
        (if wkbHasM t then OGR_G_MEASURED else 0).

Definition coordinate_dimension (f : Z) : Z :=
  2 + (if Is3D_flags f then 1 else 0) + (if IsMeasured_flags f then 1 else 0).

Definition point_ops : @LeafOps OGRPoint DerivedClass unit :=
  mkLeafOps
    (fun p => tag_of wkbPoint (pt_flags p))
    pt_flags
    (fun p => Z.land (pt_flags p) OGR_G_NOT_EMPTY_POINT =? 0)
    (fun _ => false)
    (fun p => p)
    (fun p => 5 + 8 * coordinate_dimension (pt_flags p))
    Some
    (fun p other =>
       match other with
       | Leaf q => bool_decide (p = q)
       | Collection _ => false
       end)
    (fun p => mkPoint (Z.lor (pt_flags p) OGR_G_3D)
                (pt_x p) (pt_y p) (pt_z p) (pt_m p))
    (fun p => mkPoint (Z.lor (pt_flags p) OGR_G_MEASURED)
                (pt_x p) (pt_y p) (pt_z p) (pt_m p)).

(** A multipoint accepts points only. *)
Definition derived_ops : @DerivedOps DerivedClass :=
  mkDerivedOps
    (fun _ f => tag_of wkbMultiPoint f)
    (fun _ t => wkbFlatten t =? wkbPoint).

Definition allocator : @Allocator OGRPoint DerivedClass unit :=
  mkAllocator 8 (fun _ => true) (fun _ => true) (fun _ => true).

(** [set3D(TRUE)] and [setMeasured(TRUE)] on any geometry: the elements
    first, then the object's own flag. *)
Fixpoint set_flag (bit : Z) (g : Geometry) : Geometry :=
  match g with
  | Leaf p =>
      Leaf (mkPoint (Z.lor (pt_flags p) bit)
              (pt_x p) (pt_y p) (pt_z p) (pt_m p))
  | Collection c =>
      Collection
        (mkGC (vptr c) (Z.lor (flags c) bit) (poSRS c) (nGeomCount c)
           (map (fun s => match s with
                          | Some e => Some (set_flag bit e)
                          | None => None
                          end) (papoGeoms c)))
  end.

Definition as_collection (g : Geometry) (d : GeometryCollection)
  : GeometryCollection :=
  match g with
  | Collection c => c
  | Leaf _ => d
  end.

(** Modelled from the spec: the dimensionality homogenizer (spec 2, 4.1):
    the collection takes the union of the flags, the new element is
    promoted to the collection's flags. *)
Definition homogenize (this : GeometryCollection) (g : Geometry)
  : GeometryCollection * Geometry :=
  let this :=
    if Is3D point_ops g && negb (Is3D_flags (flags this))
    then as_collection (set_flag OGR_G_3D (Collection this)) this
    else this in
  let this :=
    if IsMeasured point_ops g && negb (IsMeasured_flags (flags this))
    then as_collection (set_flag OGR_G_MEASURED (Collection this)) this
    else this in
  let g :=
    if negb (Is3D point_ops g) && Is3D_flags (flags this)
    then set_flag OGR_G_3D g else g in
  let g :=
    if negb (IsMeasured point_ops g) && IsMeasured_flags (flags this)
    then set_flag OGR_G_MEASURED g else g in
  (this, g).

(** The base-class assignment of the examples: it empties the destination
    through the virtual [empty()], then takes the flags and the spatial
    reference of the source. *)
Definition OGRGeometry_operator_assign (this other : GeometryCollection)
  : GeometryCollection * list Geometry :=
  match empty this with
  | Some (this0, d) =>
      (mkGC (vptr this0) (flags other) (poSRS other) (nGeomCount this0)
         (papoGeoms this0), d)
  | None => (this, [])
  end.

Definition base_class : @BaseClass OGRPoint DerivedClass unit :=
  mkBaseClass OGRGeometry_operator_assign homogenize.

(** *** Binary reader *)

Definition byte_at (b : list byte) (i : nat) : Z := default 0 (b !! i).

Definition byte_order_of (b : byte) : option OGRwkbByteOrder :=
  if b =? 0 then Some wkbXDR else if b =? 1 then Some wkbNDR else None.

(** An unsigned integer of [n] bytes at offset [off]. *)
Fixpoint read_le (b : list byte) (off n : nat) : Z :=
  match n with
  | O => 0
  | S n' => byte_at b off + 256 * read_le b (S off) n'
  end.

Fixpoint read_be (b : list byte) (off n : nat) (acc : Z) : Z :=
  match n with
  | O => acc
  | S n' => read_be b (S off) n' (256 * acc + byte_at b off)
  end.

Definition read_uint (order : OGRwkbByteOrder) (b : list byte) (off n : nat)
  : Z :=
  match order with
  | wkbNDR => read_le b off n
  | wkbXDR => read_be b off n 0
  end.

Definition read_int32 (order : OGRwkbByteOrder) (b : list byte) (off : nat)
  : Z :=
  let u := read_uint order b off 4 in
  if u <? 2 ^ 31 then u else u - 2 ^ 32.

(** Modelled from the spec: the preamble reader of spec 4.3 step 1.  It
    checks the 9-byte preamble, empties the collection, takes the
    dimensionality from the type code and reads the element count. *)
Definition importPreambleOfCollectionFromWkb (this : GeometryCollection)
  (pabyData : list byte) (nSize nMinSubGeomSize : Z)
  (eWkbVariant : OGRwkbVariant)
  : @WkbPreamble OGRPoint DerivedClass unit :=
  let fail e c d := mkWkbPreamble e c d nSize 0 wkbXDR 0 in
  if (nSize <? 9) && negb (nSize =? SIZE_MAX) then
    fail OGRERR_NOT_ENOUGH_DATA this []
  else
    match byte_order_of (byte_at pabyData 0) with
    | None => fail OGRERR_CORRUPT_DATA this []
    | Some order =>
        let code := read_uint order pabyData 1 4 in
        if negb (wkbFlatten code =?
                 wkbFlatten (getGeometryType derived_ops this))
        then fail OGRERR_CORRUPT_DATA this []
        else
          match empty this with
          | None => fail OGRERR_FAILURE this []
          | Some (this0, d) =>
              let this1 := set_flags this0 (flags_of_tag code) in
              let count := read_int32 order pabyData 5 in
              if (count <? 0) ||
                 (negb (nSize =? SIZE_MAX) &&
                  (nSize - 9 <? count * nMinSubGeomSize))
              then fail OGRERR_CORRUPT_DATA this1 d
              else
                mkWkbPreamble OGRERR_NONE this1 d
                  (if nSize =? SIZE_MAX then nSize else nSize - 9)
                  9 order count
          end
    end.

(** Modelled from the spec: peeking the type tag of an element. *)
Definition OGRReadWKBGeometryType (pabyData : list byte)
  (eWkbVariant : OGRwkbVariant) : OGRErr * OGRwkbGeometryType :=
  match byte_order_of (byte_at pabyData 0) with
  | None => (OGRERR_CORRUPT_DATA, 0)
  | Some order =>
      let code := read_uint order pabyData 1 4 in
      if (1 <=? wkbFlatten code) && (wkbFlatten code <=? 17)
      then (OGRERR_NONE, code)
      else (OGRERR_UNSUPPORTED_GEOMETRY_TYPE, 0)
  end.

Definition is_collection_code (t : Z) : bool :=
  (t =? 4) || (t =? 5) || (t =? 6) || (t =? 7) || (t =? 11) || (t =? 12).

Definition OGR_GT_IsSubClassOf (t super : OGRwkbGeometryType) : bool :=
  (wkbFlatten t =? wkbFlatten super) ||
  ((wkbFlatten super =? wkbGeometryCollection) &&
   is_collection_code (wkbFlatten t)).

Definition createGeometry (t : OGRwkbGeometryType) : option Geometry :=
  if wkbFlatten t =? wkbGeometryCollection then
    Some (Collection (mkGC cls_OGRGeometryCollection 0 None 0 []))
  else if wkbFlatten t =? wkbMultiPoint then
    Some (Collection (mkGC (cls_Derived OGRMultiPoint) 0 None 0 []))
  else if wkbFlatten t =? wkbPoint then Some (Leaf (mkPoint 0 0 0 0 0))
  else None.

(** Modelled from the spec: the leaf decoder, for points: byte order,
    type code, then one 8-byte value for each coordinate. *)
Definition createFromWkb (pabyData : list byte) (nSize : Z)
  (eWkbVariant : OGRwkbVariant) : OGRErr * option OGRPoint * Z :=
  if (nSize <? 9) && negb (nSize =? SIZE_MAX) then
    (OGRERR_NOT_ENOUGH_DATA, None, 0)
  else
    match byte_order_of (byte_at pabyData 0) with
    | None => (OGRERR_CORRUPT_DATA, None, 0)
    | Some order =>
        let code := read_uint order pabyData 1 4 in
        if negb (wkbFlatten code =? wkbPoint) then
          (OGRERR_UNSUPPORTED_GEOMETRY_TYPE, None, 0)
        else
          let f := flags_of_tag code in
          let need := 5 + 8 * coordinate_dimension f in
          if (nSize <? need) && negb (nSize =? SIZE_MAX) then
            (OGRERR_NOT_ENOUGH_DATA, None, 0)
          else
            let z := if Is3D_flags f then read_uint order pabyData 21 8
                     else 0 in
            let m :=
              if IsMeasured_flags f
              then read_uint order pabyData
                     (if Is3D_flags f then 29 else 21) 8
              else 0 in
            (OGRERR_NONE,
             Some (mkPoint (Z.lor f OGR_G_NOT_EMPTY_POINT)
                     (read_uint order pabyData 5 8)
                     (read_uint order pabyData 13 8) z m),
             need)
    end.

Definition wkb_import : @WkbImportExternals OGRPoint DerivedClass unit :=
  mkWkbImport importPreambleOfCollectionFromWkb OGRReadWKBGeometryType
    OGR_GT_IsSubClassOf createGeometry createFromWkb.

(** *** Binary writer *)

Fixpoint le_bytes (n : nat) (x : Z) : list byte :=
  match n with
  | O => []
  | S n' => x `mod` 256 :: le_bytes n' (x `div` 256)
  end.

Definition CPL_SWAP32 (x : Z) : Z :=
  read_be (le_bytes 4 (x `mod` 2 ^ 32)) 0 4 0.

Definition export_point (p : OGRPoint) (buf : buffer) (pabyData : Z)
  (o : OGRwkbExportOptions) : buffer :=
  let enc n x := match eByteOrder o with
                 | wkbNDR => le_bytes n x
                 | wkbXDR => rev (le_bytes n x)
                 end in
  let f := pt_flags p in
  let code :=
    match eWkbVariant o with
    | wkbVariantIso =>
        1 + (if Is3D_flags f then 1000 else 0)
          + (if IsMeasured_flags f then 2000 else 0)
    | _ => tag_of wkbPoint f
    end in
  memcpy buf pabyData
    ([match eByteOrder o with wkbXDR => 0 | wkbNDR => 1 end]
       ++ enc 4%nat code ++ enc 8%nat (pt_x p) ++ enc 8%nat (pt_y p)
       ++ (if Is3D_flags f then enc 8%nat (pt_z p) else [])
       ++ (if IsMeasured_flags f then enc 8%nat (pt_m p) else [])).

(** Modelled from the spec: the encoder's macros on a little-endian host;
    the ISO type code adds 1000 for Z and 2000 for M, the vendor dialect
    has its own two codes and the high bit (spec 4.3). *)
Definition wkb_export : @WkbExportExternals OGRPoint DerivedClass unit :=
  mkWkbExport
    (mkExportOptions wkbNDR wkbVariantOldOgc)
    (fun o => match o with wkbXDR => 0 | wkbNDR => 1 end)
    (fun b => b)
    (fun o => bool_decide (o = wkbXDR))
    CPL_SWAP32
    (le_bytes 4)
    wkbFlatten
    wkbHasZ
    (fun c =>
       wkbFlatten (getGeometryType derived_ops c)
       + (if Is3D_flags (flags c) then 1000 else 0)
       + (if IsMeasured_flags (flags c) then 2000 else 0))
    14 15 0x80000000
    export_point.

(** *** Text reader *)

Definition is_space (c : ascii) : bool :=
  Ascii.eqb c " " || Ascii.eqb c "009" || Ascii.eqb c "010"
  || Ascii.eqb c "013".

Definition is_delimiter (c : ascii) : bool :=
  Ascii.eqb c "(" || Ascii.eqb c ")" || Ascii.eqb c ",".

Fixpoint skip_spaces (s : string) : string :=
  match s with
  | String c r => if is_space c then skip_spaces r else s
  | EmptyString => s
  end.

Fixpoint read_word (s : string) : string * string :=
  match s with
  | String c r =>
      if is_space c || is_delimiter c then (EmptyString, s)
      else let '(w, rest) := read_word r in (String c w, rest)
  | EmptyString => (EmptyString, EmptyString)
  end.

(** Modelled from the spec: the "next token" primitive (spec 1): white
    space is skipped, a parenthesis or a comma is a token of its own. *)
Definition OGRWktReadToken (s : string) : string * string :=
  match skip_spaces s with
  | String c r =>
      if is_delimiter c then (String c EmptyString, r)
      else read_word (String c r)
  | EmptyString => (EmptyString, EmptyString)
  end.

Definition upper_char (c : ascii) : ascii :=
  let n := N_of_ascii c in
  if ((97 <=? n) && (n <=? 122))%N then ascii_of_N (n - 32) else c.

Fixpoint upper (s : string) : string :=
  match s with
  | String c r => String (upper_char c) (upper r)
  | EmptyString => EmptyString
  end.

Definition STARTS_WITH_CI (a b : string) : bool :=
  String.prefix (upper b) (upper a).

Definition EQUAL (a b : string) : bool := String.eqb (upper a) (upper b).

(** The dimension suffix at a position: has Z, has M, position after. *)
Definition read_dimension (s : string) : bool * bool * string :=
  let '(tok, rest) := OGRWktReadToken s in
  if EQUAL tok "Z" then (true, false, rest)
  else if EQUAL tok "M" then (false, true, rest)
  else if EQUAL tok "ZM" then (true, true, rest)
  else (false, false, s).

Definition geometry_name (c : GeometryCollection) : string :=
  match vptr c with
  | cls_OGRGeometryCollection => "GEOMETRYCOLLECTION"
  | cls_Derived OGRMultiPoint => "MULTIPOINT"
  end.

(** Modelled from the spec: the standard preamble of spec 4.4: the type
    name, the suffix Z, M or ZM, and the EMPTY keyword. *)
Definition importPreambleFromWkt (this : GeometryCollection) (s : string)
  : @WktPreamble OGRPoint DerivedClass unit :=
  match empty this with
  | None => mkWktPreamble OGRERR_FAILURE this [] s false false false
  | Some (this0, d) =>
      let '(tok, rest) := OGRWktReadToken s in
      if negb (EQUAL tok (geometry_name this)) then
        mkWktPreamble OGRERR_CORRUPT_DATA this0 d s false false false
      else
        let '(z, m, rest) := read_dimension rest in
        let '(tok, after) := OGRWktReadToken rest in
        if EQUAL tok "EMPTY" then
          mkWktPreamble OGRERR_NONE this0 d after z m true
        else if EQUAL tok "(" then
          mkWktPreamble OGRERR_NONE this0 d rest z m false
        else mkWktPreamble OGRERR_CORRUPT_DATA this0 d s false false false
  end.

(** Modelled from the spec: the generic element parser, for empty points
    with their dimension suffix. *)
Definition createFromWkt (s : string) : OGRErr * option Geometry * string :=
  let '(tok, rest) := OGRWktReadToken s in
  if EQUAL tok "POINT" then
    let '(z, m, rest) := read_dimension rest in
    let '(tok, after) := OGRWktReadToken rest in
    if EQUAL tok "EMPTY" then
      (OGRERR_NONE,
       Some (Leaf (mkPoint (Z.lor (if z then OGR_G_3D else 0)
                                  (if m then OGR_G_MEASURED else 0))
                     0 0 0 0)),
       after)
    else (OGRERR_CORRUPT_DATA, None, s)
  else (OGRERR_UNSUPPORTED_GEOMETRY_TYPE, None, s).

Definition wkt_reader : @WktExternals OGRPoint DerivedClass unit :=
  mkWkt importPreambleFromWkt OGRWktReadToken STARTS_WITH_CI createFromWkt.

(** *** Objects used in the examples *)

Definition empty_collection : GeometryCollection :=
  mkGC cls_OGRGeometryCollection 0 None 0 [].

Definition empty_multipoint : GeometryCollection :=
  mkGC (cls_Derived OGRMultiPoint) 0 None 0 [].

Definition point_xy (x y : Z) : OGRPoint :=
  mkPoint OGR_G_NOT_EMPTY_POINT x y 0 0.

Definition point_empty : OGRPoint := mkPoint 0 0 0 0 0.

(** A collection holding exactly the given elements. *)
Definition collection_of (f : Z) (l : list Geometry) : GeometryCollection :=
  mkGC cls_OGRGeometryCollection f None (Z.of_nat (length l)) (Some <$> l).

(** The 9-byte header of a little-endian collection with [n] elements. *)
Definition wkb_header (n : Z) : list byte :=
  [1; 7; 0; 0; 0] ++ le_bytes 4 n.

(** A little-endian 2D point. *)
Definition wkb_point (x y : Z) : list byte :=
  [1; 1; 0; 0; 0] ++ le_bytes 8 x ++ le_bytes 8 y.

Definition two_empty_points : GeometryCollection :=
  collection_of 0 [Leaf point_empty; Leaf point_empty].

Definition one_empty_point : GeometryCollection :=
  collection_of 0 [Leaf point_empty].

Definition three_points : GeometryCollection :=
  collection_of 0 [Leaf (point_xy 1 2); Leaf (point_xy 3 4);
                   Leaf (point_xy 5 6)].

(** Two points, an empty point, and a collection holding only an empty
    point. *)
Definition mixed : GeometryCollection :=
  collection_of 0
    [Leaf (point_xy 1 2); Leaf point_empty;
     Collection (collection_of 0 [Leaf point_empty]); Leaf (point_xy 3 4)].

(** A 3D collection holding an empty collection. *)
Definition holds_collection : GeometryCollection :=
  collection_of OGR_G_3D [Collection empty_collection].

(** A collection declared measured and not 3D. *)
Definition measured_collection : GeometryCollection :=
  mkGC cls_OGRGeometryCollection OGR_G_MEASURED None 0 [].

(** 30 bytes: a header declaring two elements, followed by one point. *)
Definition wkb_one_point_of_two : list byte :=
  wkb_header 2 ++ wkb_point 1 2.

(** 18 bytes: a header declaring one element, followed by nine bytes
    whose byte-order marker is 9. *)
Definition wkb_bad_byte_order : list byte :=
  wkb_header 1 ++ [9; 1; 0; 0; 0; 0; 0; 0; 0].

(** [k] collection headers, each declaring one element. *)
Fixpoint wkb_nested (k : nat) : list byte :=
  match k with
  | O => []
  | S k' => wkb_header 1 ++ wkb_nested k'
  end.

Fixpoint wkt_nested (k : nat) : string :=
  match k with
  | O => EmptyString
  | S k' => ("GEOMETRYCOLLECTION(" ++ wkt_nested k')%string
  end.

(** *** Further methods of the instance *)

(** A transformation that shifts x by [ct_dx] and refuses, with
    [ct_error], the points whose x is above [ct_limit]. *)
Record Transformation : Type := mkTransformation {
  ct_dx : Z;
  ct_limit : Z;
  ct_error : OGRErr;
  ct_target : option unit
}.

Definition set_point_flags (p : OGRPoint) (f : Z) : OGRPoint :=
  mkPoint f (pt_x p) (pt_y p) (pt_z p) (pt_m p).

Definition set_bit (bit : Z) (b : bool) (f : Z) : Z :=
  if b then Z.lor f bit else Z.land f (Z.lnot bit).

Definition decimal (x : Z) : string := NilZero.string_of_int (Z.to_int x).

(** The dimension suffix of ISO text, as [wktTypeString] builds it. *)
Definition type_string (v : OGRwkbVariant) (f : Z) : string :=
  let s :=
    if bool_decide (v = wkbVariantIso) then
      ((if Is3D_flags f then "Z" else "")
       ++ (if IsMeasured_flags f then "M" else ""))%string
    else EmptyString in
  if (String.length s =? 0)%nat then " "%string
  else (" " ++ s ++ " ")%string.

Definition point_coordinates (v : OGRwkbVariant) (p : OGRPoint) : string :=
  let bZ := Is3D_flags (pt_flags p) in
  let bM := IsMeasured_flags (pt_flags p) && bool_decide (v = wkbVariantIso) in
  (decimal (pt_x p) ++ " " ++ decimal (pt_y p)
   ++ (if bZ then " " ++ decimal (pt_z p) else "")
   ++ (if bM then " " ++ decimal (pt_m p) else ""))%string.

Definition point_wkt (opts : OGRWktOptions) (p : OGRPoint) : string :=
  let bEmpty := Z.land (pt_flags p) OGR_G_NOT_EMPTY_POINT =? 0 in
  ("POINT" ++ type_string (variant opts) (pt_flags p)
   ++ (if bEmpty then "EMPTY"
       else "(" ++ point_coordinates (variant opts) p ++ ")"))%string.

Definition point_methods : @LeafMethods OGRPoint unit Transformation :=
  mkLeafMethods
    (fun _ => 0)
    (fun p =>
       mkPoint (Z.land (Z.land (pt_flags p) (Z.lnot OGR_G_3D))
                  (Z.lnot OGR_G_MEASURED))
         (pt_x p) (pt_y p) 0 0)
    (fun ct p =>
       if pt_x p >? ct_limit ct then (ct_error ct, p)
       else (OGRERR_NONE,
             mkPoint (pt_flags p) (pt_x p + ct_dx ct) (pt_y p) (pt_z p)
               (pt_m p)))
    (fun _ p => p)
    (fun b p => (true, set_point_flags p (set_bit OGR_G_3D b (pt_flags p))))
    (fun b p =>
       (true, set_point_flags p (set_bit OGR_G_MEASURED b (pt_flags p))))
    (fun n p =>
       (true,
        set_point_flags p
          (set_bit OGR_G_MEASURED false
             (set_bit OGR_G_3D (n =? 3) (pt_flags p)))))
    (fun opts p => (point_wkt opts p, OGRERR_NONE)).

(** The base-class methods of the examples.  Their
    [setCoordinateDimension] sets the Z flag of the object and then calls
    the virtual [setMeasured(FALSE)] on it. *)
Definition base_methods
  : @BaseMethods OGRPoint DerivedClass unit Transformation :=
  mkBaseMethods
    (fun b f => (true, set_bit OGR_G_3D b f))
    (fun b f => (true, set_bit OGR_G_MEASURED b f))
    (fun n c =>
       match
         geom_set
           (fun p =>
              (true,
               set_point_flags p (set_bit OGR_G_MEASURED false (pt_flags p))))
           (on_flags (fun f => (true, set_bit OGR_G_MEASURED false f)))
           (Collection
              (set_flags c (set_bit OGR_G_3D (negb (n =? 2)) (flags c))))
       with
       | Some (ok, Collection c') => Some (ok, c')
       | _ => None
       end)
    (fun poSR _ => poSR)
    ct_target
    type_string.

(** The text of the points of a multipoint; a stored object that is no
    point cannot be written. *)
Fixpoint multipoint_items (v : OGRwkbVariant) (slots : list (option Geometry))
  : option (list string) :=
  match slots with
  | [] => Some []
  | Some (Leaf p) :: rest =>
      match multipoint_items v rest with
      | Some items =>
          Some (("(" ++ point_coordinates v p ++ ")")%string :: items)
      | None => None
      end
  | _ => None
  end.

Definition derived_methods
  : @DerivedMethods OGRPoint DerivedClass unit :=
  mkDerivedMethods
    (fun _ _ => 0)
    (fun _ => "MULTIPOINT"%string)
    (fun _ c opts =>
       match multipoint_items (variant opts) (stored c) with
       | Some items =>
           (("MULTIPOINT" ++ type_string (variant opts) (flags c)
             ++ wkt_list items)%string, OGRERR_NONE)
       | None => (EmptyString, OGRERR_FAILURE)
       end).

Definition iso : OGRWktOptions := mkWktOptions wkbVariantIso.
Definition old_ogc : OGRWktOptions := mkWktOptions wkbVariantOldOgc.

(** A 3D point. *)
Definition point_xyz (x y z : Z) : OGRPoint :=
  mkPoint (Z.lor OGR_G_NOT_EMPTY_POINT OGR_G_3D) x y z 0.

(** A multipoint of two points. *)
Definition two_multipoint : GeometryCollection :=
  mkGC (cls_Derived OGRMultiPoint) 0 None 2
    [Some (Leaf (point_xy 1 2)); Some (Leaf (point_xy 3 4))].

(** A multipoint that holds a collection, which its policy never lets in. *)
Definition broken_multipoint : GeometryCollection :=
  mkGC (cls_Derived OGRMultiPoint) 0 None 1 [Some (Collection empty_collection)].

(** A 3D collection of a 3D point and a nested collection of a point. *)
Definition nested_3d : GeometryCollection :=
  collection_of OGR_G_3D
    [Leaf (point_xyz 1 2 3);
     Collection (collection_of 0 [Leaf (point_xy 4 5)])].

Definition shift_below_4 : Transformation :=
  mkTransformation 10 4 OGRERR_UNSUPPORTED_OPERATION (Some tt).

Definition shift_all : Transformation :=
  mkTransformation 10 100 OGRERR_FAILURE (Some tt).

(** *** Leaves of every dimension *)

(** A leaf that is a point, a curve or a surface, for [getDimension]; the
    other methods leave it alone. *)
Inductive Shape : Type :=
| a_point
| a_curve
| a_surface.

Definition shape_methods : @LeafMethods Shape unit Transformation :=
  mkLeafMethods
    (fun s => match s with a_point => 0 | a_curve => 1 | a_surface => 2 end)
    (fun s => s)
    (fun _ s => (OGRERR_NONE, s))
    (fun _ s => s)
    (fun _ s => (true, s))
    (fun _ s => (true, s))
    (fun _ s => (true, s))
    (fun _ _ => (EmptyString, OGRERR_FAILURE)).

(** The multipoint class over these leaves: its dimension is 0. *)
Definition shape_overrides : @DerivedMethods Shape DerivedClass unit :=
  mkDerivedMethods
    (fun _ _ => 0)
    (fun _ => "MULTIPOINT"%string)
    (fun _ _ _ => (EmptyString, OGRERR_FAILURE)).

Definition shapes (l : list (@OGRGeometry Shape DerivedClass unit))
  : @OGRGeometryCollection Shape DerivedClass unit :=
  mkGC cls_OGRGeometryCollection 0 None (Z.of_nat (length l)) (Some <$> l).

(** A point, a curve, a nested collection that holds a surface, and a
    last point that the scan does not reach. *)
Definition surface_inside : @OGRGeometryCollection Shape DerivedClass unit :=
  shapes [Leaf a_point; Leaf a_curve;
          Collection (shapes [Leaf a_surface; Leaf a_point]); Leaf a_point].

(** A curve between two points. *)
Definition curve_between_points
  : @OGRGeometryCollection Shape DerivedClass unit :=
  shapes [Leaf a_point; Leaf a_curve; Leaf a_point].

End Sample.

(** * Properties *)

Section Theory.
Context {LeafT Derived SRS : Type}.
Variable leaf : @LeafOps LeafT Derived SRS.
Variable derived : @DerivedOps Derived.

Abbreviation Geometry := (@OGRGeometry LeafT Derived SRS).
Abbreviation GeometryCollection :=
  (@OGRGeometryCollection LeafT Derived SRS).

(** Induction over nested geometries: the hypothesis holds for every
    non-null slot of a collection. *)
Lemma OGRGeometry_ind (P : Geometry → Prop) :
  (∀ l, P (Leaf l)) →
  (∀ c : GeometryCollection,
      Forall (fun s => ∀ e, s = Some e → P e) (papoGeoms c) →
      P (Collection c)) →
  ∀ g, P g.
Proof.
  intros HL HC. fix IH 1. intros [l | c]; [apply HL | apply HC].
  destruct c as [v f s n a]; simpl. revert a. fix IHa 1.
  intros [| [e |] a]; constructor; try apply IHa.
  - intros e' [= <-]. apply IH.
  - intros e' [=].
Qed.

Lemma set_papoGeoms_id (c : GeometryCollection) :
  set_papoGeoms c (papoGeoms c) = c.
Proof. by destruct c. Qed.

(** The stored range of a well-formed collection is a list of objects. *)
Lemma wf_slots_inv {G : Type} (wfe : G → bool) slots n :
  wf_slots wfe slots n = true →
  ∃ es rest, slots = (Some <$> es) ++ rest ∧ length es = n
             ∧ Forall (fun e => wfe e = true) es.
Proof.
  revert n. induction slots as [| s slots IH]; intros [| n] H; simpl in H.
  - by exists [], [].
  - done.
  - by exists [], (s :: slots).
  - destruct s as [e |]; [| done].
    apply andb_prop in H as [He H]. destruct (IH _ H) as (es & rest & -> & <- & Hes).
    exists (e :: es), rest. repeat split; auto.
Qed.

Lemma wf_collection_inv (c : GeometryCollection) :
  wf_collection c = true →
  0 ≤ nGeomCount c ∧
  ∃ es rest, papoGeoms c = (Some <$> es) ++ rest
             ∧ length es = Z.to_nat (nGeomCount c)
             ∧ Forall (fun e => wf_geom e = true) es.
Proof.
  unfold wf_collection; simpl. intros H.
  apply andb_prop in H as [Hn H]. apply Z.leb_le in Hn.
  split; [done |]. by apply wf_slots_inv.
Qed.

Lemma stored_app (c : GeometryCollection) es rest :
  papoGeoms c = (Some <$> es) ++ rest →
  length es = Z.to_nat (nGeomCount c) →
  stored c = Some <$> es.
Proof.
  intros Ha Hn. unfold stored. rewrite Ha, <- Hn.
  rewrite take_app_length'; [done |]. by rewrite length_fmap.
Qed.

Lemma range_for_list {A R : Type} (body : Geometry → A → option (step A R))
  es rest a :
  range_for body ((Some <$> es) ++ rest) (length es) a = for_list body es a.
Proof.
  revert a. induction es as [| e es IH]; intros a; simpl.
  - by destruct rest.
  - destruct (body e a) as [[a' | r] |]; auto.
Qed.

Lemma Forall_slots_elems (P : Geometry → Prop) es rest :
  Forall (fun s => ∀ e, s = Some e → P e) ((Some <$> es) ++ rest) →
  Forall P es.
Proof.
  intros H. apply Forall_app in H as [H _].
  induction es as [| e es IH]; [constructor |].
  inversion H; subst. constructor; auto.
Qed.

(** ** IsEmpty *)

Lemma geom_IsEmpty_total (g : Geometry) :
  wf_geom g = true → ∃ b, geom_IsEmpty leaf g = Some b.
Proof.
  induction g as [l | c IH] using OGRGeometry_ind; intros Hwf; simpl;
    [eauto |].
  destruct (wf_collection_inv c Hwf) as (Hn & es & rest & Ha & Hlen & Hes).
  destruct (Z.ltb_spec (nGeomCount c) 0) as [? | _]; [lia |].
  rewrite Ha, <- Hlen, range_for_list.
  rewrite Ha in IH. apply Forall_slots_elems in IH.
  clear Ha Hlen. induction es as [| e es IHes]; simpl; [eauto |].
  inversion IH; subst. inversion Hes; subst.
  destruct (H1 H3) as [[] ->]; eauto.
Qed.

Lemma IsEmpty_loop (es : list Geometry) :
  Forall (fun e => ∃ b, geom_IsEmpty leaf e = Some b) es →
  for_list
    (fun e (_ : unit) =>
       match geom_IsEmpty leaf e with
       | Some false => Some (Return false)
       | Some true => Some (Next tt)
       | None => None
       end) es tt
  = Some (if forallb (fun e => default false (geom_IsEmpty leaf e)) es
          then Next tt else Return false).
Proof.
  induction 1 as [| e es [b Hb] _ IH]; simpl; [done |].
  rewrite Hb. destruct b; simpl; auto.
Qed.

(** C10. For every well-formed collection, [IsEmpty()] returns, and it
    returns true if and only if every stored element reports itself
    empty; a collection without elements is empty, and so is one with a
    positive count whose elements are all empty. *)
Theorem IsEmpty_iff_all_elements_empty (c : GeometryCollection) :
  wf_collection c = true →
  (∃ b, IsEmpty leaf c = Some b) ∧
  (nGeomCount c = 0 → IsEmpty leaf c = Some true) ∧
  (IsEmpty leaf c = Some true ↔
   ∀ e, Some e ∈ stored c → geom_IsEmpty leaf e = Some true).
Proof.
  intros Hwf. split; [by apply geom_IsEmpty_total |].
  split.
  { intros Hzero. unfold IsEmpty. simpl. rewrite Hzero. simpl.
    by destruct (papoGeoms c). }
  destruct (wf_collection_inv c Hwf) as (Hn & es & rest & Ha & Hlen & Hes).
  rewrite (stored_app c es rest Ha Hlen).
  unfold IsEmpty; simpl.
  destruct (Z.ltb_spec (nGeomCount c) 0) as [? | _]; [lia |].
  rewrite Ha, <- Hlen, range_for_list, IsEmpty_loop.
  2:{ eapply Forall_impl; [exact Hes |]. apply geom_IsEmpty_total. }
  destruct (forallb _ es) eqn:Hall.
  - split; [| done]. intros _ e He.
    apply list_elem_of_fmap in He as (e' & [= <-] & He).
    rewrite forallb_forall in Hall. apply list_elem_of_In in He.
    specialize (Hall _ He).
    destruct (geom_IsEmpty leaf e) as [[] |]; done.
  - split; [done |]. intros Hall'. exfalso.
    assert (forallb (fun e => default false (geom_IsEmpty leaf e)) es = true);
      [| congruence].
    apply forallb_forall. intros e He. apply list_elem_of_In in He.
    rewrite Hall'; [done |]. apply list_elem_of_fmap. eauto.
Qed.

(** ** WkbSize and exportToWkb *)

Variable wkbout : @WkbExportExternals LeafT Derived SRS.

Lemma size_t_add_l a b : size_t (size_t a + b) = size_t (a + b).
Proof. unfold size_t. by rewrite Zplus_mod_idemp_l. Qed.

Lemma size_t_small a : 0 ≤ a < 2 ^ 64 → size_t a = a.
Proof. intros H. unfold size_t. by apply Z.mod_small. Qed.

Lemma WkbSize_loop (es : list Geometry) (a : Z) :
  Forall (fun e => ∃ s, geom_WkbSize leaf e = Some s) es →
  for_list (R := Empty_set)
    (fun e (nSize : Z) =>
       match geom_WkbSize leaf e with
       | Some s => Some (Next (size_t (nSize + s)))
       | None => None
       end) es (size_t a)
  = Some (Next (size_t
                  (a + foldr (fun s acc =>
                                default 0 (s ≫= geom_WkbSize leaf) + acc)
                         0 (Some <$> es)))).
Proof.
  intros H. revert a. induction H as [| e es [s Hs] _ IH]; intros a; simpl.
  - by rewrite Z.add_0_r.
  - rewrite Hs, size_t_add_l, IH. simpl. by rewrite Z.add_assoc.
Qed.

Lemma geom_WkbSize_total (g : Geometry) :
  wf_geom g = true → ∃ s, geom_WkbSize leaf g = Some s.
Proof.
  induction g as [l | c IH] using OGRGeometry_ind; intros Hwf; simpl;
    [eauto |].
  destruct (wf_collection_inv c Hwf) as (Hn & es & rest & Ha & Hlen & Hes).
  destruct (Z.ltb_spec (nGeomCount c) 0) as [? | _]; [lia |].
  rewrite Ha, <- Hlen, range_for_list.
  rewrite Ha in IH. apply Forall_slots_elems in IH.
  change 9 with (size_t 9). rewrite WkbSize_loop; [eauto |].
  clear Ha Hlen. induction Hes as [| e es He Hes IHes]; [constructor |].
  inversion IH; subst. constructor; auto.
Qed.

Lemma WkbSize_value (c : GeometryCollection) :
  wf_collection c = true →
  WkbSize leaf c = Some (size_t (9 + sum_WkbSize leaf c)).
Proof.
  intros Hwf.
  destruct (wf_collection_inv c Hwf) as (Hn & es & rest & Ha & Hlen & Hes).
  unfold sum_WkbSize. rewrite (stored_app c es rest Ha Hlen).
  unfold WkbSize; simpl.
  destruct (Z.ltb_spec (nGeomCount c) 0) as [? | _]; [lia |].
  rewrite Ha, <- Hlen, range_for_list.
  change 9 with (size_t 9) at 1. rewrite WkbSize_loop; [done |].
  eapply Forall_impl; [exact Hes |]. apply geom_WkbSize_total.
Qed.

Lemma export_loop
  (rec : Geometry → buffer → Z → OGRwkbExportOptions → option buffer)
  (es : list Geometry) (pabyData : Z) :
  Forall (fun e => (∃ s, geom_WkbSize leaf e = Some s) ∧
                   ∀ buf p o, ∃ buf', rec e buf p o = Some buf') es →
  ∀ o buf a, ∃ buf',
    for_list (R := Empty_set)
      (fun poSubGeom '(buf, nOffset) =>
         match rec poSubGeom buf (pabyData + nOffset) o with
         | None => None
         | Some buf' =>
             match geom_WkbSize leaf poSubGeom with
             | None => None
             | Some s => Some (Next (buf', size_t (nOffset + s)))
             end
         end) es (buf, size_t a)
    = Some (Next (buf',
                  size_t (a + foldr (fun s acc =>
                                default 0 (s ≫= geom_WkbSize leaf) + acc)
                         0 (Some <$> es)))).
Proof.
  induction 1 as [| e es [[s Hs] Hrec] _ IH]; intros o buf a; simpl.
  - exists buf. by rewrite Z.add_0_r.
  - destruct (Hrec buf (pabyData + size_t a) o) as [buf1 ->].
    rewrite Hs, size_t_add_l. destruct (IH o buf1 (a + s)) as [buf2 ->].
    exists buf2. simpl. by rewrite Z.add_assoc.
Qed.

Lemma exportToWkb_with_offset
  (rec : Geometry → buffer → Z → OGRwkbExportOptions → option buffer)
  (c : GeometryCollection) :
  wf_collection c = true →
  (∀ e, Some e ∈ stored c →
        ∀ buf p o, ∃ buf', rec e buf p o = Some buf') →
  ∀ buf pabyData psOptions, ∃ buf',
    exportToWkb_with leaf derived wkbout rec c buf pabyData psOptions
    = Some (OGRERR_NONE, buf', size_t (9 + sum_WkbSize leaf c)).
Proof.
  intros Hwf Hrec buf pabyData psOptions.
  destruct (wf_collection_inv c Hwf) as (Hn & es & rest & Ha & Hlen & Hes).
  unfold sum_WkbSize. rewrite (stored_app c es rest Ha Hlen) in *.
  assert (Forall (fun e => (∃ s, geom_WkbSize leaf e = Some s) ∧
                   ∀ buf p o, ∃ buf', rec e buf p o = Some buf') es) as HF.
  { apply Forall_forall. intros e He. split.
    - apply geom_WkbSize_total. rewrite Forall_forall in Hes. auto.
    - apply Hrec. apply list_elem_of_fmap. eauto. }
  unfold exportToWkb_with, for_geoms.
  destruct (Z.ltb_spec (nGeomCount c) 0) as [? | _]; [lia |].
  rewrite Ha, <- Hlen, range_for_list.
  change 9 with (size_t 9) at 1.
  edestruct (export_loop rec es pabyData HF) as [buf' E].
  rewrite E. by exists buf'.
Qed.

Lemma geom_exportToWkb_total (g : Geometry) :
  wf_geom g = true →
  ∀ buf p o, ∃ buf', geom_exportToWkb leaf derived wkbout g buf p o = Some buf'.
Proof.
  induction g as [l | c IH] using OGRGeometry_ind; intros Hwf buf p o; simpl;
    [eauto |].
  destruct (wf_collection_inv c Hwf) as (Hn & es & rest & Ha & Hlen & Hes).
  edestruct (exportToWkb_with_offset
               (geom_exportToWkb leaf derived wkbout) c Hwf) as [buf' E].
  - rewrite (stored_app c es rest Ha Hlen). intros e He.
    apply list_elem_of_fmap in He as (e' & [= <-] & He).
    rewrite Ha in IH. apply Forall_slots_elems in IH.
    rewrite Forall_forall in IH, Hes. auto.
  - rewrite E. eauto.
Qed.

(** ** Removal *)

Lemma memmove_remove {T : Type} (pre mid tail : list T) (s : T) :
  memmove (pre ++ s :: mid ++ tail) (length pre) (length pre + 1) (length mid)
  = pre ++ mid ++ drop (length mid) (s :: mid ++ tail).
Proof.
  unfold memmove. rewrite take_app_length. f_equal.
  rewrite !drop_app_add. simpl. by rewrite drop_0, take_app_length.
Qed.

Lemma array_split {T : Type} (a : list T) (i n : nat) :
  (i < n ≤ length a)%nat →
  ∃ pre s mid tail,
    a = pre ++ s :: mid ++ tail ∧ length pre = i
    ∧ length mid = (n - i - 1)%nat.
Proof.
  intros H.
  destruct (lookup_lt_is_Some_2 a i) as [s Hs]; [lia |].
  exists (take i a), s, (take (n - i - 1) (drop (S i) a)),
    (drop (n - i - 1) (drop (S i) a)).
  split; [| split].
  - rewrite take_drop. by rewrite take_drop_middle.
  - rewrite length_take. lia.
  - rewrite length_take, length_drop. lia.
Qed.

(** Removing the slot after [pre]: the slots of [mid] move down by one,
    the slots past the count keep what they held. *)
Lemma removeGeometry_at_split (c : GeometryCollection)
  (pre mid tail : list (option Geometry)) (s : option Geometry)
  (bDelete : bool) :
  papoGeoms c = pre ++ s :: mid ++ tail →
  nGeomCount c = Z.of_nat (length pre + 1 + length mid) →
  removeGeometry_at c (Z.of_nat (length pre)) bDelete
  = Some (OGRERR_NONE,
          set_nGeomCount
            (set_papoGeoms c
               (pre ++ mid ++ drop (length mid) (s :: mid ++ tail)))
            (nGeomCount c - 1),
          if bDelete then delete s else []).
Proof.
  intros Ha Hn. unfold removeGeometry_at.
  destruct (Z.ltb_spec (Z.of_nat (length pre)) (-1)) as [? | _]; [lia |].
  destruct (Z.geb_spec (Z.of_nat (length pre)) (nGeomCount c)) as [? | _];
    [lia |].
  destruct (Z.ltb_spec (Z.of_nat (length pre)) 0) as [? | _]; [lia |].
  assert (length (papoGeoms c)
          = (length pre + 1 + length mid + length tail)%nat) as Hlen.
  { rewrite Ha. rewrite length_app. simpl. rewrite length_app. lia. }
  cbn [orb]. rewrite Nat2Z.id.
  replace (Z.to_nat (nGeomCount c - Z.of_nat (length pre) - 1))
    with (length mid) by lia.
  assert (papoGeoms c !! length pre = Some s) as Hs.
  { rewrite Ha. by apply list_lookup_middle. }
  rewrite Hs.
  destruct (Nat.ltb_spec (length (papoGeoms c))
              (length pre + 1 + length mid)) as [? | _]; [lia |].
  rewrite andb_false_r, Ha, memmove_remove.
  by destruct bDelete.
Qed.

Lemma removeGeometry_index (c : GeometryCollection) (iGeom : Z)
  (bDelete : bool) :
  0 ≤ iGeom →
  removeGeometry c iGeom bDelete = removeGeometry_at c iGeom bDelete.
Proof.
  intros H. unfold removeGeometry, removeGeometry_at.
  destruct ((iGeom <? -1) || (iGeom >=? nGeomCount c)); [done |].
  destruct (Z.eqb_spec iGeom (-1)) as [? | _]; [lia | done].
Qed.

(** C8. [stealGeometry] returns null and leaves the collection as it is
    when the index is outside [0, nGeomCount).  Otherwise it hands out
    what the slot held and destroys nothing, the count drops by exactly
    one, and the stored range is the old one without that slot: the
    elements before the index stay, those after it move down by one. *)
Theorem stealGeometry_spec (c : GeometryCollection) (iGeom : Z) :
  (iGeom < 0 ∨ nGeomCount c ≤ iGeom →
   stealGeometry c iGeom = Some (None, c, [])) ∧
  (0 ≤ iGeom < nGeomCount c →
   nGeomCount c ≤ Z.of_nat (length (papoGeoms c)) →
   ∃ p c',
     stored c !! Z.to_nat iGeom = Some p ∧
     stealGeometry c iGeom = Some (p, c', []) ∧
     nGeomCount c' = nGeomCount c - 1 ∧
     stored c' = base.delete (Z.to_nat iGeom) (stored c) ∧
     vptr c' = vptr c ∧ flags c' = flags c ∧ poSRS c' = poSRS c).
Proof.
  split.
  - intros H. unfold stealGeometry.
    destruct (Z.ltb_spec iGeom 0); [done |].
    destruct (Z.geb_spec iGeom (nGeomCount c)); [done | lia].
  - intros Hi Hlen.
    destruct (array_split (papoGeoms c) (Z.to_nat iGeom)
                (Z.to_nat (nGeomCount c)))
      as (pre & s & mid & tail & Ha & Hpre & Hmid); [lia |].
    assert (iGeom = Z.of_nat (length pre)) as -> by lia.
    rewrite Nat2Z.id in *. clear Hpre.
    assert (stored c = pre ++ s :: mid) as Hst.
    { unfold stored. rewrite Ha.
      replace (Z.to_nat (nGeomCount c))
        with (length pre + S (length mid))%nat by lia.
      rewrite take_app_add. simpl. by rewrite take_app_length. }
    exists s. eexists. split.
    { rewrite Hst. by apply list_lookup_middle. }
    unfold stealGeometry.
    destruct (Z.ltb_spec (Z.of_nat (length pre)) 0) as [? | _]; [lia |].
    destruct (Z.geb_spec (Z.of_nat (length pre)) (nGeomCount c)) as [? | _];
      [lia |]. simpl.
    rewrite Nat2Z.id. rewrite Ha at 1. rewrite list_lookup_middle by done.
    rewrite removeGeometry_index by lia.
    rewrite (removeGeometry_at_split _ pre mid tail None true).
    + split; [reflexivity |]. simpl. split; [lia |].
      split; [| done]. unfold stored at 1; simpl.
      replace (Z.to_nat (nGeomCount c - 1))
        with (length pre + length mid)%nat by lia.
      rewrite take_app_add, take_app_length, Hst.
      rewrite delete_take_drop. rewrite take_app_length.
      replace (S (length pre)) with (length pre + 1)%nat by lia.
      by rewrite drop_app_add.
    + simpl. rewrite Ha.
      rewrite insert_app_r_alt by lia. by rewrite Nat.sub_diag.
    + simpl. lia.
Qed.

(** ** Insertion and assignment *)

Variable alloc : @Allocator LeafT Derived SRS.
Variable base : @BaseClass LeafT Derived SRS.

(** A cloned collection keeps its type tag. *)
Lemma geom_clone_collection_tag (c : GeometryCollection) (g : Geometry) :
  geom_clone leaf alloc (Collection c) = Some (Some g) →
  geom_getGeometryType leaf derived g = getGeometryType derived c.
Proof.
  simpl. destruct (new_nothrow alloc c); [| done].
  unfold copy_construct.
  destruct (VSI_CALLOC_VERBOSE alloc (nGeomCount c)).
  - destruct (clone_for _ _ _); [| done]. by intros [= <-].
  - by intros [= <-].
Qed.

(** C6. When the compatibility policy of the collection rejects the type
    tag of the element, [addGeometryDirectly] returns
    OGRERR_UNSUPPORTED_GEOMETRY_TYPE and returns the collection and the
    element as they were; the cloning [addGeometry] and the owning
    overload do the same and destroy the clone, respectively the element
    they own. *)
Theorem addGeometryDirectly_rejects (this : GeometryCollection)
  (poNewGeom : Geometry) :
  isCompatibleSubType derived this
    (geom_getGeometryType leaf derived poNewGeom) = false →
  addGeometryDirectly leaf derived alloc base this poNewGeom
  = (OGRERR_UNSUPPORTED_GEOMETRY_TYPE, this, poNewGeom) ∧
  addGeometry_unique leaf derived alloc base this poNewGeom
  = (OGRERR_UNSUPPORTED_GEOMETRY_TYPE, this, [poNewGeom]) ∧
  ∀ poSource,
    geom_clone leaf alloc poSource = Some (Some poNewGeom) →
    addGeometry leaf derived alloc base this poSource
    = Some (OGRERR_UNSUPPORTED_GEOMETRY_TYPE, this, [poNewGeom]).
Proof.
  intros Hrej.
  assert (addGeometryDirectly leaf derived alloc base this poNewGeom
          = (OGRERR_UNSUPPORTED_GEOMETRY_TYPE, this, poNewGeom)) as Hadd.
  { unfold addGeometryDirectly. by rewrite Hrej. }
  split; [done |]. split.
  - unfold addGeometry_unique. by rewrite Hadd.
  - intros poSource Hclone. unfold addGeometry. by rewrite Hclone, Hadd.
Qed.

Lemma reject_loop (this : GeometryCollection) (es : list Geometry) :
  Exists (fun e => isCompatibleSubType derived this
                     (geom_getGeometryType leaf derived e) = false) es →
  for_list
    (fun poOtherSubGeom (_ : unit) =>
       if isCompatibleSubType derived this
            (geom_getGeometryType leaf derived poOtherSubGeom)
       then Some (Next tt)
       else Some (Return tt)) es tt
  = Some (Return tt).
Proof.
  induction 1 as [e es He | e es _ IH]; simpl.
  - by rewrite He.
  - destruct (isCompatibleSubType _ _ _); done.
Qed.

(** ** Equals *)




(** ** The recursion guard *)

Variable wkbin : @WkbImportExternals LeafT Derived SRS.
Variable wkt : @WktExternals LeafT Derived SRS.

Lemma importFromWkbInternal_guard fuel (this : GeometryCollection)
  pabyData nSize eWkbVariant :
  importFromWkbInternal leaf derived alloc wkbin (S fuel) this pabyData
    nSize 32 eWkbVariant
  = Some (OGRERR_CORRUPT_DATA, this, 0, []).
Proof. reflexivity. Qed.

Lemma importFromWktInternal_guard fuel (this : GeometryCollection)
  ppszInput :
  importFromWktInternal leaf derived alloc base wkt (S fuel) this
    ppszInput 32
  = Some (OGRERR_CORRUPT_DATA, this, ppszInput, []).
Proof. reflexivity. Qed.

Lemma importFromWkbInternal_deep (k : nat) :
  ∀ fuel (this : GeometryCollection) pabyData nSize nRecLevel eWkbVariant,
    nRecLevel = 32 - Z.of_nat k →
    (k < fuel)%nat →
    wkb_nests derived alloc wkbin k this pabyData nSize eWkbVariant = true →
    ∃ this' d,
      importFromWkbInternal leaf derived alloc wkbin fuel this pabyData
        nSize nRecLevel eWkbVariant
      = Some (OGRERR_CORRUPT_DATA, this', 0, d).
Proof.
  induction k as [| k IH];
    intros [| fuel] this pabyData nSize nRecLevel v -> Hfuel Hn; try lia.
  - exists this, []. apply importFromWkbInternal_guard.
  - cbn [wkb_nests] in Hn. cbn zeta in Hn.
    destruct (OGRReadWKBGeometryType wkbin _ v) as [eErr t] eqn:Hread.
    repeat (apply andb_prop in Hn as [Hn ?]).
    apply bool_decide_eq_true in Hn.
    destruct (createGeometry wkbin t) as [[| sub] |] eqn:Hcreate; try done.
    destruct (IH fuel sub
                (drop (Z.to_nat (pre_nDataOffset
                   (importPreambleOfCollectionFromWkb wkbin this pabyData
                      nSize 9 v))) pabyData)
                (pre_nSize
                   (importPreambleOfCollectionFromWkb wkbin this pabyData
                      nSize 9 v))
                (32 - Z.of_nat (S k) + 1) v)
      as (sub' & d & Hsub); [lia | lia | done |].
    cbn [importFromWkbInternal].
    destruct (Z.eqb_spec (32 - Z.of_nat (S k)) 32) as [? | _]; [lia |].
    cbn zeta.
    set (pre := importPreambleOfCollectionFromWkb wkbin this pabyData
                  nSize 9 v) in *.
    destruct (decide (pre_eErr pre ≠ OGRERR_NONE)) as [? | _]; [done |].
    cbn [nGeomCount set_nGeomCount set_papoGeoms].
    match goal with H : VSI_CALLOC_VERBOSE _ _ = true |- _ => rewrite H end.
    rewrite andb_false_r.
    destruct (Z.to_nat (pre_nGeomCount pre)) as [| todo] eqn:Hcount.
    { match goal with H : (0 <? _) = true |- _ =>
        apply Z.ltb_lt in H; lia end. }
    cbn [importFromWkb_loop].
    match goal with H : negb (_ && _) = true |- _ =>
      apply negb_true_iff in H; rewrite H end.
    rewrite Hread.
    match goal with H : bool_decide (eErr = _) = true |- _ =>
      apply bool_decide_eq_true in H; subst eErr end.
    destruct (decide (OGRERR_NONE ≠ OGRERR_NONE)) as [? | _]; [done |].
    match goal with H : isCompatibleSubType _ _ _ = true |- _ =>
      change (isCompatibleSubType derived
                (set_papoGeoms
                   (set_nGeomCount (pre_this pre) (pre_nGeomCount pre))
                   (replicate (S todo) None)) t)
        with (isCompatibleSubType derived (pre_this pre) t);
      rewrite H end.
    cbn [negb].
    match goal with H : OGR_GT_IsSubClassOf _ _ _ = true |- _ =>
      rewrite H end.
    rewrite Hcreate, Hsub.
    destruct (decide (OGRERR_CORRUPT_DATA ≠ OGRERR_NONE)) as [_ | Hc];
      [| by destruct Hc].
    eauto.
Qed.

(** The result of the element loop depends on the nested calls only
    through what they return. *)
Lemma importFromWkb_loop_ext
  (rec1 rec2 : GeometryCollection → list byte → Z → option WkbResult) :
  (∀ sub pabySubData nSize, rec1 sub pabySubData nSize
                            = rec2 sub pabySubData nSize) →
  ∀ todo iGeom (this : GeometryCollection) pabyData nSize nDataOffset
    eWkbVariant dels,
    importFromWkb_loop leaf derived wkbin rec1 todo iGeom this pabyData nSize
      nDataOffset eWkbVariant dels
    = importFromWkb_loop leaf derived wkbin rec2 todo iGeom this pabyData
        nSize nDataOffset eWkbVariant dels.
Proof.
  intros Hrec. induction todo as [| todo IH];
    intros iGeom this pabyData nSize nDataOffset eWkbVariant dels; [done |].
  cbn [importFromWkb_loop]. cbn zeta.
  destruct ((nSize <? 9) && negb (nSize =? SIZE_MAX)); [done |].
  destruct (OGRReadWKBGeometryType wkbin _ eWkbVariant) as [eErr t].
  destruct (decide (eErr ≠ OGRERR_NONE)); [done |].
  destruct (negb (isCompatibleSubType derived this t)); [done |].
  destruct (OGR_GT_IsSubClassOf wkbin t wkbGeometryCollection).
  - destruct (createGeometry wkbin t) as [[l | sub] |]; try done.
    rewrite Hrec.
    destruct (rec2 sub _ nSize) as [[[[e sub'] consumed] d] |]; [| done].
    destruct (decide (e ≠ OGRERR_NONE)); [done |]. apply IH.
  - destruct (createFromWkb wkbin _ nSize eWkbVariant)
      as [[e poSubGeom] consumed].
    destruct (decide (e = OGRERR_NONE)).
    + destruct poSubGeom as [l |]; [| done].
      destruct (decide (e ≠ OGRERR_NONE)); [done |]. apply IH.
    + destruct (decide (e ≠ OGRERR_NONE)); [done |].
      destruct (Leaf <$> poSubGeom); [apply IH | done].
Qed.

(** The recursion stops at level 32, so every amount of fuel above
    [32 - nRecLevel] gives the same result: running out of fuel is not an
    outcome of [importFromWkb]. *)
Lemma importFromWkbInternal_fuel (k : nat) :
  ∀ fuel1 fuel2 (this : GeometryCollection) pabyData nSize nRecLevel
    eWkbVariant,
    nRecLevel = 32 - Z.of_nat k →
    (k < fuel1)%nat → (k < fuel2)%nat →
    importFromWkbInternal leaf derived alloc wkbin fuel1 this pabyData nSize
      nRecLevel eWkbVariant
    = importFromWkbInternal leaf derived alloc wkbin fuel2 this pabyData
        nSize nRecLevel eWkbVariant.
Proof.
  induction k as [| k IH];
    intros [| fuel1] [| fuel2] this pabyData nSize nRecLevel v -> H1 H2;
    try lia.
  - done.
  - cbn [importFromWkbInternal].
    destruct (32 - Z.of_nat (S k) =? 32); [done |]. cbn zeta.
    destruct (decide (pre_eErr _ ≠ OGRERR_NONE)); [done |].
    destruct (_ && _); [done |].
    apply importFromWkb_loop_ext. intros sub pabySubData nSubSize.
    apply IH; lia.
Qed.

(** The two early returns of the element loop: with fewer than nine bytes
    left, or with a type tag that cannot be read, the loop returns with the
    collection as it stands, its declared count included. *)
Lemma importFromWkb_loop_early_return
  (rec : GeometryCollection → list byte → Z → option WkbResult)
  todo iGeom (this : GeometryCollection) pabyData nSize nDataOffset
  eWkbVariant dels :
  ((nSize <? 9) && negb (nSize =? SIZE_MAX) = true →
   importFromWkb_loop leaf derived wkbin rec (S todo) iGeom this pabyData
     nSize nDataOffset eWkbVariant dels
   = Some (OGRERR_NOT_ENOUGH_DATA, this, 0, dels)) ∧
  (∀ eErr t,
     (nSize <? 9) && negb (nSize =? SIZE_MAX) = false →
     OGRReadWKBGeometryType wkbin (drop (Z.to_nat nDataOffset) pabyData)
       eWkbVariant = (eErr, t) →
     eErr ≠ OGRERR_NONE →
     importFromWkb_loop leaf derived wkbin rec (S todo) iGeom this pabyData
       nSize nDataOffset eWkbVariant dels
     = Some (eErr, this, 0, dels)).
Proof.
  split.
  - intros H. cbn [importFromWkb_loop]. cbn zeta. by rewrite H.
  - intros eErr t H Hread He. cbn [importFromWkb_loop]. cbn zeta.
    rewrite H, Hread. by destruct (decide (eErr ≠ OGRERR_NONE)).
Qed.

Lemma importFromWktInternal_deep (k : nat) :
  ∀ fuel (this : GeometryCollection) ppszInput nRecLevel,
    nRecLevel = 32 - Z.of_nat k →
    (k < fuel)%nat →
    wkt_nests wkt k this ppszInput = true →
    ∃ this' ppszInput' d,
      importFromWktInternal leaf derived alloc base wkt fuel this
        ppszInput nRecLevel
      = Some (OGRERR_CORRUPT_DATA, this', ppszInput', d).
Proof.
  induction k as [| k IH];
    intros [| fuel] this ppszInput nRecLevel -> Hfuel Hn; try lia.
  - exists this, ppszInput, []. apply importFromWktInternal_guard.
  - cbn [wkt_nests] in Hn. cbn zeta in Hn.
    repeat (apply andb_prop in Hn as [Hn ?]).
    apply bool_decide_eq_true in Hn.
    set (pre := importPreambleFromWkt wkt this ppszInput) in *.
    destruct (IH fuel new_OGRGeometryCollection
                (snd (OGRWktReadToken wkt (wpre_input pre)))
                (32 - Z.of_nat (S k) + 1))
      as (sub' & psz' & d & Hsub); [lia | lia | done |].
    cbn [importFromWktInternal].
    destruct (Z.eqb_spec (32 - Z.of_nat (S k)) 32) as [? | _]; [lia |].
    cbn zeta. fold pre.
    destruct (decide (wpre_eErr pre ≠ OGRERR_NONE)) as [? | _]; [done |].
    match goal with H : negb (wpre_bIsEmpty pre) = true |- _ =>
      apply negb_true_iff in H; rewrite H end.
    destruct fuel as [| n]; [lia |].
    cbn [importFromWkt_loop]. unfold wkt_parse_element.
    match goal with H : STARTS_WITH_CI _ _ _ = true |- _ => rewrite H end.
    rewrite Hsub. unfold wkt_accept.
    destruct (decide (OGRERR_CORRUPT_DATA = OGRERR_NONE)) as [? | _];
      [done |].
    destruct (decide (OGRERR_CORRUPT_DATA ≠ OGRERR_NONE)) as [_ | Hc];
      [| by destruct Hc].
    eauto.
Qed.

(** C2. A binary or text decode call entered at recursion level 32 fails
    with OGRERR_CORRUPT_DATA, reports no consumed byte, leaves the text
    position where it was and returns the collection untouched, for every
    input and variant; hence input that opens 33 collections inside one
    another fails with OGRERR_CORRUPT_DATA from the top-level call.  At
    the levels 0 to 31 the guard does not reject: the call runs the
    preamble, returns its error when it has one, and succeeds on an empty
    collection. *)
Theorem recursion_guard_at_level_32 :
  (∀ fuel (this : GeometryCollection) pabyData nSize eWkbVariant,
     importFromWkbInternal leaf derived alloc wkbin (S fuel) this pabyData
       nSize 32 eWkbVariant
     = Some (OGRERR_CORRUPT_DATA, this, 0, [])) ∧
  (∀ fuel (this : GeometryCollection) ppszInput,
     importFromWktInternal leaf derived alloc base wkt (S fuel) this
       ppszInput 32
     = Some (OGRERR_CORRUPT_DATA, this, ppszInput, [])) ∧
  (∀ (this : GeometryCollection) pabyData nSize eWkbVariant,
     wkb_nests derived alloc wkbin 32 this pabyData nSize eWkbVariant = true →
     ∃ this' d,
       importFromWkb leaf derived alloc wkbin this pabyData nSize eWkbVariant
       = Some (OGRERR_CORRUPT_DATA, this', 0, d)) ∧
  (∀ fuel (this : GeometryCollection) ppszInput,
     (32 < fuel)%nat →
     wkt_nests wkt 32 this ppszInput = true →
     ∃ this' ppszInput' d,
       importFromWkt leaf derived alloc base wkt fuel this ppszInput
       = Some (OGRERR_CORRUPT_DATA, this', ppszInput', d)) ∧
  (∀ nRecLevel fuel (this : GeometryCollection) pabyData nSize eWkbVariant,
     0 ≤ nRecLevel ≤ 31 →
     let pre :=
       importPreambleOfCollectionFromWkb wkbin this pabyData nSize 9
         eWkbVariant in
     (pre_eErr pre ≠ OGRERR_NONE →
      importFromWkbInternal leaf derived alloc wkbin (S fuel) this pabyData
        nSize nRecLevel eWkbVariant
      = Some (pre_eErr pre, pre_this pre, 0, pre_deleted pre)) ∧
     (pre_eErr pre = OGRERR_NONE → pre_nGeomCount pre = 0 →
      ∃ this',
        importFromWkbInternal leaf derived alloc wkbin (S fuel) this
          pabyData nSize nRecLevel eWkbVariant
        = Some (OGRERR_NONE, this', pre_nDataOffset pre, pre_deleted pre))) ∧
  (∀ nRecLevel fuel (this : GeometryCollection) ppszInput,
     0 ≤ nRecLevel ≤ 31 →
     let pre := importPreambleFromWkt wkt this ppszInput in
     (wpre_eErr pre ≠ OGRERR_NONE →
      importFromWktInternal leaf derived alloc base wkt (S fuel) this
        ppszInput nRecLevel
      = Some (wpre_eErr pre, wpre_this pre, wpre_input pre,
              wpre_deleted pre)) ∧
     (wpre_eErr pre = OGRERR_NONE → wpre_bIsEmpty pre = true →
      ∃ this',
        importFromWktInternal leaf derived alloc base wkt (S fuel) this
          ppszInput nRecLevel
        = Some (OGRERR_NONE, this', wpre_input pre, wpre_deleted pre))).
Proof.
  split; [apply importFromWkbInternal_guard |].
  split; [apply importFromWktInternal_guard |].
  split.
  { intros this pabyData nSize v Hn. unfold importFromWkb.
    apply (importFromWkbInternal_deep 32); [reflexivity | lia | done]. }
  split.
  { intros fuel this ppszInput Hfuel Hn. unfold importFromWkt.
    apply (importFromWktInternal_deep 32); [reflexivity | lia | done]. }
  split.
  - intros l fuel this pabyData nSize v Hl pre.
    cbn [importFromWkbInternal].
    destruct (Z.eqb_spec l 32) as [? | _]; [lia |]. cbn zeta. fold pre.
    split.
    + intros He. by destruct (decide (pre_eErr pre ≠ OGRERR_NONE)).
    + intros He Hcount.
      destruct (decide (pre_eErr pre ≠ OGRERR_NONE)) as [? | _]; [done |].
      cbn [nGeomCount set_nGeomCount set_papoGeoms].
      rewrite Hcount. cbn [Z.eqb negb andb Z.to_nat importFromWkb_loop].
      eauto.
  - intros l fuel this ppszInput Hl pre.
    cbn [importFromWktInternal].
    destruct (Z.eqb_spec l 32) as [? | _]; [lia |]. cbn zeta. fold pre.
    split.
    + intros He. by destruct (decide (wpre_eErr pre ≠ OGRERR_NONE)).
    + intros He Hempty.
      destruct (decide (wpre_eErr pre ≠ OGRERR_NONE)) as [? | _]; [done |].
      rewrite Hempty. eauto.
Qed.

(** ** The measured check of the text reader *)

(** C5. In a turn of the element loop of the text reader whose parser has
    returned an element without error: if the collection is measured and
    not 3D and the element is not measured, the import returns
    OGRERR_CORRUPT_DATA, the element is destroyed and the collection and
    the caller's position stay as they were.  In every other case, a 3D
    mismatch included, the element goes through [addGeometryDirectly]:
    its error ends the import and destroys the element, its success
    leaves the collection it returns to the rest of the loop. *)
Theorem importFromWkt_measured_mismatch
  (rec : GeometryCollection → string → option WktResult)
  (n : nat) (this : GeometryCollection) (ppszInput pszInput rest : string)
  (g : Geometry) (dels d : list Geometry) :
  wkt_parse_element wkt rec pszInput = Some (OGRERR_NONE, Some g, rest, d) →
  (Is3D_flags (flags this) = false →
   IsMeasured_flags (flags this) = true →
   IsMeasured leaf g = false →
   importFromWkt_loop leaf derived alloc base wkt rec (S n) this ppszInput
     pszInput dels
   = Some (OGRERR_CORRUPT_DATA, this, ppszInput, dels ++ d ++ [g])) ∧
  (Is3D_flags (flags this) = true ∨ IsMeasured_flags (flags this) = false
   ∨ IsMeasured leaf g = true →
   ∀ eErr this1 g1,
     addGeometryDirectly leaf derived alloc base this g = (eErr, this1, g1) →
     (eErr ≠ OGRERR_NONE →
      importFromWkt_loop leaf derived alloc base wkt rec (S n) this
        ppszInput pszInput dels
      = Some (eErr, this1, ppszInput, dels ++ d ++ [g1])) ∧
     (eErr = OGRERR_NONE →
      importFromWkt_loop leaf derived alloc base wkt rec (S n) this
        ppszInput pszInput dels
      = let '(szToken, pszNext) := OGRWktReadToken wkt rest in
        if first_char_is szToken ","%char
        then importFromWkt_loop leaf derived alloc base wkt rec n this1
               ppszInput pszNext (dels ++ d)
        else if negb (first_char_is szToken ")"%char)
             then Some (OGRERR_CORRUPT_DATA, this1, ppszInput, dels ++ d)
             else Some (OGRERR_NONE, this1, pszNext, dels ++ d))).
Proof.
  intros Hparse. split.
  - intros H3 HM Hg. cbn [importFromWkt_loop]. rewrite Hparse.
    unfold wkt_accept.
    destruct (decide (OGRERR_NONE = OGRERR_NONE)) as [_ | ?]; [| done].
    rewrite H3, HM, Hg. cbn [negb andb].
    destruct (decide (OGRERR_CORRUPT_DATA ≠ OGRERR_NONE)) as [_ | Hc];
      [done | by destruct Hc].
  - intros Hok eErr this1 g1 Hadd.
    assert (negb (Is3D_flags (flags this)) && IsMeasured_flags (flags this)
            && negb (IsMeasured leaf g) = false) as Hcheck.
    { destruct Hok as [-> | [-> | ->]]; cbn [negb andb];
        [done | by rewrite andb_false_r | by rewrite andb_false_r]. }
    cbn [importFromWkt_loop]. rewrite Hparse. unfold wkt_accept.
    destruct (decide (OGRERR_NONE = OGRERR_NONE)) as [_ | ?]; [| done].
    rewrite Hcheck, Hadd. split; intros He.
    + destruct (decide (eErr ≠ OGRERR_NONE)) as [_ | ?]; [| done].
      by destruct (decide (eErr ≠ OGRERR_NONE)).
    + subst eErr.
      destruct (decide (OGRERR_NONE ≠ OGRERR_NONE)) as [? | _]; [done |].
      by destruct (decide (OGRERR_NONE ≠ OGRERR_NONE)).
Qed.

(** ** removeEmptyParts *)

Lemma insert_middle {T : Type} (pre rest : list T) (x y : T) :
  <[length pre := y]> (pre ++ x :: rest) = pre ++ y :: rest.
Proof. rewrite insert_app_r_alt by lia. by rewrite Nat.sub_diag. Qed.

(** One pass of the loop over the slots [pre], given what the virtual
    call returns for each of them: the survivors are the returned
    elements that are not empty, in order, in front of the elements
    [kept] that the loop has already passed. *)
Lemma removeEmptyParts_loop_spec
  (rec : Geometry → option (Geometry * list Geometry)) :
  ∀ (pre : list (option Geometry)) (rs : list (Geometry * list Geometry))
    (c : GeometryCollection) (kept : list Geometry)
    (tail : list (option Geometry)) (dels : list Geometry),
    Forall2 (fun s r => ∃ e, s = Some e ∧ rec e = Some r
                             ∧ ∃ b, geom_IsEmpty leaf r.1 = Some b) pre rs →
    papoGeoms c = pre ++ (Some <$> kept) ++ tail →
    nGeomCount c = Z.of_nat (length pre + length kept) →
    ∃ tail' d,
      removeEmptyParts_loop leaf rec (length pre) c dels
      = Some (mkGC (vptr c) (flags c) (poSRS c)
                (Z.of_nat
                   (length (filter (fun e' => geom_IsEmpty leaf e' = Some false)
                              rs.*1 ++ kept)))
                ((Some <$> (filter (fun e' => geom_IsEmpty leaf e' = Some false)
                              rs.*1 ++ kept)) ++ tail'), d).
Proof.
  induction pre as [| s pre IH] using rev_ind;
    intros rs c kept tail dels HF Ha Hn.
  - apply Forall2_nil_inv_l in HF as ->. simpl. exists tail, dels.
    destruct c; simpl in *; subst; done.
  - apply Forall2_app_inv_l in HF as (rs' & rl & HF' & Hl & ->).
    apply Forall2_cons_inv_l in Hl
        as ([e' d1] & rl' & (e & -> & Hrec & b & Hb) & Hnil & ->).
    apply Forall2_nil_inv_l in Hnil as ->. simpl in Hb.
    rewrite length_app in *; simpl in *.
    rewrite Nat.add_1_r. cbn [removeEmptyParts_loop].
    rewrite <- app_assoc in Ha. simpl in Ha.
    rewrite Ha, list_lookup_middle by done.
    rewrite Hrec, Hb, insert_middle.
    rewrite fmap_app, filter_app. simpl.
    destruct b.
    + rewrite removeGeometry_index by lia.
      rewrite (removeGeometry_at_split _ pre (Some <$> kept) tail
                 (Some e') true); [| done | simpl; rewrite length_fmap; lia].
      edestruct (IH rs'
                   (set_nGeomCount
                      (set_papoGeoms
                         (set_papoGeoms c
                            (pre ++ Some e' :: (Some <$> kept) ++ tail))
                         (pre ++ (Some <$> kept) ++
                            drop (length (Some <$> kept))
                              (Some e' :: (Some <$> kept) ++ tail)))
                      (nGeomCount
                         (set_papoGeoms c
                            (pre ++ Some e' :: (Some <$> kept) ++ tail)) - 1))
                   kept
                   (drop (length (Some <$> kept))
                      (Some e' :: (Some <$> kept) ++ tail))
                   (dels ++ d1 ++ delete (Some e')))
        as (tail' & d & Hloop); [done | done | simpl; lia |].
      rewrite Hloop. simpl. exists tail', d.
      rewrite filter_cons_False by (simpl; congruence).
      by rewrite filter_nil, app_nil_r.
    + edestruct (IH rs'
                   (set_papoGeoms c
                      (pre ++ Some e' :: (Some <$> kept) ++ tail))
                   (e' :: kept) tail (dels ++ d1))
        as (tail' & d & Hloop); [done | done | simpl; lia |].
      rewrite Hloop. simpl. exists tail', d.
      rewrite filter_cons_True by done.
      by rewrite filter_nil, <- app_assoc.
Qed.

(** A collection whose elements the virtual call leaves as they are, and
    none of which is empty, is left as it is by the loop. *)
Lemma removeEmptyParts_loop_stable
  (rec : Geometry → option (Geometry * list Geometry))
  (c : GeometryCollection) (es : list Geometry)
  (tail : list (option Geometry)) :
  papoGeoms c = (Some <$> es) ++ tail →
  Forall (fun e => rec e = Some (e, []) ∧ geom_IsEmpty leaf e = Some false)
    es →
  ∀ k dels, (k ≤ length es)%nat →
            removeEmptyParts_loop leaf rec k c dels = Some (c, dels).
Proof.
  intros Ha Hes. induction k as [| i IH]; intros dels Hk; [done |].
  cbn [removeEmptyParts_loop].
  destruct (lookup_lt_is_Some_2 es i) as [e He]; [lia |].
  assert (papoGeoms c !! i = Some (Some e)) as Hslot.
  { rewrite Ha, lookup_app_l by (rewrite length_fmap; lia).
    by rewrite list_lookup_fmap, He. }
  rewrite Hslot.
  rewrite Forall_forall in Hes.
  destruct (Hes e) as [Hrec Hempty];
    [by eapply list_elem_of_lookup_2 |].
  rewrite Hrec, Hempty, list_insert_id by done.
  rewrite set_papoGeoms_id, app_nil_r. apply IH. lia.
Qed.

Lemma hasEmptyParts_loop (es : list Geometry) :
  Forall (fun e => geom_IsEmpty leaf e = Some false
                   ∧ geom_hasEmptyParts leaf e = Some false) es →
  for_list
    (fun e (_ : unit) =>
       match geom_IsEmpty leaf e with
       | Some true => Some (Return true)
       | Some false =>
           match geom_hasEmptyParts leaf e with
           | Some true => Some (Return true)
           | Some false => Some (Next tt)
           | None => None
           end
       | None => None
       end) es tt
  = Some (Next tt).
Proof.
  induction 1 as [| e es [He Hp] _ IH]; simpl; [done |].
  by rewrite He, Hp.
Qed.

Lemma wf_slots_intro (es : list Geometry) (tail : list (option Geometry)) :
  Forall (fun e => wf_geom e = true) es →
  wf_slots wf_geom ((Some <$> es) ++ tail) (length es) = true.
Proof.
  induction 1 as [| e es He _ IH]; simpl.
  - by destruct tail.
  - rewrite He. exact IH.
Qed.

Lemma depth_elem (c : GeometryCollection) (e : Geometry) :
  Some e ∈ papoGeoms c → (depth e < depth (Collection c))%nat.
Proof.
  simpl. generalize (papoGeoms c). intros a Hin.
  induction a as [| s a IH]; [by apply elem_of_nil in Hin |].
  apply elem_of_cons in Hin as [<- | Hin]; simpl.
  - lia.
  - specialize (IH Hin). destruct s; lia.
Qed.

Section RemoveEmptyParts.
(** What the collection needs from its leaves: stripping a leaf twice
    is stripping it once, and a stripped leaf has no empty part. *)
Hypothesis leaf_strip_idempotent :
  ∀ l, leaf_removeEmptyParts leaf (leaf_removeEmptyParts leaf l)
       = leaf_removeEmptyParts leaf l.
Hypothesis leaf_strip_complete :
  ∀ l, leaf_hasEmptyParts leaf (leaf_removeEmptyParts leaf l) = false.

(** The collection's own pass, given that the virtual call behaves on
    the elements. *)
Lemma removeEmptyParts_collection (fuel : nat) (c : GeometryCollection) :
  (∀ g : Geometry,
     wf_geom g = true → (depth g ≤ fuel)%nat →
     ∃ g' d,
       geom_removeEmptyParts leaf fuel g = Some (g', d) ∧
       wf_geom g' = true ∧
       geom_removeEmptyParts leaf fuel g' = Some (g', []) ∧
       geom_hasEmptyParts leaf g' = Some false) →
  wf_collection c = true →
  (depth (Collection c) ≤ S fuel)%nat →
  ∃ c1 d1 rs,
    removeEmptyParts leaf fuel c = Some (c1, d1) ∧
    wf_collection c1 = true ∧
    removeEmptyParts leaf fuel c1 = Some (c1, []) ∧
    hasEmptyParts leaf c1 = Some false ∧
    Forall2 (fun s r =>
               ∃ e, s = Some e
                    ∧ geom_removeEmptyParts leaf fuel e = Some r)
      (stored c) rs ∧
    stored c1
    = Some <$> filter (fun e' => geom_IsEmpty leaf e' = Some false) rs.*1.
Proof.
  intros IH Hwf Hdepth.
  destruct (wf_collection_inv c Hwf)
    as (Hn & es & rest & Ha & Hlen & Hes).
  assert (∃ rs,
            Forall2 (fun s r =>
                       ∃ e, s = Some e
                            ∧ geom_removeEmptyParts leaf fuel e = Some r
                            ∧ ∃ b, geom_IsEmpty leaf r.1 = Some b)
              (Some <$> es) rs ∧
            Forall (fun r =>
                      wf_geom r.1 = true ∧
                      geom_removeEmptyParts leaf fuel r.1 = Some (r.1, [])
                      ∧ geom_hasEmptyParts leaf r.1 = Some false) rs)
    as (rs & Hrs & Hstable).
  { assert (Forall (fun e => Some e ∈ papoGeoms c) es) as Hin.
    { apply Forall_forall. intros e He. rewrite Ha.
      apply elem_of_app. left. apply list_elem_of_fmap. eauto. }
    clear Ha Hlen. induction Hes as [| e es He Hes IHes].
    - exists []. split; constructor.
    - apply Forall_cons in Hin as [Hine Hin].
      destruct IHes as (rs & Hrs & Hst); [done |].
      destruct (IH e He) as (e' & d & Hrec & Hwf' & Hfix & Hparts).
      { pose proof (depth_elem c e Hine). lia. }
      exists ((e', d) :: rs). split; constructor; auto.
      exists e. repeat split; [done |].
      by apply geom_IsEmpty_total. }
  destruct (removeEmptyParts_loop_spec
              (geom_removeEmptyParts leaf fuel) (Some <$> es) rs c []
              rest [] Hrs)
    as (tail' & d & Hloop).
  { by rewrite Ha. }
  { rewrite length_fmap. simpl. lia. }
  rewrite length_fmap, app_nil_r in Hloop.
  set (survivors :=
         filter (fun e' => geom_IsEmpty leaf e' = Some false) rs.*1)
    in *.
  assert (Forall (fun e =>
                    wf_geom e = true ∧
                    geom_removeEmptyParts leaf fuel e = Some (e, [])
                    ∧ geom_hasEmptyParts leaf e = Some false
                    ∧ geom_IsEmpty leaf e = Some false) survivors)
    as Hsurv.
  { apply Forall_forall. intros e He.
    apply list_elem_of_filter in He as [Hne He].
    apply list_elem_of_fmap in He as ([e0 d0] & -> & He).
    rewrite Forall_forall in Hstable.
    destruct (Hstable _ He) as (? & ? & ?). done. }
  eexists. exists d, rs. unfold removeEmptyParts at 1.
  rewrite <- Hlen, Hloop. split; [reflexivity |].
  split; [| split; [| split; [| split]]].
  - unfold wf_collection. simpl. rewrite Nat2Z.id.
    destruct (Z.leb_spec 0 (Z.of_nat (length survivors))); [| lia].
    apply wf_slots_intro. eapply Forall_impl; [exact Hsurv |].
    by intros e (? & _).
  - unfold removeEmptyParts. cbn [nGeomCount]. rewrite Nat2Z.id.
    rewrite (removeEmptyParts_loop_stable
               (geom_removeEmptyParts leaf fuel) _ survivors tail');
      [done | done | | done].
    eapply Forall_impl; [exact Hsurv |]. by intros e (? & ? & ? & ?).
  - unfold hasEmptyParts.
    cbn [geom_hasEmptyParts nGeomCount papoGeoms]. rewrite Nat2Z.id.
    destruct (Z.ltb_spec (Z.of_nat (length survivors)) 0); [lia |].
    rewrite range_for_list, hasEmptyParts_loop; [done |].
    eapply Forall_impl; [exact Hsurv |]. by intros e (? & ? & ? & ?).
  - rewrite (stored_app c es rest Ha Hlen).
    eapply Forall2_impl; [exact Hrs |].
    intros s r (e & -> & Hrec & _). eauto.
  - unfold stored. cbn [nGeomCount papoGeoms]. rewrite Nat2Z.id.
    rewrite take_app_length'; [done |]. by rewrite length_fmap.
Qed.

Lemma geom_removeEmptyParts_spec (fuel : nat) :
  ∀ g : Geometry,
    wf_geom g = true → (depth g ≤ fuel)%nat →
    ∃ g' d,
      geom_removeEmptyParts leaf fuel g = Some (g', d) ∧
      wf_geom g' = true ∧
      geom_removeEmptyParts leaf fuel g' = Some (g', []) ∧
      geom_hasEmptyParts leaf g' = Some false.
Proof.
  induction fuel as [| fuel IH]; intros [l | c] Hwf Hdepth;
    try (simpl in Hdepth; lia).
  - exists (Leaf (leaf_removeEmptyParts leaf l)), []. simpl.
    by rewrite leaf_strip_idempotent, leaf_strip_complete.
  - exists (Leaf (leaf_removeEmptyParts leaf l)), []. simpl.
    by rewrite leaf_strip_idempotent, leaf_strip_complete.
  - destruct (removeEmptyParts_collection fuel c IH Hwf Hdepth)
      as (c1 & d1 & rs & Hrun & Hwf1 & Hagain & Hparts & _).
    exists (Collection c1), d1. cbn [geom_removeEmptyParts].
    unfold removeEmptyParts in Hrun, Hagain. rewrite Hrun, Hagain.
    done.
Qed.

(** C7. For every well-formed collection, given enough fuel for its
    depth, [removeEmptyParts()] returns; applied to its own result it
    returns that result again and destroys nothing, and
    [hasEmptyParts()] is false on the result.  The result holds, in
    order, what the virtual [removeEmptyParts] made of each element,
    without those that are empty afterwards. *)
Theorem removeEmptyParts_idempotent (fuel : nat) (c : GeometryCollection) :
  wf_collection c = true →
  (depth (Collection c) ≤ S fuel)%nat →
  ∃ c1 d1 rs,
    removeEmptyParts leaf fuel c = Some (c1, d1) ∧
    removeEmptyParts leaf fuel c1 = Some (c1, []) ∧
    hasEmptyParts leaf c1 = Some false ∧
    Forall2 (fun s r =>
               ∃ e, s = Some e
                    ∧ geom_removeEmptyParts leaf fuel e = Some r)
      (stored c) rs ∧
    stored c1
    = Some <$> filter (fun e' => geom_IsEmpty leaf e' = Some false) rs.*1.
Proof.
  intros Hwf Hdepth.
  destruct (removeEmptyParts_collection fuel c
              (geom_removeEmptyParts_spec fuel) Hwf Hdepth)
    as (c1 & d1 & rs & Hrun & _ & Hagain & Hparts & Hrs & Hst).
  exists c1, d1, rs. done.
Qed.
End RemoveEmptyParts.

(** * Further properties *)

(** ** Removal *)

Lemma stored_split (c : GeometryCollection)
  (pre mid tail : list (option Geometry)) (s : option Geometry) :
  papoGeoms c = pre ++ s :: mid ++ tail →
  nGeomCount c = Z.of_nat (length pre + 1 + length mid) →
  stored c = pre ++ s :: mid.
Proof.
  intros Ha Hn. unfold stored. rewrite Ha, Hn, Nat2Z.id.
  replace (length pre + 1 + length mid)%nat
    with (length pre + S (length mid))%nat by lia.
  rewrite take_app_add. simpl. by rewrite take_app_length.
Qed.

Lemma stored_after_remove (c : GeometryCollection)
  (pre mid tail : list (option Geometry)) :
  papoGeoms c = pre ++ mid ++ tail →
  nGeomCount c = Z.of_nat (length pre + length mid) →
  stored c = pre ++ mid.
Proof.
  intros Ha Hn. unfold stored. rewrite Ha, Hn, Nat2Z.id.
  by rewrite take_app_add, take_app_length.
Qed.

(** X1. [removeGeometry] with an index below -1 or not below the count
    returns OGRERR_FAILURE and changes and destroys nothing.  With an index
    of the stored range it returns OGRERR_NONE, the count drops by one, the
    stored range is the old one without that index, and the object of that
    slot is destroyed exactly when [bDelete] is set. *)
Theorem removeGeometry_spec (c : GeometryCollection) (iGeom : Z)
  (bDelete : bool) :
  (iGeom < -1 ∨ nGeomCount c ≤ iGeom →
   removeGeometry c iGeom bDelete = Some (OGRERR_FAILURE, c, [])) ∧
  (0 ≤ iGeom < nGeomCount c →
   nGeomCount c ≤ Z.of_nat (length (papoGeoms c)) →
   ∃ p c',
     stored c !! Z.to_nat iGeom = Some p ∧
     removeGeometry c iGeom bDelete
     = Some (OGRERR_NONE, c', if bDelete then delete p else []) ∧
     nGeomCount c' = nGeomCount c - 1 ∧
     stored c' = stdpp.base.delete (Z.to_nat iGeom) (stored c) ∧
     vptr c' = vptr c ∧ flags c' = flags c ∧ poSRS c' = poSRS c).
Proof.
  split.
  - intros H. unfold removeGeometry.
    destruct (Z.ltb_spec iGeom (-1)); [done |].
    destruct (Z.geb_spec iGeom (nGeomCount c)); [done | lia].
  - intros Hi Hlen.
    destruct (array_split (papoGeoms c) (Z.to_nat iGeom)
                (Z.to_nat (nGeomCount c)))
      as (pre & s & mid & tail & Ha & Hpre & Hmid); [lia |].
    assert (iGeom = Z.of_nat (length pre)) as -> by lia.
    rewrite Nat2Z.id in *. clear Hpre.
    assert (nGeomCount c = Z.of_nat (length pre + 1 + length mid)) as Hn
        by lia.
    exists s. eexists. split.
    { rewrite (stored_split c pre mid tail s Ha Hn).
      by apply list_lookup_middle. }
    rewrite removeGeometry_index by lia.
    rewrite (removeGeometry_at_split c pre mid tail s bDelete Ha Hn).
    split; [reflexivity |]. simpl. split; [lia |]. split; [| done].
    rewrite (stored_split c pre mid tail s Ha Hn).
    rewrite (stored_after_remove _ pre mid
               (drop (length mid) (s :: mid ++ tail))); [| done | simpl; lia].
    rewrite delete_take_drop, take_app_length.
    replace (S (length pre)) with (length pre + 1)%nat by lia.
    by rewrite drop_app_add.
Qed.

(** Removing the last stored slot moves nothing: the array is as it was. *)
Lemma removeGeometry_at_last (c : GeometryCollection) (bDelete : bool) :
  0 < nGeomCount c →
  nGeomCount c ≤ Z.of_nat (length (papoGeoms c)) →
  ∃ p,
    papoGeoms c !! Z.to_nat (nGeomCount c - 1) = Some p ∧
    removeGeometry_at c (nGeomCount c - 1) bDelete
    = Some (OGRERR_NONE, set_nGeomCount c (nGeomCount c - 1),
            if bDelete then delete p else []).
Proof.
  intros Hpos Hlen.
  destruct (array_split (papoGeoms c) (Z.to_nat (nGeomCount c - 1))
              (Z.to_nat (nGeomCount c)))
    as (pre & s & mid & tail & Ha & Hpre & Hmid); [lia |].
  assert (mid = []) as -> by (apply length_zero_iff_nil; lia).
  simpl in Ha. exists s. split.
  { rewrite Ha, <- Hpre. by apply list_lookup_middle. }
  replace (nGeomCount c - 1) with (Z.of_nat (length pre)) at 1 by lia.
  rewrite (removeGeometry_at_split c pre [] tail s bDelete); [| done | simpl; lia].
  simpl. rewrite <- Ha, set_papoGeoms_id. done.
Qed.

Lemma removeGeometry_all_spec (bDelete : bool) (k : nat) :
  ∀ (c : GeometryCollection) (dels : list Geometry),
    nGeomCount c = Z.of_nat k →
    (k ≤ length (papoGeoms c))%nat →
    removeGeometry_all k c bDelete dels
    = Some (set_nGeomCount c 0,
            dels ++ if bDelete
                    then concat (delete <$> reverse (take k (papoGeoms c)))
                    else []).
Proof.
  induction k as [| k IH]; intros c dels Hn Hlen.
  - destruct c; simpl in *; subst.
    by destruct bDelete; rewrite app_nil_r.
  - cbn [removeGeometry_all].
    destruct (Z.gtb_spec (nGeomCount c) 0) as [_ | ?]; [| lia].
    destruct (removeGeometry_at_last c bDelete) as (p & Hp & ->); [lia .. |].
    rewrite (IH (set_nGeomCount c (nGeomCount c - 1)));
      [| simpl; lia | simpl; lia].
    simpl. f_equal. f_equal.
    replace (Z.to_nat (nGeomCount c - 1)) with k in Hp by lia.
    rewrite (take_S_r _ _ _ Hp), reverse_snoc.
    destruct bDelete; [| by rewrite app_nil_r].
    by rewrite <- app_assoc, fmap_cons.
Qed.

(** X2. [removeGeometry(-1, bDelete)] on a collection whose count fits its
    array returns OGRERR_NONE with a count of zero.  With [bDelete] every
    pointer of the stored range is deleted exactly once, the last one
    first; without it nothing is destroyed.  The array is not freed. *)
Theorem removeGeometry_all_elements (c : GeometryCollection)
  (bDelete : bool) :
  0 ≤ nGeomCount c →
  nGeomCount c ≤ Z.of_nat (length (papoGeoms c)) →
  removeGeometry c (-1) bDelete
  = Some (OGRERR_NONE, set_nGeomCount c 0,
          if bDelete then concat (delete <$> reverse (stored c)) else []) ∧
  stored (set_nGeomCount c 0) = [].
Proof.
  intros Hn Hlen. split; [| done]. unfold removeGeometry.
  destruct (Z.ltb_spec (-1) (-1)) as [? | _]; [lia |].
  destruct (Z.geb_spec (-1) (nGeomCount c)) as [? | _]; [lia |]. simpl.
  rewrite (removeGeometry_all_spec bDelete (Z.to_nat (nGeomCount c)));
    [done | lia | lia].
Qed.

(** ** Insertion, emptying and copying *)

(** X3. [addGeometryDirectly] succeeds exactly when the policy accepts the
    type tag, the count is not at its limit and the reallocation succeeds.
    Then, for a count that fits the array, the count is one more, the
    array has exactly that many slots, the stored range is the one of the
    homogenized collection followed by the homogenized element, and the
    result is well formed when both are.  At the limit the call fails and
    changes nothing. *)
Theorem addGeometryDirectly_appends (this this1 : GeometryCollection)
  (poNewGeom poNewGeom1 : Geometry) :
  let limit :=
    if SIZEOF_VOIDP alloc <? 8 then INT_MAX `quot` SIZEOF_VOIDP alloc
    else INT_MAX in
  let accepted :=
    isCompatibleSubType derived this
      (geom_getGeometryType leaf derived poNewGeom) = true
    ∧ nGeomCount this ≠ limit
    ∧ VSI_REALLOC_VERBOSE alloc (nGeomCount this1 + 1) = true in
  HomogenizeDimensionalityWith base this poNewGeom = (this1, poNewGeom1) →
  ((addGeometryDirectly leaf derived alloc base this poNewGeom).1.1
   = OGRERR_NONE ↔ accepted) ∧
  (isCompatibleSubType derived this
     (geom_getGeometryType leaf derived poNewGeom) = true →
   nGeomCount this = limit →
   addGeometryDirectly leaf derived alloc base this poNewGeom
   = (OGRERR_FAILURE, this, poNewGeom)) ∧
  (accepted →
   0 ≤ nGeomCount this1 ≤ Z.of_nat (length (papoGeoms this1)) →
   ∃ c',
     addGeometryDirectly leaf derived alloc base this poNewGeom
     = (OGRERR_NONE, c', poNewGeom1) ∧
     nGeomCount c' = nGeomCount this1 + 1 ∧
     Z.of_nat (length (papoGeoms c')) = nGeomCount c' ∧
     stored c' = stored this1 ++ [Some poNewGeom1] ∧
     vptr c' = vptr this1 ∧ flags c' = flags this1 ∧
     poSRS c' = poSRS this1 ∧
     (wf_collection this1 = true → wf_geom poNewGeom1 = true →
      wf_collection c' = true)).
Proof.
  intros limit accepted Hh. subst accepted. unfold addGeometryDirectly.
  fold limit. rewrite Hh. split; [| split].
  - destruct (isCompatibleSubType _ _ _); simpl;
      [| split; [done | by intros [? _]]].
    destruct (Z.eqb_spec (nGeomCount this) limit); simpl;
      [split; [done | by intros (_ & ? & _)] |].
    destruct (VSI_REALLOC_VERBOSE _ _); simpl;
      [by split | split; [done | by intros (_ & _ & ?)]].
  - intros -> ->. by rewrite Z.eqb_refl.
  - intros (-> & Hl & ->) Hn. simpl.
    destruct (Z.eqb_spec (nGeomCount this) limit) as [? | _]; [done |].
    eexists. split; [reflexivity |]. simpl.
    assert (resize (Z.to_nat (nGeomCount this1)) None (papoGeoms this1)
            = stored this1) as Hres.
    { unfold stored. apply resize_le. lia. }
    rewrite Hres.
    assert (length (stored this1) = Z.to_nat (nGeomCount this1)) as Hlen.
    { unfold stored. rewrite length_take. lia. }
    split; [done |]. split; [rewrite length_app; simpl; lia |].
    split.
    { unfold stored at 1. simpl.
      replace (Z.to_nat (nGeomCount this1 + 1))
        with (length (stored this1 ++ [Some poNewGeom1])).
      - apply firstn_all.
      - rewrite length_app. simpl. lia. }
    repeat (split; [done |]).
    intros Hwf Hg.
    destruct (wf_collection_inv this1 Hwf)
      as (_ & es & rest & Ha & Hes & Hall).
    rewrite (stored_app this1 es rest Ha Hes).
    unfold wf_collection. simpl.
    destruct (Z.leb_spec 0 (nGeomCount this1 + 1)) as [_ | ?]; [| lia].
    simpl.
    replace ((Some <$> es) ++ [Some poNewGeom1])
      with ((Some <$> (es ++ [poNewGeom1])) ++ [])
      by (by rewrite fmap_app, app_nil_r).
    replace (Z.to_nat (nGeomCount this1 + 1))
      with (length (es ++ [poNewGeom1]))
      by (rewrite length_app; simpl; lia).
    apply wf_slots_intro. apply Forall_app. split; [done |].
    by constructor.
Qed.

(** X4. After a successful [addGeometryDirectly], stealing the last
    element gives back the very element that was stored and destroys
    nothing; the count and the stored range are those from before the
    element was appended. *)
Theorem stealGeometry_after_addGeometryDirectly
  (this c' : GeometryCollection) (poNewGeom g' : Geometry) :
  addGeometryDirectly leaf derived alloc base this poNewGeom
  = (OGRERR_NONE, c', g') →
  1 ≤ nGeomCount c' →
  ∃ c'',
    stealGeometry c' (nGeomCount c' - 1) = Some (Some g', c'', []) ∧
    nGeomCount c'' = nGeomCount c' - 1 ∧
    stored c' = stored c'' ++ [Some g'] ∧
    (HomogenizeDimensionalityWith base this poNewGeom = (this, poNewGeom) →
     nGeomCount this ≤ Z.of_nat (length (papoGeoms this)) →
     g' = poNewGeom ∧ nGeomCount c'' = nGeomCount this ∧
     stored c'' = stored this).
Proof.
  unfold addGeometryDirectly.
  destruct (isCompatibleSubType _ _ _); simpl; [| done].
  destruct (nGeomCount this =? _); [done |].
  destruct (HomogenizeDimensionalityWith base this poNewGeom)
    as [this1 g1] eqn:Hh.
  destruct (VSI_REALLOC_VERBOSE _ _); simpl; [| done].
  intros [= <- <-]. simpl. intros Hn.
  set (pre := resize (Z.to_nat (nGeomCount this1)) None (papoGeoms this1)).
  assert (length pre = Z.to_nat (nGeomCount this1)) as Hpre
      by apply length_resize.
  replace (nGeomCount this1 + 1 - 1) with (Z.of_nat (length pre)) by lia.
  unfold stealGeometry. simpl.
  destruct (Z.ltb_spec (Z.of_nat (length pre)) 0) as [? | _]; [lia |].
  destruct (Z.geb_spec (Z.of_nat (length pre)) (nGeomCount this1 + 1))
    as [? | _]; [lia |]. simpl.
  rewrite Nat2Z.id, list_lookup_middle by done.
  rewrite removeGeometry_index by (simpl; lia).
  rewrite (removeGeometry_at_split _ pre [] [] None true).
  - eexists. split; [reflexivity |]. simpl. split; [lia |].
    assert (∀ x : option Geometry,
              take (Z.to_nat (nGeomCount this1)) (pre ++ [x]) = pre) as Htake.
    { intros x. rewrite <- Hpre. apply take_app_length. }
    assert (∀ n x, n = Z.to_nat (nGeomCount this1 + 1) →
                   take n (pre ++ [x : option Geometry]) = pre ++ [x])
      as Hall.
    { intros n x ->. apply firstn_all2. rewrite length_app. simpl. lia. }
    split.
    { unfold stored. simpl.
      replace (Z.to_nat (nGeomCount this1 + 1 - 1))
        with (Z.to_nat (nGeomCount this1)) by lia.
      by rewrite Htake, Hall. }
    intros [= Ht Hg] Hlen. rewrite <- Ht, <- Hg.
    split; [done |]. split; [lia |].
    unfold stored. simpl.
    replace (Z.to_nat (nGeomCount this1 + 1 - 1))
      with (Z.to_nat (nGeomCount this1)) by lia.
    rewrite Htake. apply resize_le. rewrite Ht. lia.
  - simpl. rewrite insert_app_r_alt by lia. by rewrite Nat.sub_diag.
  - simpl. lia.
Qed.

(** X5. [empty()] on a collection whose count fits its array leaves a
    count of zero and a null array, keeps class, flags and spatial
    reference, and destroys exactly the objects the stored range pointed
    to, each once and in order.  Afterwards the collection is empty, its
    binary size is the 9 bytes of the header, and every index is out of
    range. *)
Theorem empty_spec (c : GeometryCollection) :
  0 ≤ nGeomCount c ≤ Z.of_nat (length (papoGeoms c)) →
  let c' := mkGC (vptr c) (flags c) (poSRS c) 0 [] in
  empty c = Some (c', omap id (stored c)) ∧
  IsEmpty leaf c' = Some true ∧
  WkbSize leaf c' = Some 9 ∧
  ∀ i, getGeometryRef c' i = Some None.
Proof.
  intros Hn c'. split; [| split; [done | split; [done |]]].
  - unfold empty, stored.
    destruct (papoGeoms c) as [| s a] eqn:Ha.
    + unfold set_nGeomCount. rewrite Ha. by rewrite take_nil.
    + rewrite <- Ha in *.
      destruct (Z.ltb_spec (nGeomCount c) 0) as [? | _]; [lia |].
      destruct (Z.ltb_spec (Z.of_nat (length (papoGeoms c))) (nGeomCount c))
        as [? | _]; [lia |]. simpl. f_equal. f_equal.
      generalize (take (Z.to_nat (nGeomCount c)) (papoGeoms c)).
      intros l. induction l as [| [e |] l IH]; [done | |];
        rewrite fmap_cons; simpl; [f_equal |]; exact IH.
  - intros i. unfold getGeometryRef. simpl.
    destruct (Z.ltb_spec i 0); [done |].
    destruct (Z.geb_spec i 0); [done | lia].
Qed.

Lemma clone_for_Forall2 {G : Type} (clone : G → option (option G))
  (es : list G) (rest : list (option G)) (ps : list (option G)) :
  Forall2 (fun e p => clone e = Some p) es ps →
  clone_for clone ((Some <$> es) ++ rest) (length es) = Some ps.
Proof.
  induction 1 as [| e p es ps He _ IH]; simpl.
  - by destruct rest.
  - rewrite He.
    change (list_fmap G (option G) Some es) with (Some <$> es).
    by rewrite IH.
Qed.

Lemma geom_clone_total (g : Geometry) :
  wf_geom g = true → ∃ p, geom_clone leaf alloc g = Some p.
Proof.
  induction g as [l | c IH] using OGRGeometry_ind; intros Hwf; simpl;
    [eauto |].
  destruct (new_nothrow alloc c); [| eauto].
  unfold copy_construct.
  destruct (VSI_CALLOC_VERBOSE alloc (nGeomCount c)); [| eauto].
  destruct (wf_collection_inv c Hwf) as (Hn & es & rest & Ha & Hlen & Hes).
  rewrite Ha in IH. apply Forall_slots_elems in IH.
  assert (∃ ps, Forall2 (fun e p => geom_clone leaf alloc e = Some p) es ps)
    as [ps Hps].
  { clear Ha Hlen. induction es as [| e es IHes]; [by exists [] |].
    inversion IH; subst. inversion Hes; subst.
    destruct IHes as [ps Hps]; [done .. |].
    destruct (H1 H3) as [p Hp]. exists (p :: ps). by constructor. }
  rewrite Ha, <- Hlen, (clone_for_Forall2 _ es rest ps Hps). eauto.
Qed.

Lemma clone_slots (c : GeometryCollection) :
  wf_collection c = true →
  ∃ ps,
    clone_for (geom_clone leaf alloc) (papoGeoms c)
      (Z.to_nat (nGeomCount c)) = Some ps ∧
    Forall2 (fun s p => ∃ e, s = Some e ∧ wf_geom e = true
                             ∧ geom_clone leaf alloc e = Some p)
      (stored c) ps.
Proof.
  intros Hwf.
  destruct (wf_collection_inv c Hwf) as (Hn & es & rest & Ha & Hlen & Hes).
  rewrite (stored_app c es rest Ha Hlen), Ha, <- Hlen. clear Ha Hlen.
  assert (∃ ps, Forall2 (fun e p => wf_geom e = true
                                    ∧ geom_clone leaf alloc e = Some p) es ps)
    as [ps Hps].
  { induction Hes as [| e es He _ [ps Hps]]; [by exists [] |].
    destruct (geom_clone_total e He) as [p Hp].
    exists (p :: ps). by constructor. }
  exists ps. split.
  - apply clone_for_Forall2.
    eapply Forall2_impl; [exact Hps | by intros ? ? [_ ?]].
  - apply Forall2_fmap_l.
    eapply Forall2_impl; [exact Hps | intros e p [? ?]; eauto].
Qed.

(** X6. [clone()] of a well-formed collection returns.  When [new] fails
    the result is null.  When the array cannot be allocated the result is
    an empty collection of the same class, flags and spatial reference.
    Otherwise the copy has the same class, flags, spatial reference and
    count, and its slot [i] holds what [clone()] of element [i] returned,
    a null pointer when that clone failed. *)
Theorem clone_deep_copy (c : GeometryCollection) :
  wf_collection c = true →
  (new_nothrow alloc c = false →
   geom_clone leaf alloc (Collection c) = Some None) ∧
  (new_nothrow alloc c = true →
   VSI_CALLOC_VERBOSE alloc (nGeomCount c) = false →
   geom_clone leaf alloc (Collection c)
   = Some (Some (Collection (mkGC (vptr c) (flags c) (poSRS c) 0 [])))) ∧
  (new_nothrow alloc c = true →
   VSI_CALLOC_VERBOSE alloc (nGeomCount c) = true →
   ∃ ps,
     geom_clone leaf alloc (Collection c)
     = Some (Some (Collection
                     (mkGC (vptr c) (flags c) (poSRS c) (nGeomCount c) ps))) ∧
     Forall2 (fun s p => ∃ e, s = Some e ∧ wf_geom e = true
                              ∧ geom_clone leaf alloc e = Some p)
       (stored c) ps).
Proof.
  intros Hwf. simpl. unfold copy_construct. split; [| split].
  - by intros ->.
  - by intros -> ->.
  - intros -> ->. destruct (clone_slots c Hwf) as (ps & -> & Hps).
    by exists ps.
Qed.

Lemma accept_loop (this : GeometryCollection) (es : list Geometry) :
  Forall (fun e => isCompatibleSubType derived this
                     (geom_getGeometryType leaf derived e) = true) es →
  for_list
    (fun poOtherSubGeom (_ : unit) =>
       if isCompatibleSubType derived this
            (geom_getGeometryType leaf derived poOtherSubGeom)
       then Some (Next tt)
       else Some (Return (A := unit) tt)) es tt
  = Some (Next tt).
Proof.
  induction 1 as [| e es He _ IH]; simpl; [done |]. by rewrite He.
Qed.

(** X7. [operator=] from a distinct well-formed source calls
    [OGRGeometry::operator=] first and keeps what that call did.  When the
    destination's policy rejects an element of the source, the destination
    is returned as the base operator left it.  When it accepts every
    element and the array is allocated, the destination gets the count of
    the source and, slot by slot, the clones of its elements; when the
    allocation fails the array is null and the count is the one the base
    operator left, so the destination is well formed if that operator
    emptied it.  Nothing is destroyed but what the base operator
    destroyed, and the class of the destination does not change. *)
Theorem operator_assign_accepted (this other : GeometryCollection) :
  wf_collection other = true →
  let this1 := (base_assigned base this other).1 in
  let d := (base_assigned base this other).2 in
  ((∃ e, Some e ∈ stored other ∧
         isCompatibleSubType derived this
           (geom_getGeometryType leaf derived e) = false) →
   operator_assign leaf derived alloc base this other false
   = Some (this1, d)) ∧
  ((∀ e, Some e ∈ stored other →
         isCompatibleSubType derived this
           (geom_getGeometryType leaf derived e) = true) →
   (VSI_CALLOC_VERBOSE alloc (nGeomCount other) = false →
    operator_assign leaf derived alloc base this other false
    = Some (mkGC (vptr this) (flags this1) (poSRS this1)
              (nGeomCount this1) [], d) ∧
    (nGeomCount this1 = 0 →
     wf_collection
       (mkGC (vptr this) (flags this1) (poSRS this1) (nGeomCount this1) []
        : GeometryCollection)
     = true)) ∧
   (VSI_CALLOC_VERBOSE alloc (nGeomCount other) = true →
    ∃ ps,
      operator_assign leaf derived alloc base this other false
      = Some (mkGC (vptr this) (flags this1) (poSRS this1)
                (nGeomCount other) ps, d) ∧
      Forall2 (fun s p => ∃ e, s = Some e ∧ wf_geom e = true
                               ∧ geom_clone leaf alloc e = Some p)
        (stored other) ps)).
Proof.
  intros Hwf this1 d.
  destruct (wf_collection_inv other Hwf) as (Hn & es & rest & Ha & Hlen & _).
  assert (vptr this1 = vptr this) as Hv.
  { subst this1. unfold base_assigned.
    by destruct (OGRGeometry_assign base this other). }
  assert (∀ e, isCompatibleSubType derived this1
                 (geom_getGeometryType leaf derived e)
               = isCompatibleSubType derived this
                   (geom_getGeometryType leaf derived e)) as Hpolicy.
  { intros e. unfold isCompatibleSubType. by rewrite Hv. }
  assert (operator_assign leaf derived alloc base this other false
          = match
              for_list
                (fun poOtherSubGeom (_ : unit) =>
                   if isCompatibleSubType derived this1
                        (geom_getGeometryType leaf derived poOtherSubGeom)
                   then Some (Next tt)
                   else Some (Return (A := unit) tt)) es tt
            with
            | None => None
            | Some (Return _) => Some (this1, d)
            | Some (Next _) =>
                if VSI_CALLOC_VERBOSE alloc (nGeomCount other) then
                  match
                    clone_for (geom_clone leaf alloc) (papoGeoms other)
                      (Z.to_nat (nGeomCount other))
                  with
                  | Some a =>
                      Some (set_papoGeoms
                              (set_nGeomCount this1 (nGeomCount other)) a, d)
                  | None => None
                  end
                else Some (set_papoGeoms this1 [], d)
            end) as Hrun.
  { unfold operator_assign. subst this1 d.
    destruct (base_assigned base this other) as [t dd]. cbn [fst snd].
    unfold for_geoms.
    destruct (Z.ltb_spec (nGeomCount other) 0) as [? | _]; [lia |].
    by rewrite Ha, <- Hlen, range_for_list. }
  rewrite (stored_app other es rest Ha Hlen). split.
  - intros (e & He & Hrej).
    apply list_elem_of_fmap_1 in He as (e' & [= <-] & He).
    rewrite Hrun, (reject_loop this1); [done |].
    apply Exists_exists. exists e. split; [done |]. by rewrite Hpolicy.
  - intros Hacc.
    rewrite Hrun, (accept_loop this1).
    2:{ apply Forall_forall. intros e He. rewrite Hpolicy.
        apply Hacc. by apply list_elem_of_fmap_2. }
    split.
    + intros ->. unfold set_papoGeoms. rewrite Hv. split; [done |].
      intros H0. unfold wf_collection. simpl. by rewrite H0.
    + intros ->. destruct (clone_slots other Hwf) as (ps & -> & Hps).
      exists ps. unfold set_papoGeoms, set_nGeomCount. simpl.
      rewrite Hv. split; [done |].
      by rewrite <- (stored_app other es rest Ha Hlen).
Qed.

(** ** Empty parts *)

Lemma hasEmptyParts_loop_inv (es : list Geometry) (r : step unit bool) :
  for_list
    (fun e (_ : unit) =>
       match geom_IsEmpty leaf e with
       | Some true => Some (Return true)
       | Some false =>
           match geom_hasEmptyParts leaf e with
           | Some true => Some (Return true)
           | Some false => Some (Next tt)
           | None => None
           end
       | None => None
       end) es tt
  = Some r →
  r = Return true ∨
  (r = Next tt ∧
   Forall (fun e => geom_IsEmpty leaf e = Some false
                    ∧ geom_hasEmptyParts leaf e = Some false) es).
Proof.
  induction es as [| e es IH]; simpl.
  - intros [= <-]. by right.
  - destruct (geom_IsEmpty leaf e) as [[] |] eqn:He; [| | done].
    { intros [= <-]. by left. }
    destruct (geom_hasEmptyParts leaf e) as [[] |] eqn:Hp; [| | done].
    { intros [= <-]. by left. }
    intros Hr. destruct (IH Hr) as [? | [? ?]]; [by left |].
    right. split; [done |]. by constructor.
Qed.

Lemma hasEmptyParts_false_inv (c : GeometryCollection) :
  wf_collection c = true →
  hasEmptyParts leaf c = Some false →
  ∃ es rest,
    papoGeoms c = (Some <$> es) ++ rest ∧
    length es = Z.to_nat (nGeomCount c) ∧
    Forall (fun e => wf_geom e = true
                     ∧ geom_IsEmpty leaf e = Some false
                     ∧ geom_hasEmptyParts leaf e = Some false) es.
Proof.
  intros Hwf Hparts.
  destruct (wf_collection_inv c Hwf) as (Hn & es & rest & Ha & Hlen & Hes).
  exists es, rest. split; [done |]. split; [done |].
  unfold hasEmptyParts in Hparts. simpl in Hparts.
  destruct (Z.ltb_spec (nGeomCount c) 0) as [? | _]; [lia |].
  rewrite Ha, <- Hlen, range_for_list in Hparts.
  match type of Hparts with
  | match ?l with _ => _ end = _ => destruct l as [r |] eqn:Hloop
  end; [| done].
  destruct (hasEmptyParts_loop_inv es r Hloop) as [-> | [-> Hall]];
    [done |].
  apply Forall_forall. intros e He.
  rewrite Forall_forall in Hes, Hall.
  destruct (Hall e He). auto.
Qed.

(** X8. A well-formed collection on which [hasEmptyParts()] is false is a
    fixed point of [removeEmptyParts()]: given fuel for its depth the call
    returns the collection unchanged and destroys nothing, provided
    stripping a leaf without empty parts does not change the leaf. *)
Theorem removeEmptyParts_without_empty_parts (fuel : nat)
  (c : GeometryCollection) :
  (∀ l, leaf_hasEmptyParts leaf l = false →
        leaf_removeEmptyParts leaf l = l) →
  wf_collection c = true →
  (depth (Collection c) ≤ S fuel)%nat →
  hasEmptyParts leaf c = Some false →
  removeEmptyParts leaf fuel c = Some (c, []).
Proof.
  intros Hleaf.
  assert (∀ fuel (g : Geometry),
            wf_geom g = true → (depth g ≤ fuel)%nat →
            geom_hasEmptyParts leaf g = Some false →
            geom_removeEmptyParts leaf fuel g = Some (g, [])) as Hgeom.
  { clear fuel c. intros fuel.
    induction fuel as [| fuel IH]; intros [l | c] Hwf Hd Hp.
    - simpl in *. injection Hp as Hp. by rewrite Hleaf.
    - simpl in Hd. lia.
    - simpl in *. injection Hp as Hp. by rewrite Hleaf.
    - cbn [geom_removeEmptyParts].
      destruct (hasEmptyParts_false_inv c Hwf Hp)
        as (es & rest & Ha & Hlen & Hall).
      rewrite (removeEmptyParts_loop_stable _ c es rest Ha);
        [done | | lia].
      apply Forall_forall. intros e He. rewrite Forall_forall in Hall.
      destruct (Hall e He) as (Hwe & Hie & Hpe). split; [| done].
      apply IH; [done | | done].
      assert (depth e < depth (Collection c))%nat; [| lia].
      apply depth_elem. rewrite Ha. apply elem_of_app. left.
      by apply list_elem_of_fmap_2. }
  intros Hwf Hd Hp.
  destruct (hasEmptyParts_false_inv c Hwf Hp)
    as (es & rest & Ha & Hlen & Hall).
  unfold removeEmptyParts.
  apply (removeEmptyParts_loop_stable _ c es rest Ha); [| lia].
  apply Forall_forall. intros e He. rewrite Forall_forall in Hall.
  destruct (Hall e He) as (Hwe & Hie & Hpe). split; [| done].
  apply Hgeom; [done | | done].
  assert (depth e < depth (Collection c))%nat; [| lia].
  apply depth_elem. rewrite Ha. apply elem_of_app. left.
  by apply list_elem_of_fmap_2.
Qed.

(** ** Import *)

Lemma importFromWkb_loop_well_formed
  (rec : GeometryCollection → list byte → Z → option (WkbResult))
  (eWkbVariant : OGRwkbVariant) :
  (∀ sub data size sub' n d,
     rec sub data size = Some (OGRERR_NONE, sub', n, d) →
     wf_collection sub' = true) →
  ∀ (todo : nat) (done : list Geometry) (this : GeometryCollection)
    (pabyData : list byte) (nSize nDataOffset : Z) (dels : list Geometry)
    (c : GeometryCollection) (n : Z) (d : list Geometry),
    papoGeoms this = (Some <$> done) ++ replicate todo None →
    Forall (fun e => wf_geom e = true) done →
    nGeomCount this = Z.of_nat (length done + todo) →
    importFromWkb_loop leaf derived wkbin rec todo (Z.of_nat (length done))
      this pabyData nSize nDataOffset eWkbVariant dels
    = Some (OGRERR_NONE, c, n, d) →
    wf_collection c = true ∧ nGeomCount c = nGeomCount this
    ∧ vptr c = vptr this.
Proof.
  intros Hrec todo.
  induction todo as [| todo IH];
    intros done this pabyData nSize nDataOffset dels c n d Ha Hdone Hn.
  - simpl. intros [= <- <- <-]. split; [| done].
    unfold wf_collection. simpl. rewrite Ha, Hn.
    destruct (Z.leb_spec 0 (Z.of_nat (length done + 0))) as [_ | ?];
      [| lia]. simpl.
    replace (Z.to_nat (Z.of_nat (length done + 0))) with (length done)
      by lia.
    by apply wf_slots_intro.
  - cbn [importFromWkb_loop].
    destruct ((nSize <? 9) && negb (nSize =? SIZE_MAX)); [done |].
    destruct (OGRReadWKBGeometryType wkbin _ _) as [eErr eSubGeomType].
    destruct (decide (eErr ≠ OGRERR_NONE)) as [? | _]; [by intros [= ? ?] |].
    destruct (negb (isCompatibleSubType derived this eSubGeomType));
      [done |].
    match goal with
    | |- match ?dec with _ => _ end = _ → _ =>
        destruct dec as [[[[eErr' poSubGeom] consumed] d'] |] eqn:Hdec
    end; [| done].
    destruct (decide (eErr' ≠ OGRERR_NONE)) as [? | He];
      [by intros [= ? ?] |].
    destruct poSubGeom as [g |]; [| done].
    assert (wf_geom g = true) as Hg.
    { revert Hdec.
      destruct (OGR_GT_IsSubClassOf wkbin eSubGeomType wkbGeometryCollection).
      - destruct (createGeometry wkbin eSubGeomType) as [[l | sub] |];
          [done | | by intros [= ? ? ? ?]; subst].
        destruct (rec sub _ nSize) as [[[[e sub'] k] ds] |] eqn:Hsub;
          [| done].
        intros [= -> <- _ _].
        eapply Hrec. rewrite Hsub. f_equal. f_equal. f_equal. f_equal.
        by destruct (decide (eErr' = OGRERR_NONE)) as [? | Hne];
          [| destruct He; exact Hne].
      - destruct (createFromWkb wkbin _ nSize eWkbVariant)
          as [[e poLeaf] k].
        destruct (decide (e = OGRERR_NONE)).
        + destruct poLeaf; [| done]. by intros [= _ <- _ _].
        + intros [= <- _ _ _]. by destruct He. }
    intros Hloop.
    set (this1 :=
           set_papoGeoms this
             (<[Z.to_nat (Z.of_nat (length done)) := Some g]>
                (papoGeoms this))) in Hloop.
    set (this2 :=
           if Is3D leaf g
           then set_flags this1 (Z.lor (flags this1) OGR_G_3D)
           else this1) in Hloop.
    set (this3 :=
           if IsMeasured leaf g
           then set_flags this2 (Z.lor (flags this2) OGR_G_MEASURED)
           else this2) in Hloop.
    assert (papoGeoms this3
            = (Some <$> (done ++ [g])) ++ replicate todo None
            ∧ nGeomCount this3 = nGeomCount this
            ∧ vptr this3 = vptr this) as (Ha3 & Hn3 & Hv3).
    { assert (papoGeoms this1
              = (Some <$> (done ++ [g])) ++ replicate todo None) as Ha1.
      { subst this1. simpl. rewrite Ha, Nat2Z.id.
        rewrite insert_app_r_alt by (rewrite length_fmap; lia).
        rewrite length_fmap, Nat.sub_diag. simpl.
        by rewrite fmap_app, <- app_assoc. }
      subst this3 this2.
      by destruct (IsMeasured leaf g), (Is3D leaf g). }
    replace (Z.of_nat (length done) + 1)
      with (Z.of_nat (length (done ++ [g]))) in Hloop
      by (rewrite length_app; simpl; lia).
    eapply (IH (done ++ [g]) this3) in Hloop; [| exact Ha3 | |].
    + destruct Hloop as (? & ? & ?). split; [done |]. split; congruence.
    + apply Forall_app. split; [done |]. by constructor.
    + rewrite Hn3, Hn, length_app. simpl. lia.
Qed.

(** X9. When [importFromWkb] returns OGRERR_NONE on a preamble that never
    reports a negative element count, the collection is well formed at
    every level of nesting: its count is the one the header declared and
    every slot of the stored range holds a decoded element. *)
Theorem importFromWkb_success_well_formed (this c : GeometryCollection)
  (pabyData : list byte) (nSize : Z) (eWkbVariant : OGRwkbVariant)
  (n : Z) (d : list Geometry) :
  (∀ t data size v,
     pre_eErr (importPreambleOfCollectionFromWkb wkbin t data size 9 v)
     = OGRERR_NONE →
     0 ≤ pre_nGeomCount
           (importPreambleOfCollectionFromWkb wkbin t data size 9 v)) →
  importFromWkb leaf derived alloc wkbin this pabyData nSize eWkbVariant
  = Some (OGRERR_NONE, c, n, d) →
  let pre :=
    importPreambleOfCollectionFromWkb wkbin this pabyData nSize 9
      eWkbVariant in
  wf_collection c = true ∧
  nGeomCount c = pre_nGeomCount pre ∧
  vptr c = vptr (pre_this pre) ∧
  length (stored c) = Z.to_nat (pre_nGeomCount pre).
Proof.
  intros Hpre Hrun pre.
  assert (∀ fuel this data size level c n d,
            importFromWkbInternal leaf derived alloc wkbin fuel this data
              size level eWkbVariant
            = Some (OGRERR_NONE, c, n, d) →
            let pre :=
              importPreambleOfCollectionFromWkb wkbin this data size 9
                eWkbVariant in
            wf_collection c = true ∧
            nGeomCount c = pre_nGeomCount pre ∧
            vptr c = vptr (pre_this pre)) as Hall.
  { clear this c pabyData nSize n d Hrun pre.
    intros fuel. induction fuel as [| fuel IH];
      intros this data size level c n d; [done |].
    cbn [importFromWkbInternal].
    destruct (level =? 32); [done |].
    set (pre := importPreambleOfCollectionFromWkb wkbin this data size 9
                  eWkbVariant).
    destruct (decide (pre_eErr pre ≠ OGRERR_NONE)) as [? | Hok];
      [by intros [= ? ?] |].
    assert (0 ≤ pre_nGeomCount pre) as Hcount.
    { apply Hpre. by destruct (decide (pre_eErr pre = OGRERR_NONE)). }
    cbn [nGeomCount set_nGeomCount].
    destruct (negb (pre_nGeomCount pre =? 0) && _) eqn:Hmem; [done |].
    intros Hloop. cbv zeta.
    eapply (importFromWkb_loop_well_formed _ eWkbVariant
              (fun sub data size sub' n d H => proj1 (IH _ _ _ _ _ _ _ H))
              (Z.to_nat (pre_nGeomCount pre)) []) in Hloop.
    - simpl in Hloop. done.
    - simpl. destruct (VSI_CALLOC_VERBOSE alloc (pre_nGeomCount pre));
        [done |].
      destruct (Z.eqb_spec (pre_nGeomCount pre) 0) as [-> | ?]; done.
    - constructor.
    - simpl. lia. }
  destruct (Hall _ _ _ _ _ _ _ _ Hrun) as (Hwf & Hn & Hv).
  split; [done |]. split; [done |]. split; [done |].
  destruct (wf_collection_inv c Hwf) as (_ & es & rest & Ha & Hlen & _).
  rewrite (stored_app c es rest Ha Hlen), length_fmap. by rewrite Hlen, Hn.
Qed.

Lemma importFromWkt_loop_failure
  (rec : GeometryCollection → string → option WktResult) (n : nat) :
  ∀ (this : GeometryCollection) (ppszInput pszInput : string)
    (dels : list Geometry) eErr c out d,
    importFromWkt_loop leaf derived alloc base wkt rec n this ppszInput
      pszInput dels = Some (eErr, c, out, d) →
    eErr ≠ OGRERR_NONE → out = ppszInput.
Proof.
  induction n as [| n IH]; intros this ppszInput pszInput dels eErr c out d;
    [done |].
  cbn [importFromWkt_loop].
  destruct (wkt_parse_element _ _ _) as [[[[e g] psz] d1] |]; [| done].
  destruct (wkt_accept _ _ _ _ _ _ _) as [[[e' this'] d2] |]; [| done].
  destruct (decide (e' ≠ OGRERR_NONE)); [by intros [= _ _ <- _] |].
  destruct (OGRWktReadToken wkt psz) as [szToken psz'].
  destruct (first_char_is szToken ","); [by apply IH |].
  destruct (negb (first_char_is szToken ")")); [by intros [= _ _ <- _] |].
  by intros [= <- _ _ _] ?.
Qed.

(** X10. When [importFromWkt] fails, the caller's text position is where
    the preamble left it, whatever number of elements had been read: the
    position is written past the elements only on success. *)
Theorem importFromWkt_failure_position (fuel : nat)
  (this c : GeometryCollection) (ppszInput out : string) (eErr : OGRErr)
  (d : list Geometry) :
  importFromWkt leaf derived alloc base wkt fuel this ppszInput
  = Some (eErr, c, out, d) →
  eErr ≠ OGRERR_NONE →
  out = wpre_input (importPreambleFromWkt wkt this ppszInput).
Proof.
  unfold importFromWkt. destruct fuel as [| fuel]; [done |].
  cbn [importFromWktInternal]. simpl (0 =? 32).
  cbv iota.
  destruct (decide (wpre_eErr _ ≠ OGRERR_NONE)); [by intros [= _ _ <- _] |].
  destruct (wpre_bIsEmpty _); [by intros [= <- _ _ _] ? |].
  apply importFromWkt_loop_failure.
Qed.

(** ** The bytes [exportToWkb] writes *)

Lemma poke_frame (buf : buffer) (off : Z) (b : byte) (q : Z) :
  q ≠ off → poke buf off b q = buf q.
Proof. intros ?. unfold poke. by destruct (decide (q = off)). Qed.

Lemma memcpy_frame (bytes : list byte) :
  ∀ (buf : buffer) (off q : Z),
    q < off ∨ off + Z.of_nat (length bytes) ≤ q →
    memcpy buf off bytes q = buf q.
Proof.
  induction bytes as [| b bytes IH]; intros buf off q Hq; simpl; [done |].
  rewrite IH by (simpl in Hq; lia).
  apply poke_frame. simpl in Hq. lia.
Qed.

Lemma wkb_fits_inv (c : GeometryCollection) :
  wkb_fits leaf (Collection c) = true →
  0 ≤ nGeomCount c ∧ 9 + sum_WkbSize leaf c < 2 ^ 64 ∧
  ∃ es rest, papoGeoms c = (Some <$> es) ++ rest
             ∧ length es = Z.to_nat (nGeomCount c)
             ∧ Forall (fun e => wkb_fits leaf e = true) es.
Proof.
  simpl. intros H.
  apply andb_prop in H as [H Hs]. apply andb_prop in H as [Hn Hb].
  apply Z.leb_le in Hn. apply Z.ltb_lt in Hb.
  split; [done |]. split; [done |]. by apply wf_slots_inv.
Qed.

Lemma wkb_fits_wf (g : Geometry) :
  wkb_fits leaf g = true → wf_geom g = true.
Proof.
  induction g as [l | c IH] using OGRGeometry_ind; intros Hf; [done |].
  destruct (wkb_fits_inv c Hf) as (Hn & _ & es & rest & Ha & Hlen & Hes).
  simpl. destruct (Z.leb_spec 0 (nGeomCount c)) as [_ | ?]; [| lia].
  rewrite Ha, <- Hlen. apply wf_slots_intro.
  rewrite Ha in IH. apply Forall_slots_elems in IH.
  rewrite Forall_forall in IH, Hes. apply Forall_forall.
  intros e He. apply (IH e He). by apply Hes.
Qed.

(** The sum of the sizes of a list of elements. *)
Lemma sum_sizes_nonneg (es : list Geometry) :
  Forall (fun e => ∃ s, geom_WkbSize leaf e = Some s ∧ 0 ≤ s) es →
  0 ≤ foldr (fun s acc => default 0 (s ≫= geom_WkbSize leaf) + acc) 0
        (Some <$> es).
Proof.
  induction 1 as [| e es (s & Hs & ?) _ IH]; simpl; [done |].
  rewrite Hs. simpl.
  change (list_fmap Geometry (option Geometry) Some es) with (Some <$> es).
  lia.
Qed.

Lemma wkb_fits_size (g : Geometry) :
  wkb_fits leaf g = true →
  ∃ s, geom_WkbSize leaf g = Some s ∧ 0 ≤ s.
Proof.
  induction g as [l | c IH] using OGRGeometry_ind; intros Hf.
  - simpl in *. exists (leaf_WkbSize leaf l). split; [done |].
    by apply Z.leb_le.
  - destruct (wkb_fits_inv c Hf) as (Hn & Hb & es & rest & Ha & Hlen & Hes).
    pose proof (WkbSize_value c (wkb_fits_wf _ Hf)) as Hv.
    unfold WkbSize in Hv. rewrite Hv.
    assert (0 ≤ sum_WkbSize leaf c) as Hsum.
    { unfold sum_WkbSize. rewrite (stored_app c es rest Ha Hlen).
      apply sum_sizes_nonneg.
      rewrite Ha in IH. apply Forall_slots_elems in IH.
      rewrite Forall_forall in IH, Hes. apply Forall_forall.
      intros e He. apply (IH e He). by apply Hes. }
    exists (size_t (9 + sum_WkbSize leaf c)). split; [done |].
    rewrite size_t_small; lia.
Qed.

Lemma export_loop_frame
  (rec : Geometry → buffer → Z → OGRwkbExportOptions → option buffer)
  (pabyData : Z) (o : OGRwkbExportOptions) (es : list Geometry) :
  Forall (fun e =>
            ∃ s, geom_WkbSize leaf e = Some s ∧ 0 ≤ s ∧
                 ∀ buf p buf', rec e buf p o = Some buf' →
                   ∀ q, q < p ∨ p + s ≤ q → buf' q = buf q) es →
  ∀ (buf buf' : buffer) (a n : Z),
    0 ≤ a →
    a + foldr (fun s acc => default 0 (s ≫= geom_WkbSize leaf) + acc) 0
          (Some <$> es) < 2 ^ 64 →
    for_list (R := Empty_set)
      (fun poSubGeom '(buf, nOffset) =>
         match rec poSubGeom buf (pabyData + nOffset) o with
         | None => None
         | Some buf' =>
             match geom_WkbSize leaf poSubGeom with
             | None => None
             | Some s => Some (Next (buf', size_t (nOffset + s)))
             end
         end) es (buf, a)
    = Some (Next (buf', n)) →
    n = a + foldr (fun s acc => default 0 (s ≫= geom_WkbSize leaf) + acc) 0
              (Some <$> es) ∧
    ∀ q, q < pabyData + a ∨ pabyData + n ≤ q → buf' q = buf q.
Proof.
  induction 1 as [| e es (s & Hs & Hpos & Hframe) Hes IH];
    intros buf buf' a n Ha Hb; simpl.
  - intros [= <- <-]. split; [lia | done].
  - simpl in Hb. rewrite Hs in Hb |- *. simpl in Hb.
    change (list_fmap Geometry (option Geometry) Some es)
      with (Some <$> es) in *.
    pose proof (sum_sizes_nonneg es) as Hsum.
    assert (0 ≤ foldr (fun s acc =>
                         default 0 (s ≫= geom_WkbSize leaf) + acc) 0
                  (Some <$> es)) as Hrest.
    { apply Hsum. eapply Forall_impl; [exact Hes |].
      intros e' (s' & ? & ? & _). eauto. }
    destruct (rec e buf (pabyData + a) o) as [buf1 |] eqn:Hrec; [| done].
    rewrite size_t_small by lia. intros Hloop.
    destruct (IH buf1 buf' (a + s) n) as [-> Hq]; [lia | lia | done |].
    split; [simpl; lia |].
    intros q Hout. rewrite Hq by lia.
    apply (Hframe buf (pabyData + a) buf1 Hrec). lia.
Qed.

Lemma exportToWkb_with_frame
  (rec : Geometry → buffer → Z → OGRwkbExportOptions → option buffer)
  (c : GeometryCollection) :
  wkb_fits leaf (Collection c) = true →
  (∀ e, Some e ∈ stored c →
        ∀ o buf p buf', rec e buf p o = Some buf' →
          ∀ s, geom_WkbSize leaf e = Some s →
               ∀ q, q < p ∨ p + s ≤ q → buf' q = buf q) →
  ∀ buf pabyData psOptions eErr buf' n,
    exportToWkb_with leaf derived wkbout rec c buf pabyData psOptions
    = Some (eErr, buf', n) →
    n = 9 + sum_WkbSize leaf c ∧
    (∀ q, q < pabyData ∨ pabyData + n ≤ q → buf' q = buf q) ∧
    buf' pabyData
    = DB2_V72_UNFIX_BYTE_ORDER wkbout
        (byte_order_code wkbout
           (eByteOrder (match psOptions with
                        | None => defaultOptions wkbout
                        | Some o => o
                        end))).
Proof.
  intros Hf Hrec buf pabyData psOptions eErr buf' n.
  destruct (wkb_fits_inv c Hf) as (Hn & Hb & es & rest & Ha & Hlen & Hes).
  unfold exportToWkb_with, for_geoms.
  destruct (Z.ltb_spec (nGeomCount c) 0) as [? | _]; [lia |].
  rewrite Ha, <- Hlen, range_for_list.
  set (psOptions1 := match psOptions with
                     | None => defaultOptions wkbout
                     | Some o => o
                     end).
  set (sOptions := if _ && _ then _ else psOptions1).
  assert (eByteOrder sOptions = eByteOrder psOptions1) as Hbo.
  { subst sOptions. by destruct (_ && _). }
  set (buf0 := poke buf pabyData _).
  set (buf1 := memcpy buf0 (pabyData + 1) _).
  set (buf2 := if OGR_SWAP wkbout (eByteOrder sOptions) then _ else _).
  assert (∀ x, (length (take 4 (host_int32 wkbout x)) ≤ 4)%nat) as Hfour.
  { intros x. rewrite length_take. lia. }
  assert (∀ q, q < pabyData + 1 ∨ pabyData + 9 ≤ q → buf2 q = buf0 q)
    as Hhead.
  { intros q Hq. subst buf2 buf1.
    destruct (OGR_SWAP wkbout (eByteOrder sOptions)).
    - rewrite memcpy_frame
        by (pose proof (Hfour (CPL_SWAP32 wkbout (nGeomCount c))); lia).
      apply memcpy_frame.
      pose proof (Hfour (export_type_code derived wkbout c sOptions)). lia.
    - rewrite memcpy_frame by (pose proof (Hfour (nGeomCount c)); lia).
      apply memcpy_frame.
      pose proof (Hfour (export_type_code derived wkbout c sOptions)). lia. }
  match goal with
  | |- match ?l with _ => _ end = _ → _ =>
      destruct l as [[[bufN nN] | []] |] eqn:Hloop
  end; [| done].
  intros [= _ <- <-].
  assert (sum_WkbSize leaf c
          = foldr (fun s acc => default 0 (s ≫= geom_WkbSize leaf) + acc) 0
              (Some <$> es)) as Hsum.
  { unfold sum_WkbSize. by rewrite (stored_app c es rest Ha Hlen). }
  eapply (export_loop_frame rec pabyData sOptions es) in Hloop;
    [| | lia | lia].
  - destruct Hloop as [-> Hq]. rewrite <- Hsum.
    assert (0 ≤ sum_WkbSize leaf c) as Hpos.
    { rewrite Hsum. apply sum_sizes_nonneg.
      eapply Forall_impl; [exact Hes |]. apply wkb_fits_size. }
    split; [done |]. split.
    + intros q Hout. rewrite Hq by lia. rewrite Hhead by lia.
      apply poke_frame. lia.
    + rewrite Hq by lia. rewrite Hhead by lia. subst buf0.
      unfold poke. destruct (decide (pabyData = pabyData)); [| done].
      by rewrite Hbo.
  - apply Forall_forall. intros e He. rewrite Forall_forall in Hes.
    destruct (wkb_fits_size e (Hes e He)) as (s & Hs & Hpos).
    exists s. split; [done |]. split; [done |].
    intros b p b' Hrun q Hq.
    apply (Hrec e) with (o := sOptions) (p := p) (s := s); try done.
    rewrite (stored_app c es rest Ha Hlen). by apply list_elem_of_fmap_2.
Qed.

Lemma geom_exportToWkb_frame :
  (∀ l buf p o q,
     q < p ∨ p + leaf_WkbSize leaf l ≤ q →
     leaf_exportToWkb wkbout l buf p o q = buf q) →
  ∀ g : Geometry,
    wkb_fits leaf g = true →
    ∀ o buf p buf',
      geom_exportToWkb leaf derived wkbout g buf p o = Some buf' →
      ∀ s, geom_WkbSize leaf g = Some s →
           ∀ q, q < p ∨ p + s ≤ q → buf' q = buf q.
Proof.
  intros Hleaf g.
  induction g as [l | c IH] using OGRGeometry_ind;
    intros Hf o buf p buf'.
  - simpl. intros [= <-] s [= <-] q Hq. by apply Hleaf.
  - cbn [geom_exportToWkb].
    destruct (exportToWkb_with _ _ _ _ _ _ _ _) as [[[e b] n] |] eqn:Hrun;
      [| done].
    intros [= <-] s Hs q Hq.
    destruct (wkb_fits_inv c Hf) as (Hn & Hb & es & rest & Ha & Hlen & Hes).
    eapply exportToWkb_with_frame in Hrun; [| done |].
    + destruct Hrun as (-> & Hframe & _). apply Hframe.
      pose proof (WkbSize_value c (wkb_fits_wf _ Hf)) as Hv.
      unfold WkbSize in Hv. rewrite Hv in Hs. injection Hs as <-.
      destruct (wkb_fits_size _ Hf) as (s' & Hs' & Hpos).
      rewrite Hv in Hs'. injection Hs' as <-.
      assert (0 ≤ sum_WkbSize leaf c).
      { unfold sum_WkbSize. rewrite (stored_app c es rest Ha Hlen).
        apply sum_sizes_nonneg.
        eapply Forall_impl; [exact Hes |]. apply wkb_fits_size. }
      rewrite size_t_small in Hq by lia. lia.
    + intros x Hx. rewrite (stored_app c es rest Ha Hlen) in Hx.
      apply list_elem_of_fmap_1 in Hx as (x' & [= <-] & Hx').
      rewrite Ha in IH. apply Forall_slots_elems in IH.
      rewrite Forall_forall in IH, Hes.
      intros o' b0 p0 b0' Hrun0 s0 Hs0 q0 Hq0.
      by apply (IH x Hx' (Hes x Hx') o' b0 p0 b0' Hrun0 s0 Hs0 q0 Hq0).
Qed.

(** X11. For a collection whose sizes stay inside [size_t] at every level
    and whose leaves write only their own [WkbSize()] bytes,
    [exportToWkb] returns OGRERR_NONE, advances by exactly [WkbSize()],
    leaves every byte outside [pabyData, pabyData + WkbSize()) as it was,
    and the first byte of the output is the byte-order marker: no element
    overwrites the header. *)
Theorem exportToWkb_writes_only_its_range (c : GeometryCollection)
  (buf : buffer) (pabyData : Z) (psOptions : option OGRwkbExportOptions) :
  (∀ l b p o q,
     q < p ∨ p + leaf_WkbSize leaf l ≤ q →
     leaf_exportToWkb wkbout l b p o q = b q) →
  wkb_fits leaf (Collection c) = true →
  ∃ buf' n,
    exportToWkb leaf derived wkbout c buf pabyData psOptions
    = Some (OGRERR_NONE, buf', n) ∧
    WkbSize leaf c = Some n ∧
    n = 9 + sum_WkbSize leaf c ∧
    (∀ q, q < pabyData ∨ pabyData + n ≤ q → buf' q = buf q) ∧
    buf' pabyData
    = DB2_V72_UNFIX_BYTE_ORDER wkbout
        (byte_order_code wkbout
           (eByteOrder (match psOptions with
                        | None => defaultOptions wkbout
                        | Some o => o
                        end))).
Proof.
  intros Hleaf Hf.
  pose proof (wkb_fits_wf _ Hf) as Hwf.
  destruct (wkb_fits_inv c Hf) as (Hn & Hb & es & rest & Ha & Hlen & Hes).
  destruct (exportToWkb_with_offset
              (geom_exportToWkb leaf derived wkbout) c Hwf) with
    (buf := buf) (pabyData := pabyData) (psOptions := psOptions)
    as [buf' Hrun].
  { intros e He. rewrite (stored_app c es rest Ha Hlen) in He.
    apply list_elem_of_fmap_1 in He as (e' & [= <-] & He').
    apply geom_exportToWkb_total. apply wkb_fits_wf.
    rewrite Forall_forall in Hes. by apply Hes. }
  unfold exportToWkb. rewrite Hrun.
  exists buf', (size_t (9 + sum_WkbSize leaf c)).
  split; [done |]. split; [by apply WkbSize_value |].
  eapply exportToWkb_with_frame in Hrun; [| done |].
  - destruct Hrun as (Hsize & Hframe & Hfirst).
    split; [done |]. rewrite Hsize in Hframe |- *. done.
  - intros e He. rewrite (stored_app c es rest Ha Hlen) in He.
    apply list_elem_of_fmap_1 in He as (e' & [= <-] & He').
    apply geom_exportToWkb_frame; [done |].
    rewrite Forall_forall in Hes. by apply Hes.
Qed.

Lemma memcpy_written (bytes : list byte) :
  ∀ (buf1 buf2 : buffer) (off q : Z),
    off ≤ q < off + Z.of_nat (length bytes) →
    memcpy buf1 off bytes q = memcpy buf2 off bytes q.
Proof.
  induction bytes as [| b bytes IH]; intros buf1 buf2 off q Hq; simpl in *;
    [lia |].
  destruct (decide (q = off)) as [-> | Hne].
  - rewrite !memcpy_frame by lia. unfold poke.
    by destruct (decide (off = off)).
  - apply IH. lia.
Qed.

Lemma export_loop_written
  (rec : Geometry → buffer → Z → OGRwkbExportOptions → option buffer)
  (pabyData : Z) (o : OGRwkbExportOptions) (es : list Geometry) :
  Forall (fun e =>
            ∃ s, geom_WkbSize leaf e = Some s ∧ 0 ≤ s ∧
                 (∀ buf p buf', rec e buf p o = Some buf' →
                    ∀ q, q < p ∨ p + s ≤ q → buf' q = buf q) ∧
                 (∀ buf1 buf2 p buf1' buf2',
                    rec e buf1 p o = Some buf1' →
                    rec e buf2 p o = Some buf2' →
                    ∀ q, p ≤ q < p + s → buf1' q = buf2' q)) es →
  ∀ (buf1 buf2 buf1' buf2' : buffer) (a n1 n2 lo : Z),
    0 ≤ a →
    a + foldr (fun s acc => default 0 (s ≫= geom_WkbSize leaf) + acc) 0
          (Some <$> es) < 2 ^ 64 →
    for_list (R := Empty_set)
      (fun poSubGeom '(buf, nOffset) =>
         match rec poSubGeom buf (pabyData + nOffset) o with
         | None => None
         | Some buf' =>
             match geom_WkbSize leaf poSubGeom with
             | None => None
             | Some s => Some (Next (buf', size_t (nOffset + s)))
             end
         end) es (buf1, a)
    = Some (Next (buf1', n1)) →
    for_list (R := Empty_set)
      (fun poSubGeom '(buf, nOffset) =>
         match rec poSubGeom buf (pabyData + nOffset) o with
         | None => None
         | Some buf' =>
             match geom_WkbSize leaf poSubGeom with
             | None => None
             | Some s => Some (Next (buf', size_t (nOffset + s)))
             end
         end) es (buf2, a)
    = Some (Next (buf2', n2)) →
    (∀ q, lo ≤ q < pabyData + a → buf1 q = buf2 q) →
    ∀ q, lo ≤ q < pabyData + n1 → buf1' q = buf2' q.
Proof.
  induction 1 as [| e es (s & Hs & Hpos & Hframe & Hwritten) Hes IH];
    intros buf1 buf2 buf1' buf2' a n1 n2 lo Ha Hb; simpl.
  - intros [= <- <-] [= <- <-] Hsame. exact Hsame.
  - simpl in Hb. rewrite Hs in Hb |- *. simpl in Hb.
    change (list_fmap Geometry (option Geometry) Some es)
      with (Some <$> es) in *.
    assert (0 ≤ foldr (fun s acc =>
                         default 0 (s ≫= geom_WkbSize leaf) + acc) 0
                  (Some <$> es)) as Hrest.
    { apply sum_sizes_nonneg. eapply Forall_impl; [exact Hes |].
      intros e' (s' & ? & ? & _). eauto. }
    destruct (rec e buf1 (pabyData + a) o) as [c1 |] eqn:Hrec1; [| done].
    destruct (rec e buf2 (pabyData + a) o) as [c2 |] eqn:Hrec2; [| done].
    rewrite size_t_small by lia. intros Hloop1 Hloop2 Hsame.
    apply (IH c1 c2 buf1' buf2' (a + s) n1 n2 lo); [lia | lia | done .. |].
    intros q Hq. destruct (Z.lt_ge_cases q (pabyData + a)).
    + rewrite (Hframe buf1 _ c1 Hrec1) by lia.
      rewrite (Hframe buf2 _ c2 Hrec2) by lia. apply Hsame. lia.
    + apply (Hwritten buf1 buf2 _ c1 c2 Hrec1 Hrec2). lia.
Qed.

Lemma exportToWkb_with_written
  (rec : Geometry → buffer → Z → OGRwkbExportOptions → option buffer)
  (c : GeometryCollection) :
  wkb_fits leaf (Collection c) = true →
  (∀ x, (4 ≤ length (host_int32 wkbout x))%nat) →
  (∀ e, Some e ∈ stored c →
        ∀ o s, geom_WkbSize leaf e = Some s →
          (∀ buf p buf', rec e buf p o = Some buf' →
             ∀ q, q < p ∨ p + s ≤ q → buf' q = buf q) ∧
          (∀ buf1 buf2 p buf1' buf2',
             rec e buf1 p o = Some buf1' →
             rec e buf2 p o = Some buf2' →
             ∀ q, p ≤ q < p + s → buf1' q = buf2' q)) →
  ∀ buf1 buf2 pabyData psOptions e1 e2 buf1' buf2' n1 n2,
    exportToWkb_with leaf derived wkbout rec c buf1 pabyData psOptions
    = Some (e1, buf1', n1) →
    exportToWkb_with leaf derived wkbout rec c buf2 pabyData psOptions
    = Some (e2, buf2', n2) →
    ∀ q, pabyData ≤ q < pabyData + n1 → buf1' q = buf2' q.
Proof.
  intros Hf Hfour Hrec buf1 buf2 pabyData psOptions e1 e2 buf1' buf2' n1 n2.
  destruct (wkb_fits_inv c Hf) as (Hn & Hb & es & rest & Ha & Hlen & Hes).
  unfold exportToWkb_with, for_geoms.
  destruct (Z.ltb_spec (nGeomCount c) 0) as [? | _]; [lia |].
  rewrite Ha, <- Hlen, !range_for_list.
  set (psOptions1 := match psOptions with
                     | None => defaultOptions wkbout
                     | Some o => o
                     end).
  set (sOptions := if _ && _ then _ else psOptions1).
  set (marker := DB2_V72_UNFIX_BYTE_ORDER wkbout _).
  set (code := take 4 (host_int32 wkbout _)).
  set (count := if OGR_SWAP wkbout (eByteOrder sOptions)
                then take 4 (host_int32 wkbout
                               (CPL_SWAP32 wkbout (nGeomCount c)))
                else take 4 (host_int32 wkbout (nGeomCount c))).
  assert (length code = 4%nat) as Hcode.
  { subst code. rewrite length_take.
    pose proof (Hfour (export_type_code derived wkbout c sOptions)). lia. }
  assert (length count = 4%nat) as Hcount.
  { subst count. destruct (OGR_SWAP wkbout (eByteOrder sOptions));
      rewrite length_take;
      [pose proof (Hfour (CPL_SWAP32 wkbout (nGeomCount c)))
      | pose proof (Hfour (nGeomCount c))]; lia. }
  assert (∀ buf : buffer,
            (if OGR_SWAP wkbout (eByteOrder sOptions)
             then memcpy (memcpy (poke buf pabyData marker) (pabyData + 1)
                            code) (pabyData + 5)
                    (take 4 (host_int32 wkbout
                               (CPL_SWAP32 wkbout (nGeomCount c))))
             else memcpy (memcpy (poke buf pabyData marker) (pabyData + 1)
                            code) (pabyData + 5)
                    (take 4 (host_int32 wkbout (nGeomCount c))))
            = memcpy (memcpy (poke buf pabyData marker) (pabyData + 1) code)
                (pabyData + 5) count) as Hhead.
  { intros buf. subst count.
    by destruct (OGR_SWAP wkbout (eByteOrder sOptions)). }
  rewrite !Hhead.
  match goal with
  | |- match ?l with _ => _ end = _ → _ =>
      destruct l as [[[bufA nA] | []] |] eqn:Hloop1
  end; [| done].
  intros [= _ <- <-].
  match goal with
  | |- match ?l with _ => _ end = _ → _ =>
      destruct l as [[[bufB nB] | []] |] eqn:Hloop2
  end; [| done].
  intros [= _ <- <-].
  assert (sum_WkbSize leaf c
          = foldr (fun s acc => default 0 (s ≫= geom_WkbSize leaf) + acc) 0
              (Some <$> es)) as Hsum.
  { unfold sum_WkbSize. by rewrite (stored_app c es rest Ha Hlen). }
  apply (export_loop_written rec pabyData sOptions es) with
    (buf1 := memcpy (memcpy (poke buf1 pabyData marker) (pabyData + 1) code)
               (pabyData + 5) count)
    (buf2 := memcpy (memcpy (poke buf2 pabyData marker) (pabyData + 1) code)
               (pabyData + 5) count)
    (a := 9) (n2 := nB); [| lia | lia | done | done |].
  - apply Forall_forall. intros e He. rewrite Forall_forall in Hes.
    destruct (wkb_fits_size e (Hes e He)) as (s & Hs & Hpos).
    exists s. split; [done |]. split; [done |].
    apply (Hrec e); [| done].
    rewrite (stored_app c es rest Ha Hlen). by apply list_elem_of_fmap_2.
  - intros q Hq.
    destruct (Z.lt_ge_cases q (pabyData + 5)).
    + rewrite !(memcpy_frame count) by lia.
      destruct (decide (q = pabyData)) as [-> | ?].
      * rewrite !(memcpy_frame code) by lia. unfold poke.
        by destruct (decide (pabyData = pabyData)).
      * apply memcpy_written. lia.
    + apply memcpy_written. lia.
Qed.

Lemma geom_exportToWkb_written :
  (∀ x, (4 ≤ length (host_int32 wkbout x))%nat) →
  (∀ l buf p o q,
     q < p ∨ p + leaf_WkbSize leaf l ≤ q →
     leaf_exportToWkb wkbout l buf p o q = buf q) →
  (∀ l buf1 buf2 p o q,
     p ≤ q < p + leaf_WkbSize leaf l →
     leaf_exportToWkb wkbout l buf1 p o q
     = leaf_exportToWkb wkbout l buf2 p o q) →
  ∀ g : Geometry,
    wkb_fits leaf g = true →
    ∀ o buf1 buf2 p buf1' buf2',
      geom_exportToWkb leaf derived wkbout g buf1 p o = Some buf1' →
      geom_exportToWkb leaf derived wkbout g buf2 p o = Some buf2' →
      ∀ s, geom_WkbSize leaf g = Some s →
           ∀ q, p ≤ q < p + s → buf1' q = buf2' q.
Proof.
  intros Hfour Hframe Hwritten g.
  induction g as [l | c IH] using OGRGeometry_ind;
    intros Hf o buf1 buf2 p buf1' buf2'.
  - simpl. intros [= <-] [= <-] s [= <-] q Hq. by apply Hwritten.
  - cbn [geom_exportToWkb].
    destruct (exportToWkb_with _ _ _ _ _ buf1 _ _) as [[[x1 b1] n1] |]
      eqn:Hrun1; [| done].
    destruct (exportToWkb_with _ _ _ _ _ buf2 _ _) as [[[x2 b2] n2] |]
      eqn:Hrun2; [| done].
    intros [= <-] [= <-] s Hs q Hq.
    destruct (wkb_fits_inv c Hf) as (Hn & Hb & es & rest & Ha & Hlen & Hes).
    assert (∀ e, Some e ∈ stored c → e ∈ es) as Hin.
    { intros e He. rewrite (stored_app c es rest Ha Hlen) in He.
      by apply list_elem_of_fmap_1 in He as (e' & [= <-] & He'). }
    rewrite Ha in IH. apply Forall_slots_elems in IH.
    rewrite Forall_forall in IH, Hes.
    assert (n1 = s) as ->.
    { eapply exportToWkb_with_frame in Hrun1; [| done |].
      - destruct Hrun1 as (-> & _).
        pose proof (WkbSize_value c (wkb_fits_wf _ Hf)) as Hv.
        unfold WkbSize in Hv. rewrite Hv in Hs. injection Hs as <-.
        destruct (wkb_fits_size _ Hf) as (s' & Hs' & Hpos).
        rewrite Hv in Hs'. injection Hs' as <-.
        assert (0 ≤ sum_WkbSize leaf c).
        { unfold sum_WkbSize. rewrite (stored_app c es rest Ha Hlen).
          apply sum_sizes_nonneg. apply Forall_forall.
          intros e He. by apply wkb_fits_size, Hes. }
        rewrite size_t_small; lia.
      - intros e He. apply geom_exportToWkb_frame; [done |].
        by apply Hes, Hin. }
    apply (exportToWkb_with_written
             (geom_exportToWkb leaf derived wkbout) c Hf Hfour) with
      (buf1 := buf1) (buf2 := buf2) (pabyData := p)
      (psOptions := Some o) (e1 := x1) (e2 := x2) (n1 := s) (n2 := n2);
      try done.
    intros e He o' s' Hs'. split.
    + intros b pp b' Hrun qq Hqq.
      by apply (geom_exportToWkb_frame Hframe e (Hes e (Hin e He))
                  o' b pp b' Hrun s' Hs' qq Hqq).
    + intros c1 c2 pp c1' c2' Hr1 Hr2 qq Hqq.
      by apply (IH e (Hin e He) (Hes e (Hin e He)) o' c1 c2 pp c1' c2'
                  Hr1 Hr2 s' Hs' qq Hqq).
Qed.

(** C3. For every well-formed collection, [WkbSize()] is 9 plus the sum of
    the elements' own [WkbSize()] in [size_t] arithmetic (exactly that
    sum when it is representable), and for every buffer, byte order and
    variant [exportToWkb] returns OGRERR_NONE with its write offset
    ending at [WkbSize()].  When the sizes stay inside [size_t] and every
    leaf writes exactly the [WkbSize()] bytes at the address it is given,
    [exportToWkb] writes exactly the [WkbSize()] bytes from [pabyData]:
    every byte outside that range is as it was, and every byte inside it
    is set by the call, whatever the buffer held before. *)
Theorem WkbSize_matches_exportToWkb (c : GeometryCollection) :
  wf_collection c = true →
  ∃ nSize,
    WkbSize leaf c = Some nSize ∧
    nSize = size_t (9 + sum_WkbSize leaf c) ∧
    (0 ≤ sum_WkbSize leaf c → 9 + sum_WkbSize leaf c < 2 ^ 64 →
     nSize = 9 + sum_WkbSize leaf c) ∧
    (∀ buf pabyData psOptions, ∃ buf',
       exportToWkb leaf derived wkbout c buf pabyData psOptions
       = Some (OGRERR_NONE, buf', nSize)) ∧
    (wkb_fits leaf (Collection c) = true →
     (∀ x, (4 ≤ length (host_int32 wkbout x))%nat) →
     (∀ l buf p o q,
        q < p ∨ p + leaf_WkbSize leaf l ≤ q →
        leaf_exportToWkb wkbout l buf p o q = buf q) →
     (∀ l buf1 buf2 p o q,
        p ≤ q < p + leaf_WkbSize leaf l →
        leaf_exportToWkb wkbout l buf1 p o q
        = leaf_exportToWkb wkbout l buf2 p o q) →
     nSize = 9 + sum_WkbSize leaf c ∧
     ∀ buf1 buf2 pabyData psOptions buf1' buf2',
       exportToWkb leaf derived wkbout c buf1 pabyData psOptions
       = Some (OGRERR_NONE, buf1', nSize) →
       exportToWkb leaf derived wkbout c buf2 pabyData psOptions
       = Some (OGRERR_NONE, buf2', nSize) →
       (∀ q, q < pabyData ∨ pabyData + nSize ≤ q → buf1' q = buf1 q) ∧
       (∀ q, pabyData ≤ q < pabyData + nSize → buf1' q = buf2' q)).
Proof.
  intros Hwf. exists (size_t (9 + sum_WkbSize leaf c)).
  split; [by apply WkbSize_value |]. split; [done |]. split; [| split].
  - intros ? ?. apply size_t_small. lia.
  - intros buf pabyData psOptions. unfold exportToWkb.
    apply exportToWkb_with_offset; [done |].
    destruct (wf_collection_inv c Hwf) as (Hn & es & rest & Ha & Hlen & Hes).
    rewrite (stored_app c es rest Ha Hlen). intros e He.
    apply list_elem_of_fmap in He as (e' & [= <-] & He).
    apply geom_exportToWkb_total. rewrite Forall_forall in Hes. auto.
  - intros Hf Hfour Hframe Hwritten.
    destruct (wkb_fits_inv c Hf) as (Hn & Hb & es & rest & Ha & Hlen & Hes).
    rewrite Forall_forall in Hes.
    assert (∀ e, Some e ∈ stored c → e ∈ es) as Hin.
    { intros e He. rewrite (stored_app c es rest Ha Hlen) in He.
      by apply list_elem_of_fmap_1 in He as (e' & [= <-] & He'). }
    assert (0 ≤ sum_WkbSize leaf c) as Hpos.
    { unfold sum_WkbSize. rewrite (stored_app c es rest Ha Hlen).
      apply sum_sizes_nonneg. apply Forall_forall.
      intros e He. by apply wkb_fits_size, Hes. }
    rewrite size_t_small by lia. split; [done |].
    intros buf1 buf2 pabyData psOptions buf1' buf2' Hrun1 Hrun2.
    unfold exportToWkb in Hrun1, Hrun2. split.
    + eapply exportToWkb_with_frame in Hrun1 as (_ & Hout & _);
        [exact Hout | done |].
      intros e He. apply geom_exportToWkb_frame; [done |].
      by apply Hes, Hin.
    + apply (exportToWkb_with_written
               (geom_exportToWkb leaf derived wkbout) c Hf Hfour) with
        (buf1 := buf1) (buf2 := buf2) (psOptions := psOptions)
        (e1 := OGRERR_NONE) (e2 := OGRERR_NONE)
        (n1 := 9 + sum_WkbSize leaf c) (n2 := 9 + sum_WkbSize leaf c);
        try done.
      intros e He o s Hs. split.
      * intros b pp b' Hrun qq Hqq.
        by apply (geom_exportToWkb_frame Hframe e (Hes e (Hin e He))
                    o b pp b' Hrun s Hs qq Hqq).
      * intros c1 c2 pp c1' c2' Hr1 Hr2 qq Hqq.
        by apply (geom_exportToWkb_written Hfour Hframe Hwritten e
                    (Hes e (Hin e He)) o c1 c2 pp c1' c2' Hr1 Hr2 s Hs
                    qq Hqq).
Qed.

(** ** Methods that visit every element *)

Context {CT : Type}.
Variable leafm : @LeafMethods LeafT SRS CT.
Variable basem : @BaseMethods LeafT Derived SRS CT.
Variable derivedm : @DerivedMethods LeafT Derived SRS.

Lemma range_mut_all {G E : Type} (call : G → option (option E * G))
  (es es' : list G) (rest : list (option G)) :
  Forall2 (fun e e' => call e = Some (None, e')) es es' →
  range_mut call ((Some <$> es) ++ rest) (length es)
  = Some (None, (Some <$> es') ++ rest).
Proof.
  induction 1 as [| e e' es es' He _ IH]; simpl.
  - by destruct rest.
  - rewrite He.
    change (list_fmap G (option G) Some es) with (Some <$> es).
    by rewrite IH.
Qed.

Lemma range_mut_stop {G E : Type} (call : G → option (option E * G))
  (pre pre' post : list G) (e e' : G) (why : E) (rest : list (option G)) :
  Forall2 (fun x x' => call x = Some (None, x')) pre pre' →
  call e = Some (Some why, e') →
  range_mut call ((Some <$> (pre ++ e :: post)) ++ rest)
    (length (pre ++ e :: post))
  = Some (Some (length pre, why), (Some <$> (pre' ++ e' :: post)) ++ rest).
Proof.
  intros Hpre He.
  induction Hpre as [| x x' pre pre' Hx _ IH]; simpl.
  - by rewrite He.
  - rewrite Hx.
    change (list_fmap G (option G) Some (pre ++ e :: post))
      with (Some <$> (pre ++ e :: post)).
    by rewrite IH.
Qed.

Lemma max_dimension_bounds (es : list Geometry) :
  Forall (fun e => ∃ d, geom_getDimension leafm derivedm e = Some d
                        ∧ 0 ≤ d ≤ 2) es →
  0 ≤ foldr (fun s acc =>
               Z.max (default 0 (s ≫= geom_getDimension leafm derivedm)) acc)
        0 (Some <$> es) ≤ 2.
Proof.
  induction 1 as [| e es (d & Hd & ?) _ IH]; simpl; [lia |].
  rewrite Hd. simpl.
  change (list_fmap Geometry (option Geometry) Some es) with (Some <$> es).
  lia.
Qed.

Lemma getDimension_loop (es : list Geometry) :
  Forall (fun e => ∃ d, geom_getDimension leafm derivedm e = Some d
                        ∧ 0 ≤ d ≤ 2) es →
  ∀ a, 0 ≤ a ≤ 2 →
    ∃ r,
      for_list
        (fun e (nDimension : Z) =>
           match geom_getDimension leafm derivedm e with
           | None => None
           | Some nSubGeomDimension =>
               if nSubGeomDimension >? nDimension then
                 if nSubGeomDimension =? 2
                 then Some (Return nSubGeomDimension)
                 else Some (Next nSubGeomDimension)
               else Some (Next nDimension)
           end) es a = Some r ∧
      match r with Next m | Return m => m end
      = Z.max a (foldr (fun s acc =>
                          Z.max (default 0
                                   (s ≫= geom_getDimension leafm derivedm))
                            acc) 0 (Some <$> es)).
Proof.
  induction 1 as [| e es (d & Hd & Hb) Hes IH]; intros a Ha; simpl.
  - exists (Next a). split; [done | lia].
  - rewrite Hd. simpl.
    change (list_fmap Geometry (option Geometry) Some es) with (Some <$> es).
    pose proof (max_dimension_bounds es Hes) as Hm.
    destruct (Z.gtb_spec d a).
    + destruct (Z.eqb_spec d 2) as [-> | ?].
      * exists (Return 2). split; [done | lia].
      * destruct (IH d) as (r & -> & Hr); [lia |].
        exists r. split; [done | lia].
    + destruct (IH a) as (r & -> & Hr); [lia |].
      exists r. split; [done | lia].
Qed.

Lemma getDimension_with_max (c : GeometryCollection) :
  wf_collection c = true →
  (∀ e, Some e ∈ stored c →
        ∃ d, geom_getDimension leafm derivedm e = Some d ∧ 0 ≤ d ≤ 2) →
  getDimension_with (geom_getDimension leafm derivedm) c
  = Some (max_dimension leafm derivedm c) ∧
  0 ≤ max_dimension leafm derivedm c ≤ 2.
Proof.
  intros Hwf Hdims.
  destruct (wf_collection_inv c Hwf) as (Hn & es & rest & Ha & Hlen & Hes).
  rewrite (stored_app c es rest Ha Hlen) in Hdims.
  assert (Forall (fun e => ∃ d, geom_getDimension leafm derivedm e = Some d
                                ∧ 0 ≤ d ≤ 2) es) as Hall.
  { apply Forall_forall. intros e He. apply Hdims.
    by apply list_elem_of_fmap_2. }
  destruct (getDimension_loop es Hall 0) as (r & Hr & Hmax); [lia |].
  pose proof (max_dimension_bounds es Hall) as Hb.
  unfold max_dimension. rewrite (stored_app c es rest Ha Hlen).
  split; [| done].
  unfold getDimension_with, for_geoms.
  destruct (Z.ltb_spec (nGeomCount c) 0) as [? | _]; [lia |].
  rewrite Ha, <- Hlen, range_for_list, Hr.
  destruct r; simpl in Hmax; f_equal; lia.
Qed.

Lemma geom_getDimension_bounds :
  (∀ l, 0 ≤ leaf_getDimension leafm l ≤ 2) →
  (∀ d c, 0 ≤ derived_getDimension derivedm d c ≤ 2) →
  ∀ g : Geometry,
    wf_geom g = true →
    ∃ d, geom_getDimension leafm derivedm g = Some d ∧ 0 ≤ d ≤ 2.
Proof.
  intros Hleaf Hderived g.
  induction g as [l | c IH] using OGRGeometry_ind; intros Hwf.
  - exists (leaf_getDimension leafm l). by split; [| apply Hleaf].
  - cbn [geom_getDimension]. destruct (vptr c) as [| d] eqn:Hv.
    + destruct (getDimension_with_max c Hwf) as [-> Hb]; [| eauto].
      destruct (wf_collection_inv c Hwf)
        as (Hn & es & rest & Ha & Hlen & Hes).
      rewrite Ha in IH. apply Forall_slots_elems in IH.
      rewrite (stored_app c es rest Ha Hlen).
      intros e He. apply list_elem_of_fmap_1 in He as (e' & [= <-] & He').
      rewrite Forall_forall in IH, Hes. by apply IH, Hes.
    + eexists. split; [reflexivity | apply Hderived].
Qed.

(** X12. For a well-formed collection whose leaves and nested objects of
    derived classes have a dimension from 0 to 2, [getDimension()]
    returns the largest dimension among the stored elements (0 without
    any): leaving the loop at the first element of dimension 2 does not
    change the result. *)
Theorem getDimension_is_max (c : GeometryCollection) :
  (∀ l, 0 ≤ leaf_getDimension leafm l ≤ 2) →
  (∀ d c', 0 ≤ derived_getDimension derivedm d c' ≤ 2) →
  wf_collection c = true →
  getDimension leafm derivedm c = Some (max_dimension leafm derivedm c) ∧
  0 ≤ max_dimension leafm derivedm c ≤ 2 ∧
  ∀ e d, Some e ∈ stored c →
         geom_getDimension leafm derivedm e = Some d →
         d ≤ max_dimension leafm derivedm c.
Proof.
  intros Hleaf Hderived Hwf.
  destruct (getDimension_with_max c Hwf) as [Hd Hb].
  { destruct (wf_collection_inv c Hwf)
      as (Hn & es & rest & Ha & Hlen & Hes).
    rewrite (stored_app c es rest Ha Hlen).
    intros e He. apply list_elem_of_fmap_1 in He as (e' & [= <-] & He').
    apply geom_getDimension_bounds; [done | done |].
    rewrite Forall_forall in Hes. by apply Hes. }
  split; [done |]. split; [done |].
  intros e de He Hde. unfold max_dimension.
  induction (stored c) as [| s l IH]; [by apply elem_of_nil in He |].
  simpl. apply elem_of_cons in He as [<- | He].
  - simpl. rewrite Hde. simpl. lia.
  - specialize (IH He). lia.
Qed.

Lemma flags_without_dimensions (f : Z) :
  Is3D_flags (Z.land (Z.land f (Z.lnot OGR_G_3D)) (Z.lnot OGR_G_MEASURED))
  = false ∧
  IsMeasured_flags
    (Z.land (Z.land f (Z.lnot OGR_G_3D)) (Z.lnot OGR_G_MEASURED))
  = false.
Proof.
  unfold Is3D_flags, IsMeasured_flags. split.
  - rewrite <- !Z.land_assoc.
    replace (Z.land (Z.lnot OGR_G_3D)
               (Z.land (Z.lnot OGR_G_MEASURED) OGR_G_3D)) with 0
      by reflexivity.
    by rewrite Z.land_0_r.
  - rewrite <- !Z.land_assoc.
    replace (Z.land (Z.lnot OGR_G_3D)
               (Z.land (Z.lnot OGR_G_MEASURED) OGR_G_MEASURED)) with 0
      by reflexivity.
    by rewrite Z.land_0_r.
Qed.

Lemma geom_flattenTo2D_total (g : Geometry) :
  wf_geom g = true →
  ∃ g', geom_flattenTo2D leafm g = Some g' ∧ wf_geom g' = true.
Proof.
  induction g as [l | c IH] using OGRGeometry_ind; intros Hwf.
  - simpl. eauto.
  - destruct (wf_collection_inv c Hwf) as (Hn & es & rest & Ha & Hlen & Hes).
    rewrite Ha in IH. apply Forall_slots_elems in IH.
    assert (∃ es', Forall2 (fun e e' => geom_flattenTo2D leafm e = Some e'
                                        ∧ wf_geom e' = true) es es')
      as [es' Hes'].
    { clear Ha Hlen. induction es as [| e es IHes]; [by exists [] |].
      inversion IH; subst. inversion Hes; subst.
      destruct IHes as [es' Hes']; [done .. |].
      destruct (H1 H3) as (e' & ? & ?). exists (e' :: es').
      by constructor. }
    cbn [geom_flattenTo2D].
    destruct (Z.ltb_spec (nGeomCount c) 0) as [? | _]; [lia |].
    rewrite Ha, <- Hlen.
    rewrite (range_mut_all _ es es' rest).
    + eexists. split; [reflexivity |]. simpl.
      destruct (Z.leb_spec 0 (nGeomCount c)) as [_ | ?]; [| lia]. simpl.
      rewrite <- Hlen, (Forall2_length _ _ _ Hes').
      apply wf_slots_intro.
      clear -Hes'. induction Hes' as [| ? ? ? ? [_ ?] _ IH]; by constructor.
    + eapply Forall2_impl; [exact Hes' |]. by intros e e' [-> _].
Qed.

(** X13. [flattenTo2D()] on a well-formed collection returns a
    well-formed collection of the same class, spatial reference and
    count whose Z and M flags are both clear and whose slot [i] holds
    element [i] as its own [flattenTo2D()] left it. *)
Theorem flattenTo2D_spec (c : GeometryCollection) :
  wf_collection c = true →
  ∃ c',
    flattenTo2D leafm c = Some (Collection c') ∧
    wf_collection c' = true ∧
    Is3D_flags (flags c') = false ∧
    IsMeasured_flags (flags c') = false ∧
    vptr c' = vptr c ∧ poSRS c' = poSRS c ∧
    nGeomCount c' = nGeomCount c ∧
    Forall2 (fun s s' =>
               ∃ e e', s = Some e ∧ s' = Some e'
                       ∧ geom_flattenTo2D leafm e = Some e')
      (stored c) (stored c').
Proof.
  intros Hwf.
  destruct (geom_flattenTo2D_total (Collection c) Hwf) as (g' & Hrun & Hwf').
  destruct (wf_collection_inv c Hwf) as (Hn & es & rest & Ha & Hlen & Hes).
  assert (∃ es', Forall2 (fun e e' => geom_flattenTo2D leafm e = Some e')
                   es es') as [es' Hes'].
  { clear Ha Hlen. induction Hes as [| e es He _ [es' IH]]; [by exists [] |].
    destruct (geom_flattenTo2D_total e He) as (e' & ? & _).
    exists (e' :: es'). by constructor. }
  unfold flattenTo2D. rewrite Hrun. revert Hrun Hwf'.
  cbn [geom_flattenTo2D].
  destruct (Z.ltb_spec (nGeomCount c) 0) as [? | _]; [lia |].
  rewrite Ha, <- Hlen.
  rewrite (range_mut_all _ es es' rest).
  - intros [= <-] Hwf'. eexists. split; [reflexivity |].
    split; [done |].
    destruct (flags_without_dimensions (flags c)) as [? ?].
    repeat (split; [done |]).
    erewrite (stored_app c es rest Ha Hlen).
    erewrite (stored_app _ es' rest);
      [| done | simpl; by rewrite <- (Forall2_length _ _ _ Hes')].
    apply Forall2_fmap. eapply Forall2_impl; [exact Hes' |].
    intros e e' ?. by exists e, e'.
  - eapply Forall2_impl; [exact Hes' |]. by intros e e' ->.
Qed.

Lemma geom_set_all (leaf_set : LeafT → bool * LeafT)
  (base_set : GeometryCollection → option (bool * GeometryCollection))
  (c : GeometryCollection) (rest : list (option Geometry))
  (es es' : list Geometry) :
  papoGeoms c = (Some <$> es) ++ rest →
  nGeomCount c = Z.of_nat (length es) →
  Forall2 (fun x x' => geom_set leaf_set base_set x = Some (true, x'))
    es es' →
  geom_set leaf_set base_set (Collection c)
  = (fun r : bool * GeometryCollection => (r.1, Collection r.2)) <$>
    base_set
      (mkGC (vptr c) (flags c) (poSRS c) (nGeomCount c)
         ((Some <$> es') ++ rest)).
Proof.
  intros Ha Hn Hes. cbn [geom_set].
  destruct (Z.ltb_spec (nGeomCount c) 0) as [? | _]; [lia |].
  rewrite Ha.
  replace (Z.to_nat (nGeomCount c)) with (length es) by lia.
  rewrite (range_mut_all _ es es' rest).
  - unfold set_papoGeoms. by destruct (base_set _) as [[ok c'] |].
  - eapply Forall2_impl; [exact Hes |]. by intros x x' ->.
Qed.

(** X14. [set3D], [setMeasured] and [setCoordinateDimension] visit the
    elements in order.  When an element returns [false] the call returns
    [false] at once: the elements before it are changed, the later ones
    and the flags of the collection are as they were, and the method of
    the base class is not called.  When every element returns [true] the
    result is the one of the method of the base class on the collection
    of the changed elements; for [set3D] and [setMeasured], whose base
    method touches the flags only, the elements stay as the loop left
    them and the result and the flags are those of the base method. *)
Theorem geom_set_stops_at_first_refusal
  (leaf_set : LeafT → bool * LeafT)
  (base_set : GeometryCollection → option (bool * GeometryCollection))
  (c : GeometryCollection) (rest : list (option Geometry)) :
  (∀ (pre pre' post : list Geometry) (e e' : Geometry),
     papoGeoms c = (Some <$> (pre ++ e :: post)) ++ rest →
     nGeomCount c = Z.of_nat (length (pre ++ e :: post)) →
     Forall2 (fun x x' => geom_set leaf_set base_set x = Some (true, x'))
       pre pre' →
     geom_set leaf_set base_set e = Some (false, e') →
     geom_set leaf_set base_set (Collection c)
     = Some (false,
             Collection
               (mkGC (vptr c) (flags c) (poSRS c) (nGeomCount c)
                  ((Some <$> (pre' ++ e' :: post)) ++ rest)))) ∧
  (∀ (es es' : list Geometry),
     papoGeoms c = (Some <$> es) ++ rest →
     nGeomCount c = Z.of_nat (length es) →
     Forall2 (fun x x' => geom_set leaf_set base_set x = Some (true, x'))
       es es' →
     geom_set leaf_set base_set (Collection c)
     = (fun r : bool * GeometryCollection => (r.1, Collection r.2)) <$>
       base_set
         (mkGC (vptr c) (flags c) (poSRS c) (nGeomCount c)
            ((Some <$> es') ++ rest))) ∧
  (∀ (flag_set : Z → bool * Z) (es es' : list Geometry),
     papoGeoms c = (Some <$> es) ++ rest →
     nGeomCount c = Z.of_nat (length es) →
     Forall2 (fun x x' =>
                geom_set leaf_set (on_flags flag_set) x = Some (true, x'))
       es es' →
     geom_set leaf_set (on_flags flag_set) (Collection c)
     = Some ((flag_set (flags c)).1,
             Collection
               (mkGC (vptr c) (flag_set (flags c)).2 (poSRS c)
                  (nGeomCount c) ((Some <$> es') ++ rest)))).
Proof.
  split; [| split].
  - intros pre pre' post e e' Ha Hn Hpre He.
    cbn [geom_set].
    destruct (Z.ltb_spec (nGeomCount c) 0) as [? | _]; [lia |].
    rewrite Ha.
    replace (Z.to_nat (nGeomCount c)) with (length (pre ++ e :: post))
      by lia.
    rewrite (range_mut_stop _ pre pre' post e e' tt rest); [done | |].
    + eapply Forall2_impl; [exact Hpre |]. by intros x x' ->.
    + by rewrite He.
  - intros es es'. apply geom_set_all.
  - intros flag_set es es' Ha Hn Hes.
    rewrite (geom_set_all _ _ c rest es es' Ha Hn Hes).
    unfold on_flags. cbn [flags].
    by destruct (flag_set (flags c)).
Qed.

(** X15. [transform] visits the elements in order.  When an element
    fails, the call returns at once with the elements before it
    transformed, the later ones untouched and the spatial reference of the
    collection as it was; the code returned is the element's own when it
    is the first element and OGRERR_FAILURE otherwise.  When no element
    fails, the result is the one of [assignSpatialReference] with the
    target reference system on the collection of the transformed
    elements. *)
Theorem transform_spec (poCT : CT) (c : GeometryCollection)
  (rest : list (option Geometry)) :
  (∀ (pre pre' post : list Geometry) (e e' : Geometry) (eErr : OGRErr),
     papoGeoms c = (Some <$> (pre ++ e :: post)) ++ rest →
     nGeomCount c = Z.of_nat (length (pre ++ e :: post)) →
     Forall2 (fun x x' =>
                geom_transform leafm basem poCT x = Some (OGRERR_NONE, x'))
       pre pre' →
     geom_transform leafm basem poCT e = Some (eErr, e') →
     eErr ≠ OGRERR_NONE →
     transform leafm basem poCT c
     = Some (match pre with [] => eErr | _ => OGRERR_FAILURE end,
             Collection
               (mkGC (vptr c) (flags c) (poSRS c) (nGeomCount c)
                  ((Some <$> (pre' ++ e' :: post)) ++ rest)))) ∧
  (∀ (es es' : list Geometry),
     papoGeoms c = (Some <$> es) ++ rest →
     nGeomCount c = Z.of_nat (length es) →
     Forall2 (fun x x' =>
                geom_transform leafm basem poCT x = Some (OGRERR_NONE, x'))
       es es' →
     transform leafm basem poCT c
     = (fun g => (OGRERR_NONE, g)) <$>
       geom_assignSpatialReference leafm basem (GetTargetCS basem poCT)
         (Collection
            (mkGC (vptr c) (flags c) (poSRS c) (nGeomCount c)
               ((Some <$> es') ++ rest)))).
Proof.
  split.
  - intros pre pre' post e e' eErr Ha Hn Hpre He Herr.
    unfold transform. cbn [geom_transform].
    destruct (Z.ltb_spec (nGeomCount c) 0) as [? | _]; [lia |].
    rewrite Ha.
    replace (Z.to_nat (nGeomCount c)) with (length (pre ++ e :: post))
      by lia.
    rewrite (range_mut_stop _ pre pre' post e e' eErr rest).
    + by destruct pre.
    + eapply Forall2_impl; [exact Hpre |]. intros x x' ->.
      by destruct (decide (OGRERR_NONE ≠ OGRERR_NONE)).
    + rewrite He. by destruct (decide (eErr ≠ OGRERR_NONE)).
  - intros es es' Ha Hn Hes.
    unfold transform. cbn [geom_transform].
    destruct (Z.ltb_spec (nGeomCount c) 0) as [? | _]; [lia |].
    rewrite Ha.
    replace (Z.to_nat (nGeomCount c)) with (length es) by lia.
    rewrite (range_mut_all _ es es' rest).
    + unfold set_papoGeoms.
      by destruct (geom_assignSpatialReference _ _ _ _).
    + eapply Forall2_impl; [exact Hes |]. intros x x' ->.
      by destruct (decide (OGRERR_NONE ≠ OGRERR_NONE)).
Qed.

(** X16. [CastToGeometryCollection] returns the object itself when its
    flattened tag is the collection tag.  Otherwise it returns a new
    object of the class of this file that holds the array and the count of
    the source, and the only object destroyed is the source, which by then
    has no element left: no element is copied or destroyed. *)
Theorem CastToGeometryCollection_moves_elements (poSrc : GeometryCollection) :
  (wkbFlatten wkbout (getGeometryType derived poSrc) = wkbGeometryCollection →
   CastToGeometryCollection derived wkbout leafm basem poSrc
   = Some (poSrc, [])) ∧
  (wkbFlatten wkbout (getGeometryType derived poSrc) ≠ wkbGeometryCollection →
   ∃ poDst,
     CastToGeometryCollection derived wkbout leafm basem poSrc
     = Some (poDst,
             [Collection (mkGC (vptr poSrc) (flags poSrc) (poSRS poSrc) 0 [])])
     ∧ vptr poDst = cls_OGRGeometryCollection
     ∧ papoGeoms poDst = papoGeoms poSrc
     ∧ nGeomCount poDst = nGeomCount poSrc
     ∧ stored poDst = stored poSrc
     ∧ poSRS poDst
       = OGRGeometry_assignSpatialReference basem (poSRS poSrc) None).
Proof.
  unfold CastToGeometryCollection. split.
  - intros ->. by rewrite Z.eqb_refl.
  - intros Hne.
    destruct (Z.eqb_spec (wkbFlatten wkbout (getGeometryType derived poSrc))
                wkbGeometryCollection) as [? | _]; [done |].
    unfold TransferMembersAndDestroy, set3D, setMeasured, on_flags. simpl.
    destruct (OGRGeometry_set3D basem (Is3D_flags (flags poSrc)) 0)
      as [ok1 f1]. simpl.
    destruct (OGRGeometry_setMeasured basem
                (IsMeasured_flags (flags poSrc)) f1) as [ok2 f2]. simpl.
    eexists. split; [reflexivity |]. done.
Qed.

(** ** Text export *)





Lemma exportToWkt_loop_error
  (rec : Geometry → OGRWktOptions → option (string * OGRErr))
  (opts : OGRWktOptions) (exclude : string) (pre post : list Geometry)
  (ts : list string) (e : Geometry) (t : string) (eErr : OGRErr) :
  Forall2 (fun e t => rec e opts = Some (t, OGRERR_NONE)) pre ts →
  rec e opts = Some (t, eErr) →
  eErr ≠ OGRERR_NONE →
  ∀ (first : bool) (text : string),
    for_list
      (fun poSubGeom '(first, wkt) =>
         match rec poSubGeom opts with
         | None => None
         | Some (tempWkt, subgeomErr) =>
             if decide (subgeomErr ≠ OGRERR_NONE) then
               Some (Return (EmptyString, subgeomErr))
             else
               match wkt_element_text opts exclude tempWkt with
               | None => Some (Next (first, wkt))
               | Some tempWkt =>
                   Some (Next (false,
                               (wkt ++ (if first : bool then "(" else ",")
                                    ++ tempWkt)%string))
               end
         end) (pre ++ e :: post) (first, text)
    = Some (Return (EmptyString, eErr)).
Proof.
  intros Hpre He Herr.
  induction Hpre as [| x tx pre ts Hx _ IH]; intros first text.
  - cbn [app for_list]. rewrite He.
    by destruct (decide (eErr ≠ OGRERR_NONE)).
  - cbn [app for_list]. rewrite Hx.
    destruct (decide (OGRERR_NONE ≠ OGRERR_NONE)) as [? | _]; [done |].
    destruct (wkt_element_text opts exclude tx); apply IH.
Qed.


(** X18. When the export of an element reports an error,
    [exportToWktInternal] returns the empty string and that error,
    whatever the elements before it produced; the later elements are not
    exported. *)
Theorem exportToWktInternal_element_error
  (rec : Geometry → OGRWktOptions → option (string * OGRErr))
  (c : GeometryCollection) (opts : OGRWktOptions) (exclude : string)
  (pre post : list Geometry) (rest : list (option Geometry))
  (ts : list string) (e : Geometry) (t : string) (eErr : OGRErr) :
  papoGeoms c = (Some <$> (pre ++ e :: post)) ++ rest →
  nGeomCount c = Z.of_nat (length (pre ++ e :: post)) →
  Forall2 (fun e t => rec e opts = Some (t, OGRERR_NONE)) pre ts →
  rec e opts = Some (t, eErr) →
  eErr ≠ OGRERR_NONE →
  exportToWktInternal basem derivedm rec c opts exclude
  = Some (EmptyString, eErr).
Proof.
  intros Ha Hn Hpre He Herr. unfold exportToWktInternal, for_geoms.
  destruct (Z.ltb_spec (nGeomCount c) 0) as [? | _]; [lia |].
  rewrite Ha, Hn, Nat2Z.id, range_for_list.
  by rewrite (exportToWkt_loop_error rec opts exclude pre post ts e t eErr).
Qed.

(** ** Empty parts, again *)

Lemma geom_hasEmptyParts_loop_total (es : list Geometry) :
  Forall (fun e => (∃ b, geom_IsEmpty leaf e = Some b)
                   ∧ ∃ b, geom_hasEmptyParts leaf e = Some b) es →
  let loop :=
    for_list
      (fun e (_ : unit) =>
         match geom_IsEmpty leaf e with
         | Some true => Some (Return true)
         | Some false =>
             match geom_hasEmptyParts leaf e with
             | Some true => Some (Return true)
             | Some false => Some (Next tt)
             | None => None
             end
         | None => None
         end) es tt in
  (loop = Some (Return true) ∧
   Exists (fun e => geom_IsEmpty leaf e = Some true
                    ∨ geom_hasEmptyParts leaf e = Some true) es) ∨
  (loop = Some (Next tt) ∧
   Forall (fun e => geom_IsEmpty leaf e = Some false
                    ∧ geom_hasEmptyParts leaf e = Some false) es).
Proof.
  induction 1 as [| e es [[be Hbe] [bp Hbp]] _ IH]; simpl.
  - right. by split.
  - rewrite Hbe. destruct be.
    { left. split; [done |]. constructor. by left. }
    rewrite Hbp. destruct bp.
    { left. split; [done |]. constructor. by right. }
    destruct IH as [[-> ?] | [-> ?]].
    + left. split; [done |]. by apply Exists_cons_tl.
    + right. split; [done |]. by constructor.
Qed.

Lemma geom_hasEmptyParts_total (g : Geometry) :
  wf_geom g = true → ∃ b, geom_hasEmptyParts leaf g = Some b.
Proof.
  induction g as [l | c IH] using OGRGeometry_ind; intros Hwf; simpl;
    [eauto |].
  destruct (wf_collection_inv c Hwf) as (Hn & es & rest & Ha & Hlen & Hes).
  destruct (Z.ltb_spec (nGeomCount c) 0) as [? | _]; [lia |].
  rewrite Ha, <- Hlen, range_for_list.
  rewrite Ha in IH. apply Forall_slots_elems in IH.
  destruct (geom_hasEmptyParts_loop_total es) as [[-> _] | [-> _]]; eauto.
  rewrite Forall_forall in IH, Hes. apply Forall_forall. intros e He.
  split; [by apply geom_IsEmpty_total, Hes | by apply IH, Hes].
Qed.

(** X19. On a well-formed collection [hasEmptyParts()] returns, and it
    is true exactly when some stored element is empty or has itself empty
    parts; in particular it is false on a collection without elements,
    although that collection is empty. *)
Theorem hasEmptyParts_iff_some_element (c : GeometryCollection) :
  wf_collection c = true →
  ∃ b,
    hasEmptyParts leaf c = Some b ∧
    (b = true ↔
     ∃ e, Some e ∈ stored c ∧
          (geom_IsEmpty leaf e = Some true
           ∨ geom_hasEmptyParts leaf e = Some true)) ∧
    (nGeomCount c = 0 → b = false ∧ IsEmpty leaf c = Some true).
Proof.
  intros Hwf.
  destruct (wf_collection_inv c Hwf) as (Hn & es & rest & Ha & Hlen & Hes).
  rewrite (stored_app c es rest Ha Hlen).
  unfold hasEmptyParts, IsEmpty. simpl.
  destruct (Z.ltb_spec (nGeomCount c) 0) as [? | _]; [lia |].
  rewrite Ha, <- Hlen, !range_for_list.
  destruct (geom_hasEmptyParts_loop_total es) as [[-> Hex] | [-> Hall]].
  - rewrite Forall_forall in Hes. apply Forall_forall. intros e He.
    split; [by apply geom_IsEmpty_total, Hes
           | by apply geom_hasEmptyParts_total, Hes].
  - exists true. split; [done |]. split.
    + split; [intros _ | done].
      apply Exists_exists in Hex as (e & He & HP). exists e.
      split; [by apply list_elem_of_fmap_2 | done].
    + intros H0. rewrite H0 in Hlen. destruct es; [| done].
      by apply Exists_nil in Hex.
  - exists false. split; [done |]. split.
    + split; [done |]. intros (e & He & HP).
      apply list_elem_of_fmap_1 in He as (e' & [= <-] & He').
      rewrite Forall_forall in Hall. destruct (Hall e He') as [Hi Hp].
      destruct HP; congruence.
    + intros H0. rewrite H0 in Hlen. destruct es; [| done]. done.
Qed.

(** ** Equality, the other direction *)

Lemma pair_for_all_true (slots others : list (option Geometry)) (n : nat) :
  (∀ i, (i < n)%nat →
        ∃ e o, slots !! i = Some (Some e) ∧ others !! i = Some (Some o)
               ∧ geom_Equals leaf derived e o = Some true) →
  pair_for (geom_Equals leaf derived) slots others n = Some true.
Proof.
  revert slots others.
  induction n as [| n IH]; intros slots others Hall.
  - by destruct slots.
  - destruct (Hall O) as (e & o & Hs & Ho & Heq); [lia |].
    destruct slots as [| ? slots]; [done |].
    destruct others as [| ? others]; [done |].
    simpl in Hs, Ho. injection Hs as ->. injection Ho as ->.
    simpl. rewrite Heq. apply IH.
    intros i Hi. apply (Hall (S i)). lia.
Qed.

Lemma Equals_pairwise (c poOGC : GeometryCollection) :
  wf_collection c = true →
  wf_collection poOGC = true →
  getGeometryType derived poOGC = getGeometryType derived c →
  nGeomCount poOGC = nGeomCount c →
  (∀ i, (i < Z.to_nat (nGeomCount c))%nat →
        ∃ e o, papoGeoms c !! i = Some (Some e)
               ∧ papoGeoms poOGC !! i = Some (Some o)
               ∧ geom_Equals leaf derived e o = Some true) →
  geom_Equals leaf derived (Collection c) (Collection poOGC) = Some true.
Proof.
  intros Hwf Hwfo Htag Hn Hall.
  cbn [geom_Equals geom_getGeometryType]. rewrite Htag, Z.eqb_refl.
  cbn [negb].
  destruct (geom_IsEmpty_total (Collection c) Hwf) as [b ->].
  destruct (geom_IsEmpty_total (Collection poOGC) Hwfo) as [bo ->].
  unfold getNumGeometries. rewrite Hn, Z.eqb_refl. cbn [negb].
  destruct b, bo; try done; by apply pair_for_all_true.
Qed.

Lemma geom_Equals_copy :
  (∀ l, leaf_Equals leaf l (Leaf l) = true) →
  ∀ g : Geometry, wf_geom g = true → geom_Equals leaf derived g g = Some true.
Proof.
  intros Hleaf g.
  induction g as [l | c IH] using OGRGeometry_ind; intros Hwf.
  - simpl. by rewrite Hleaf.
  - apply Equals_pairwise; try done.
    destruct (wf_collection_inv c Hwf) as (Hn & es & rest & Ha & Hlen & Hes).
    rewrite Ha in IH. apply Forall_slots_elems in IH.
    intros i Hi. rewrite <- Hlen in Hi.
    destruct (lookup_lt_is_Some_2 es i Hi) as [e He].
    exists e, e.
    assert (papoGeoms c !! i = Some (Some e)) as Hslot.
    { rewrite Ha, lookup_app_l by (rewrite length_fmap; lia).
      by rewrite list_lookup_fmap, He. }
    split; [done |]. split; [done |].
    rewrite Forall_forall in IH, Hes.
    apply IH; [| apply Hes]; by eapply list_elem_of_lookup_2.
Qed.

(** X20. The other direction of [Equals]: two well-formed collections
    with the same type tag and count whose elements are pairwise equal at
    every stored index are equal, whatever their spatial references and
    flags beyond the tag.  In particular, when every leaf equals a copy of
    itself, a well-formed collection equals a distinct copy of itself. *)
Theorem Equals_true_if (c : GeometryCollection) :
  wf_collection c = true →
  (∀ poOGC,
     wf_collection poOGC = true →
     getGeometryType derived poOGC = getGeometryType derived c →
     nGeomCount poOGC = nGeomCount c →
     (∀ i, (i < Z.to_nat (nGeomCount c))%nat →
           ∃ e o, papoGeoms c !! i = Some (Some e)
                  ∧ papoGeoms poOGC !! i = Some (Some o)
                  ∧ geom_Equals leaf derived e o = Some true) →
     Equals leaf derived c (Collection poOGC) false = Some true) ∧
  ((∀ l, leaf_Equals leaf l (Leaf l) = true) →
   ∀ poSRS' rest',
     Equals leaf derived c
       (Collection
          (mkGC (vptr c) (flags c) poSRS' (nGeomCount c)
             (stored c ++ rest'))) false
     = Some true).
Proof.
  intros Hwf. split.
  - intros poOGC Hwfo Htag Hn Hall. unfold Equals.
    by apply Equals_pairwise.
  - intros Hleaf poSRS' rest'. unfold Equals.
    destruct (wf_collection_inv c Hwf) as (Hn & es & rest & Ha & Hlen & Hes).
    rewrite (stored_app c es rest Ha Hlen).
    apply Equals_pairwise; try done.
    + unfold wf_collection. simpl.
      destruct (Z.leb_spec 0 (nGeomCount c)) as [_ | ?]; [| lia].
      rewrite <- Hlen. by apply wf_slots_intro.
    + intros i Hi. rewrite <- Hlen in Hi.
      destruct (lookup_lt_is_Some_2 es i Hi) as [e He].
      exists e, e. simpl.
      rewrite Ha, !lookup_app_l by (rewrite length_fmap; lia).
      rewrite list_lookup_fmap, He. split; [done |]. split; [done |].
      apply geom_Equals_copy; [done |].
      rewrite Forall_forall in Hes. apply Hes.
      by eapply list_elem_of_lookup_2.
Qed.

(** ** Bytes consumed by a failed import *)

Lemma importFromWkb_loop_failure
  (rec : GeometryCollection → list byte → Z → option WkbResult)
  (eWkbVariant : OGRwkbVariant) (todo : nat) :
  ∀ (iGeom : Z) (this : GeometryCollection) (pabyData : list byte)
    (nSize nDataOffset : Z) (dels : list Geometry) eErr c n d,
    importFromWkb_loop leaf derived wkbin rec todo iGeom this pabyData nSize
      nDataOffset eWkbVariant dels = Some (eErr, c, n, d) →
    eErr ≠ OGRERR_NONE → n = 0.
Proof.
  induction todo as [| todo IH];
    intros iGeom this pabyData nSize nDataOffset dels eErr c n d.
  - simpl. by intros [= <- _ _ _] ?.
  - cbn [importFromWkb_loop].
    destruct ((nSize <? 9) && negb (nSize =? SIZE_MAX));
      [by intros [= _ _ <- _] |].
    destruct (OGRReadWKBGeometryType wkbin _ _) as [e1 eSubGeomType].
    destruct (decide (e1 ≠ OGRERR_NONE)); [by intros [= _ _ <- _] |].
    destruct (negb (isCompatibleSubType derived this eSubGeomType));
      [by intros [= _ _ <- _] |].
    match goal with
    | |- match ?dec with _ => _ end = _ → _ =>
        destruct dec as [[[[e2 poSubGeom] consumed] d'] |]
    end; [| done].
    destruct (decide (e2 ≠ OGRERR_NONE)); [by intros [= _ _ <- _] |].
    destruct poSubGeom as [g |]; [| done].
    apply IH.
Qed.

(** X21. When [importFromWkb] fails, the number of bytes it reports as
    consumed is zero, whatever number of elements had been decoded. *)
Theorem importFromWkb_failure_consumes_nothing (this c : GeometryCollection)
  (pabyData : list byte) (nSize : Z) (eWkbVariant : OGRwkbVariant)
  (eErr : OGRErr) (n : Z) (d : list Geometry) :
  importFromWkb leaf derived alloc wkbin this pabyData nSize eWkbVariant
  = Some (eErr, c, n, d) →
  eErr ≠ OGRERR_NONE →
  n = 0.
Proof.
  unfold importFromWkb. cbn [importFromWkbInternal]. simpl (0 =? 32).
  cbv iota.
  destruct (decide (pre_eErr _ ≠ OGRERR_NONE)); [by intros [= _ _ <- _] |].
  destruct (negb _ && negb _); [by intros [= _ _ <- _] |].
  apply importFromWkb_loop_failure.
Qed.

End Theory.

(** * The code on concrete inputs *)

Import Sample.

(** C1. The element loop of [importFromWkbInternal] has two early returns
    that do not truncate the count.  On a buffer of 30 bytes that declares
    two elements and holds one point, the call returns
    OGRERR_NOT_ENOUGH_DATA with [nGeomCount] still 2 and a null pointer in
    slot 1; on a buffer whose only element has an invalid byte-order marker
    it returns OGRERR_CORRUPT_DATA with [nGeomCount] still 1 and a null
    pointer in slot 0. *)
Theorem importFromWkb_early_return_keeps_declared_count :
  (∃ c,
     importFromWkb point_ops derived_ops allocator wkb_import
       empty_collection wkb_one_point_of_two 30 wkbVariantOldOgc
     = Some (OGRERR_NOT_ENOUGH_DATA, c, 0, []) ∧
     nGeomCount c = 2 ∧
     stored c = [Some (Leaf (point_xy 1 2)); None]) ∧
  (∃ c,
     importFromWkb point_ops derived_ops allocator wkb_import
       empty_collection wkb_bad_byte_order 18 wkbVariantOldOgc
     = Some (OGRERR_CORRUPT_DATA, c, 0, []) ∧
     nGeomCount c = 1 ∧
     stored c = [None]).
Proof. split; eexists; vm_compute; repeat split. Qed.


Lemma IsEmpty_iff_all_elements_empty_witness :
  wf_collection two_empty_points = true ∧
  (∃ b, IsEmpty point_ops two_empty_points = Some b) ∧
  (nGeomCount two_empty_points = 0 →
   IsEmpty point_ops two_empty_points = Some true) ∧
  (IsEmpty point_ops two_empty_points = Some true ↔
   ∀ e, Some e ∈ stored two_empty_points →
        geom_IsEmpty point_ops e = Some true).
Proof.
  split; [reflexivity |].
  apply (IsEmpty_iff_all_elements_empty point_ops two_empty_points).
  reflexivity.
Defined.

Lemma stealGeometry_spec_witness :
  (0 ≤ 1 < nGeomCount three_points ∧
   nGeomCount three_points ≤ Z.of_nat (length (papoGeoms three_points))) ∧
  ∃ p c',
    stored three_points !! Z.to_nat 1 = Some p ∧
    stealGeometry three_points 1 = Some (p, c', []) ∧
    nGeomCount c' = nGeomCount three_points - 1 ∧
    stored c' = base.delete (Z.to_nat 1) (stored three_points) ∧
    vptr c' = vptr three_points ∧ flags c' = flags three_points ∧
    poSRS c' = poSRS three_points.
Proof.
  split; [simpl; lia |].
  apply (stealGeometry_spec three_points 1); simpl; lia.
Defined.

Lemma addGeometryDirectly_rejects_witness :
  isCompatibleSubType derived_ops empty_multipoint
    (geom_getGeometryType point_ops derived_ops (Collection empty_collection))
  = false ∧
  addGeometryDirectly point_ops derived_ops allocator base_class
    empty_multipoint (Collection empty_collection)
  = (OGRERR_UNSUPPORTED_GEOMETRY_TYPE, empty_multipoint,
     Collection empty_collection).
Proof.
  split; [reflexivity |].
  apply (addGeometryDirectly_rejects point_ops derived_ops allocator
           base_class empty_multipoint (Collection empty_collection)).
  reflexivity.
Defined.


Lemma recursion_guard_at_level_32_witness :
  wkb_nests derived_ops allocator wkb_import 32 empty_collection
    (wkb_nested 33) 297 wkbVariantIso = true ∧
  wkt_nests wkt_reader 32 empty_collection (wkt_nested 33) = true ∧
  (∃ this' d,
     importFromWkb point_ops derived_ops allocator wkb_import empty_collection
       (wkb_nested 33) 297 wkbVariantIso
     = Some (OGRERR_CORRUPT_DATA, this', 0, d)) ∧
  (∃ this' ppszInput' d,
     importFromWkt point_ops derived_ops allocator base_class wkt_reader
       33 empty_collection (wkt_nested 33)
     = Some (OGRERR_CORRUPT_DATA, this', ppszInput', d)).
Proof.
  destruct (recursion_guard_at_level_32 point_ops derived_ops allocator
              base_class wkb_import wkt_reader)
    as (_ & _ & Hwkb & Hwkt & _).
  split; [vm_compute; reflexivity |].
  split; [vm_compute; reflexivity |].
  split.
  - apply Hwkb. vm_compute. reflexivity.
  - apply Hwkt; [lia | vm_compute; reflexivity].
Defined.

Lemma importFromWkt_measured_mismatch_witness :
  wkt_parse_element wkt_reader (fun _ _ => None) "POINT EMPTY)"
  = Some (OGRERR_NONE, Some (Leaf point_empty), ")"%string, []) ∧
  (Is3D_flags (flags measured_collection) = false ∧
   IsMeasured_flags (flags measured_collection) = true ∧
   IsMeasured point_ops (Leaf point_empty) = false) ∧
  importFromWkt_loop point_ops derived_ops allocator base_class wkt_reader
    (fun _ _ => None) 1 measured_collection "(POINT EMPTY)" "POINT EMPTY)" []
  = Some (OGRERR_CORRUPT_DATA, measured_collection, "(POINT EMPTY)"%string,
          [Leaf point_empty]).
Proof.
  split; [reflexivity |]. split; [repeat split |].
  destruct (importFromWkt_measured_mismatch point_ops derived_ops allocator
              base_class wkt_reader (fun _ _ => None) 0 measured_collection
              "(POINT EMPTY)" "POINT EMPTY)" ")" (Leaf point_empty) [] []
              eq_refl) as [Hmismatch _].
  apply Hmismatch; reflexivity.
Defined.

Lemma removeEmptyParts_idempotent_witness :
  (wf_collection mixed = true ∧ (depth (Collection mixed) ≤ 3)%nat) ∧
  ∃ c1 d1 rs,
    removeEmptyParts point_ops 2 mixed = Some (c1, d1) ∧
    removeEmptyParts point_ops 2 c1 = Some (c1, []) ∧
    hasEmptyParts point_ops c1 = Some false ∧
    Forall2 (fun s r =>
               ∃ e, s = Some e
                    ∧ geom_removeEmptyParts point_ops 2 e = Some r)
      (stored mixed) rs ∧
    stored c1
    = Some <$> filter (fun e' => geom_IsEmpty point_ops e' = Some false) rs.*1.
Proof.
  split; [split; [reflexivity | simpl; lia] |].
  apply (removeEmptyParts_idempotent point_ops
           (fun _ => eq_refl) (fun _ => eq_refl) 2 mixed);
    [reflexivity | simpl; lia].
Defined.

(** ** The further properties on concrete inputs *)

(** The sample preamble refuses a negative element count. *)
Lemma sample_preamble_count (t : GeometryCollection) (data : list byte)
  (size : Z) (v : OGRwkbVariant) :
  pre_eErr (importPreambleOfCollectionFromWkb t data size 9 v) = OGRERR_NONE →
  0 ≤ pre_nGeomCount (importPreambleOfCollectionFromWkb t data size 9 v).
Proof.
  unfold importPreambleOfCollectionFromWkb.
  destruct ((size <? 9) && negb (size =? SIZE_MAX)); [done |].
  destruct (byte_order_of (byte_at data 0)) as [order |]; [| done].
  destruct (negb _); [done |].
  destruct (empty t) as [[this0 d] |]; [| done].
  destruct (Z.ltb_spec (read_int32 order data 5) 0); [done |].
  cbn [orb]. destruct (negb (size =? SIZE_MAX) && _); [done |]. done.
Qed.

(** The sample point writes exactly its [WkbSize()] bytes. *)
Lemma export_point_frame (l : OGRPoint) (b : buffer) (p : Z)
  (o : OGRwkbExportOptions) (q : Z) :
  q < p ∨ p + leaf_WkbSize point_ops l ≤ q →
  leaf_exportToWkb wkb_export l b p o q = b q.
Proof.
  intros Hq. simpl in *. unfold export_point. apply memcpy_frame.
  unfold coordinate_dimension in Hq.
  destruct (eByteOrder o), (Is3D_flags (pt_flags l)),
    (IsMeasured_flags (pt_flags l)); simpl in *; lia.
Qed.

(** The bytes the sample point writes do not depend on the buffer. *)
Lemma export_point_written (l : OGRPoint) (b1 b2 : buffer) (p : Z)
  (o : OGRwkbExportOptions) (q : Z) :
  p ≤ q < p + leaf_WkbSize point_ops l →
  leaf_exportToWkb wkb_export l b1 p o q
  = leaf_exportToWkb wkb_export l b2 p o q.
Proof.
  intros Hq. simpl in *. unfold export_point. apply memcpy_written.
  unfold coordinate_dimension in Hq.
  destruct (eByteOrder o), (Is3D_flags (pt_flags l)),
    (IsMeasured_flags (pt_flags l)); simpl in *; lia.
Qed.

Lemma WkbSize_matches_exportToWkb_witness :
  (wf_collection mixed = true ∧
   wkb_fits point_ops (Collection mixed) = true) ∧
  ∃ nSize,
    WkbSize point_ops mixed = Some nSize ∧
    nSize = 9 + sum_WkbSize point_ops mixed ∧
    (∀ buf pabyData psOptions, ∃ buf',
       exportToWkb point_ops derived_ops wkb_export mixed buf pabyData
         psOptions
       = Some (OGRERR_NONE, buf', nSize)) ∧
    ∀ buf1 buf2 pabyData psOptions buf1' buf2',
      exportToWkb point_ops derived_ops wkb_export mixed buf1 pabyData
        psOptions
      = Some (OGRERR_NONE, buf1', nSize) →
      exportToWkb point_ops derived_ops wkb_export mixed buf2 pabyData
        psOptions
      = Some (OGRERR_NONE, buf2', nSize) →
      (∀ q, q < pabyData ∨ pabyData + nSize ≤ q → buf1' q = buf1 q) ∧
      (∀ q, pabyData ≤ q < pabyData + nSize → buf1' q = buf2' q).
Proof.
  split; [split; reflexivity |].
  destruct (WkbSize_matches_exportToWkb point_ops derived_ops wkb_export
              mixed eq_refl)
    as (nSize & Hsize & _ & _ & Hrun & Hbytes).
  destruct (Hbytes eq_refl (fun _ => le_n 4) export_point_frame
              export_point_written) as [Hn Hexact].
  exists nSize. split; [exact Hsize |]. split; [exact Hn |].
  split; [exact Hrun | exact Hexact].
Defined.

Lemma removeGeometry_spec_witness :
  (0 ≤ 1 < nGeomCount three_points ∧
   nGeomCount three_points ≤ Z.of_nat (length (papoGeoms three_points))) ∧
  ∃ p c',
    stored three_points !! Z.to_nat 1 = Some p ∧
    removeGeometry three_points 1 true = Some (OGRERR_NONE, c', delete p) ∧
    nGeomCount c' = nGeomCount three_points - 1 ∧
    stored c' = base.delete (Z.to_nat 1) (stored three_points) ∧
    vptr c' = vptr three_points ∧ flags c' = flags three_points ∧
    poSRS c' = poSRS three_points.
Proof.
  split; [simpl; lia |].
  destruct (removeGeometry_spec three_points 1 true) as [_ Hin].
  apply Hin; simpl; lia.
Defined.

Lemma removeGeometry_all_elements_witness :
  (0 ≤ nGeomCount three_points ∧
   nGeomCount three_points ≤ Z.of_nat (length (papoGeoms three_points))) ∧
  removeGeometry three_points (-1) true
  = Some (OGRERR_NONE, set_nGeomCount three_points 0,
          concat (delete <$> reverse (stored three_points))).
Proof.
  split; [simpl; lia |].
  destruct (removeGeometry_all_elements three_points true) as [Hall _];
    [simpl; lia | simpl; lia | exact Hall].
Defined.

Lemma addGeometryDirectly_appends_witness :
  HomogenizeDimensionalityWith base_class three_points (Leaf (point_xy 7 8))
  = (three_points, Leaf (point_xy 7 8)) ∧
  ∃ c',
    addGeometryDirectly point_ops derived_ops allocator base_class
      three_points (Leaf (point_xy 7 8))
    = (OGRERR_NONE, c', Leaf (point_xy 7 8)) ∧
    nGeomCount c' = 4 ∧
    stored c' = stored three_points ++ [Some (Leaf (point_xy 7 8))].
Proof.
  split; [reflexivity |].
  destruct (addGeometryDirectly_appends point_ops derived_ops allocator
              base_class three_points three_points (Leaf (point_xy 7 8))
              (Leaf (point_xy 7 8)) eq_refl) as (_ & _ & Hadd).
  destruct Hadd as (c' & Hrun & Hn & _ & Hst & _).
  - split; [reflexivity |].
    split; [vm_compute; discriminate | reflexivity].
  - simpl; lia.
  - exists c'. split; [exact Hrun |]. split; [exact Hn | exact Hst].
Defined.

Lemma stealGeometry_after_addGeometryDirectly_witness :
  let four_points :=
    collection_of 0
      [Leaf (point_xy 1 2); Leaf (point_xy 3 4); Leaf (point_xy 5 6);
       Leaf (point_xy 7 8)] in
  (addGeometryDirectly point_ops derived_ops allocator base_class
     three_points (Leaf (point_xy 7 8))
   = (OGRERR_NONE, four_points, Leaf (point_xy 7 8)) ∧
   1 ≤ nGeomCount four_points) ∧
  ∃ c'',
    stealGeometry four_points (nGeomCount four_points - 1)
    = Some (Some (Leaf (point_xy 7 8)), c'', []) ∧
    nGeomCount c'' = nGeomCount four_points - 1 ∧
    stored four_points = stored c'' ++ [Some (Leaf (point_xy 7 8))].
Proof.
  intros four_points. split; [split; [reflexivity | simpl; lia] |].
  destruct (stealGeometry_after_addGeometryDirectly point_ops derived_ops
              allocator base_class three_points four_points
              (Leaf (point_xy 7 8)) (Leaf (point_xy 7 8)) eq_refl)
    as (c'' & Hsteal & Hn & Hst & _); [simpl; lia |].
  exists c''. split; [exact Hsteal |]. split; [exact Hn | exact Hst].
Defined.

Lemma empty_spec_witness :
  (0 ≤ nGeomCount mixed ≤ Z.of_nat (length (papoGeoms mixed))) ∧
  empty mixed = Some (empty_collection, omap id (stored mixed)).
Proof.
  split; [simpl; lia |].
  destruct (empty_spec point_ops mixed) as [Hrun _]; [simpl; lia |].
  exact Hrun.
Defined.

Lemma clone_deep_copy_witness :
  (wf_collection mixed = true ∧ new_nothrow allocator mixed = true ∧
   VSI_CALLOC_VERBOSE allocator (nGeomCount mixed) = true) ∧
  ∃ ps,
    geom_clone point_ops allocator (Collection mixed)
    = Some (Some (Collection
                    (mkGC (vptr mixed) (flags mixed) (poSRS mixed)
                       (nGeomCount mixed) ps))) ∧
    Forall2 (fun s p => ∃ e, s = Some e ∧ wf_geom e = true
                             ∧ geom_clone point_ops allocator e = Some p)
      (stored mixed) ps.
Proof.
  split; [repeat split |].
  destruct (clone_deep_copy point_ops allocator mixed eq_refl)
    as (_ & _ & Hcopy).
  apply Hcopy; reflexivity.
Defined.

Lemma operator_assign_accepted_witness :
  let this1 := (base_assigned base_class two_multipoint three_points).1 in
  let d := (base_assigned base_class two_multipoint three_points).2 in
  (wf_collection three_points = true ∧
   d = [Leaf (point_xy 1 2); Leaf (point_xy 3 4)] ∧
   nGeomCount this1 = 0) ∧
  ∃ ps,
    operator_assign point_ops derived_ops allocator base_class
      two_multipoint three_points false
    = Some (mkGC (vptr two_multipoint) (flags this1) (poSRS this1)
              (nGeomCount three_points) ps, d) ∧
    Forall2 (fun s p => ∃ e, s = Some e ∧ wf_geom e = true
                             ∧ geom_clone point_ops allocator e = Some p)
      (stored three_points) ps.
Proof.
  intros this1 d. split; [repeat split |].
  destruct (operator_assign_accepted point_ops derived_ops allocator
              base_class two_multipoint three_points eq_refl)
    as [_ Haccepted].
  destruct Haccepted as [_ Hcopy].
  - intros e He.
    apply elem_of_cons in He as [[= ->] | He]; [reflexivity |].
    apply elem_of_cons in He as [[= ->] | He]; [reflexivity |].
    apply elem_of_cons in He as [[= ->] | He]; [reflexivity |].
    by apply elem_of_nil in He.
  - apply Hcopy. reflexivity.
Defined.

Lemma removeEmptyParts_without_empty_parts_witness :
  (wf_collection three_points = true ∧
   (depth (Collection three_points) ≤ 2)%nat ∧
   hasEmptyParts point_ops three_points = Some false) ∧
  removeEmptyParts point_ops 1 three_points = Some (three_points, []).
Proof.
  split; [split; [reflexivity | split; [simpl; lia | reflexivity]] |].
  apply (removeEmptyParts_without_empty_parts point_ops 1 three_points
           (fun _ _ => eq_refl));
    [reflexivity | simpl; lia | reflexivity].
Defined.

Lemma importFromWkb_success_well_formed_witness :
  let data := wkb_header 2 ++ wkb_point 1 2 ++ wkb_point 3 4 in
  let c := collection_of 0 [Leaf (point_xy 1 2); Leaf (point_xy 3 4)] in
  importFromWkb point_ops derived_ops allocator wkb_import empty_collection
    data 51 wkbVariantOldOgc
  = Some (OGRERR_NONE, c, 51, []) ∧
  wf_collection c = true ∧
  nGeomCount c
  = pre_nGeomCount
      (importPreambleOfCollectionFromWkb empty_collection data 51 9
         wkbVariantOldOgc).
Proof.
  intros data c.
  assert (importFromWkb point_ops derived_ops allocator wkb_import
            empty_collection data 51 wkbVariantOldOgc
          = Some (OGRERR_NONE, c, 51, [])) as Hrun
      by (vm_compute; reflexivity).
  split; [exact Hrun |].
  destruct (importFromWkb_success_well_formed point_ops derived_ops allocator
              wkb_import empty_collection c data 51 wkbVariantOldOgc 51 []
              sample_preamble_count Hrun) as (Hwf & Hn & _).
  split; [exact Hwf | exact Hn].
Defined.

Lemma importFromWkt_failure_position_witness :
  importFromWkt point_ops derived_ops allocator base_class wkt_reader 5
    empty_collection "GEOMETRYCOLLECTION (POINT EMPTY,BOGUS)"
  = Some (OGRERR_UNSUPPORTED_GEOMETRY_TYPE, one_empty_point,
          " (POINT EMPTY,BOGUS)"%string, []) ∧
  " (POINT EMPTY,BOGUS)"%string
  = wpre_input
      (importPreambleFromWkt empty_collection
         "GEOMETRYCOLLECTION (POINT EMPTY,BOGUS)").
Proof.
  assert (importFromWkt point_ops derived_ops allocator base_class wkt_reader
            5 empty_collection "GEOMETRYCOLLECTION (POINT EMPTY,BOGUS)"
          = Some (OGRERR_UNSUPPORTED_GEOMETRY_TYPE, one_empty_point,
                  " (POINT EMPTY,BOGUS)"%string, [])) as Hrun
      by (vm_compute; reflexivity).
  split; [exact Hrun |].
  apply (importFromWkt_failure_position point_ops derived_ops allocator
           base_class wkt_reader 5 empty_collection one_empty_point
           "GEOMETRYCOLLECTION (POINT EMPTY,BOGUS)" " (POINT EMPTY,BOGUS)"
           OGRERR_UNSUPPORTED_GEOMETRY_TYPE [] Hrun).
  discriminate.
Defined.

Lemma exportToWkb_writes_only_its_range_witness :
  wkb_fits point_ops (Collection mixed) = true ∧
  ∃ buf' n,
    exportToWkb point_ops derived_ops wkb_export mixed (fun _ => 255) 100 None
    = Some (OGRERR_NONE, buf', n) ∧
    n = 9 + sum_WkbSize point_ops mixed ∧
    (∀ q, q < 100 ∨ 100 + n ≤ q → buf' q = 255) ∧
    buf' 100 = 1.
Proof.
  split; [reflexivity |].
  destruct (exportToWkb_writes_only_its_range point_ops derived_ops wkb_export
              mixed (fun _ => 255) 100 None export_point_frame eq_refl)
    as (buf' & n & Hrun & _ & Hn & Hframe & Hfirst).
  exists buf', n. split; [exact Hrun |]. split; [exact Hn |].
  split; [exact Hframe | exact Hfirst].
Defined.

Lemma getDimension_is_max_witness :
  ((∀ l, 0 ≤ leaf_getDimension shape_methods l ≤ 2) ∧
   wf_collection surface_inside = true ∧
   wf_collection curve_between_points = true) ∧
  getDimension shape_methods shape_overrides surface_inside = Some 2 ∧
  max_dimension shape_methods shape_overrides surface_inside = 2 ∧
  getDimension shape_methods shape_overrides curve_between_points = Some 1 ∧
  max_dimension shape_methods shape_overrides curve_between_points = 1.
Proof.
  assert (∀ l, 0 ≤ leaf_getDimension shape_methods l ≤ 2) as Hleaf
      by (intros []; simpl; lia).
  assert (∀ (d : DerivedClass) c',
            0 ≤ derived_getDimension shape_overrides d c' ≤ 2) as Hderived
      by (intros d c'; simpl; lia).
  split; [split; [exact Hleaf | split; reflexivity] |].
  destruct (getDimension_is_max shape_methods shape_overrides surface_inside
              Hleaf Hderived eq_refl) as [Hsurface _].
  destruct (getDimension_is_max shape_methods shape_overrides
              curve_between_points Hleaf Hderived eq_refl) as [Hcurve _].
  split; [exact Hsurface |]. split; [reflexivity |].
  split; [exact Hcurve | reflexivity].
Defined.

Lemma flattenTo2D_spec_witness :
  wf_collection nested_3d = true ∧
  ∃ c',
    flattenTo2D point_methods nested_3d = Some (Collection c') ∧
    wf_collection c' = true ∧
    Is3D_flags (flags c') = false ∧
    IsMeasured_flags (flags c') = false ∧
    nGeomCount c' = nGeomCount nested_3d.
Proof.
  split; [reflexivity |].
  destruct (flattenTo2D_spec point_methods nested_3d eq_refl)
    as (c' & Hrun & Hwf & Hz & Hm & _ & _ & Hn & _).
  exists c'. repeat (split; [assumption |]). exact Hn.
Defined.

Lemma geom_set_stops_at_first_refusal_witness :
  let leaf_set (p : OGRPoint) :=
    (pt_x p <? 4, set_point_flags p (Z.lor (pt_flags p) OGR_G_3D)) in
  let base_set :=
    OGRGeometry_setCoordinateDimension base_methods 3 in
  (papoGeoms three_points
   = (Some <$> ([Leaf (point_xy 1 2); Leaf (point_xy 3 4)]
                  ++ Leaf (point_xy 5 6) :: [])) ++ [] ∧
   @geom_set OGRPoint DerivedClass unit leaf_set base_set
     (Leaf (point_xy 5 6))
   = Some (false, Leaf (point_xyz 5 6 0))) ∧
  geom_set leaf_set base_set (Collection three_points)
  = Some (false,
          Collection
            (collection_of 0
               [Leaf (point_xyz 1 2 0); Leaf (point_xyz 3 4 0);
                Leaf (point_xyz 5 6 0)])) ∧
  setCoordinateDimension point_methods base_methods 3 three_points
  = Some (true,
          Collection
            (collection_of OGR_G_3D
               [Leaf (point_xyz 1 2 0); Leaf (point_xyz 3 4 0);
                Leaf (point_xyz 5 6 0)])).
Proof.
  intros leaf_set base_set. split; [split; reflexivity |].
  destruct (geom_set_stops_at_first_refusal leaf_set base_set three_points [])
    as [Hstop _].
  destruct (geom_set_stops_at_first_refusal
              (leaf_setCoordinateDimension point_methods 3) base_set
              three_points []) as (_ & Hall & _).
  split.
  - apply (Hstop [Leaf (point_xy 1 2); Leaf (point_xy 3 4)]
             [Leaf (point_xyz 1 2 0); Leaf (point_xyz 3 4 0)] []
             (Leaf (point_xy 5 6)) (Leaf (point_xyz 5 6 0)));
      [reflexivity | reflexivity | | reflexivity].
    constructor; [reflexivity |]. constructor; [reflexivity |]. constructor.
  - unfold setCoordinateDimension.
    apply (Hall [Leaf (point_xy 1 2); Leaf (point_xy 3 4);
                 Leaf (point_xy 5 6)]
             [Leaf (point_xyz 1 2 0); Leaf (point_xyz 3 4 0);
              Leaf (point_xyz 5 6 0)] eq_refl eq_refl).
    constructor; [reflexivity |]. constructor; [reflexivity |].
    constructor; [reflexivity |]. constructor.
Defined.

Lemma transform_spec_witness :
  (@geom_transform OGRPoint DerivedClass unit Transformation point_methods
     base_methods shift_below_4 (Leaf (point_xy 5 6))
   = Some (OGRERR_UNSUPPORTED_OPERATION, Leaf (point_xy 5 6)) ∧
   OGRERR_UNSUPPORTED_OPERATION ≠ OGRERR_NONE) ∧
  transform point_methods base_methods shift_below_4 three_points
  = Some (OGRERR_FAILURE,
          Collection
            (collection_of 0
               [Leaf (point_xy 11 2); Leaf (point_xy 13 4);
                Leaf (point_xy 5 6)])).
Proof.
  split; [split; [reflexivity | discriminate] |].
  destruct (transform_spec point_methods base_methods shift_below_4
              three_points []) as [Hstop _].
  apply (Hstop [Leaf (point_xy 1 2); Leaf (point_xy 3 4)]
           [Leaf (point_xy 11 2); Leaf (point_xy 13 4)] []
           (Leaf (point_xy 5 6)) (Leaf (point_xy 5 6))
           OGRERR_UNSUPPORTED_OPERATION);
    [reflexivity | reflexivity | | reflexivity | discriminate].
  constructor; [reflexivity |]. constructor; [reflexivity |]. constructor.
Defined.

Lemma CastToGeometryCollection_moves_elements_witness :
  wkbFlatten (getGeometryType derived_ops two_multipoint)
  ≠ wkbGeometryCollection ∧
  ∃ poDst,
    CastToGeometryCollection derived_ops wkb_export point_methods
      base_methods two_multipoint
    = Some (poDst, [Collection empty_multipoint]) ∧
    vptr poDst = cls_OGRGeometryCollection ∧
    papoGeoms poDst = papoGeoms two_multipoint ∧
    nGeomCount poDst = nGeomCount two_multipoint.
Proof.
  assert (wkbFlatten (getGeometryType derived_ops two_multipoint)
          ≠ wkbGeometryCollection) as Hne by (vm_compute; discriminate).
  split; [exact Hne |].
  destruct (CastToGeometryCollection_moves_elements derived_ops wkb_export
              point_methods base_methods two_multipoint) as [_ Hcast].
  destruct (Hcast Hne) as (poDst & Hrun & Hv & Ha & Hn & _).
  exists poDst. split; [exact Hrun |]. split; [exact Hv |].
  split; [exact Ha | exact Hn].
Defined.


Lemma exportToWktInternal_element_error_witness :
  let c :=
    collection_of 0
      [Leaf (point_xy 1 2); Collection broken_multipoint;
       Leaf (point_xy 3 4)] in
  (geom_exportToWkt point_methods base_methods derived_methods
     (Collection broken_multipoint) iso
   = Some (EmptyString, OGRERR_FAILURE) ∧
   OGRERR_FAILURE ≠ OGRERR_NONE) ∧
  exportToWkt point_methods base_methods derived_methods c iso
  = Some (EmptyString, OGRERR_FAILURE).
Proof.
  intros c. split; [split; [reflexivity | discriminate] |].
  apply (exportToWktInternal_element_error base_methods derived_methods
           (geom_exportToWkt point_methods base_methods derived_methods)
           c iso EmptyString [Leaf (point_xy 1 2)] [Leaf (point_xy 3 4)] []
           ["POINT (1 2)"%string] (Collection broken_multipoint) EmptyString
           OGRERR_FAILURE eq_refl eq_refl);
    [| reflexivity | discriminate].
  constructor; [reflexivity | constructor].
Defined.

Lemma hasEmptyParts_iff_some_element_witness :
  wf_collection mixed = true ∧
  ∃ b,
    hasEmptyParts point_ops mixed = Some b ∧
    (b = true ↔
     ∃ e, Some e ∈ stored mixed ∧
          (geom_IsEmpty point_ops e = Some true
           ∨ geom_hasEmptyParts point_ops e = Some true)).
Proof.
  split; [reflexivity |].
  destruct (hasEmptyParts_iff_some_element point_ops mixed eq_refl)
    as (b & Hrun & Hiff & _).
  exists b. split; [exact Hrun | exact Hiff].
Defined.

Lemma Equals_true_if_witness :
  (wf_collection mixed = true ∧
   ∀ l, leaf_Equals point_ops l (Leaf l) = true) ∧
  Equals point_ops derived_ops mixed
    (Collection
       (mkGC (vptr mixed) (flags mixed) (Some tt) (nGeomCount mixed)
          (stored mixed ++ [None]))) false
  = Some true.
Proof.
  assert (∀ l, leaf_Equals point_ops l (Leaf l) = true) as Hleaf
      by (intros l; simpl; apply bool_decide_eq_true_2; reflexivity).
  split; [split; [reflexivity | exact Hleaf] |].
  destruct (Equals_true_if point_ops derived_ops mixed eq_refl)
    as [_ Hcopy].
  apply (Hcopy Hleaf (Some tt) [None]).
Defined.

Lemma importFromWkb_failure_consumes_nothing_witness :
  let data := wkb_header 2 ++ wkb_point 1 2 ++ [1; 9; 0; 0; 0] in
  let c :=
    mkGC cls_OGRGeometryCollection 0 None 1
      [Some (Leaf (point_xy 1 2)); None] in
  ∃ n,
    importFromWkb point_ops derived_ops allocator wkb_import empty_collection
      data 60 wkbVariantOldOgc
    = Some (OGRERR_UNSUPPORTED_GEOMETRY_TYPE, c, n, []) ∧
    OGRERR_UNSUPPORTED_GEOMETRY_TYPE ≠ OGRERR_NONE ∧
    n = 0.
Proof.
  intros data c. exists 0.
  assert (importFromWkb point_ops derived_ops allocator wkb_import
            empty_collection data 60 wkbVariantOldOgc
          = Some (OGRERR_UNSUPPORTED_GEOMETRY_TYPE, c, 0, [])) as Hrun
      by (vm_compute; reflexivity).
  split; [exact Hrun |]. split; [discriminate |].
  apply (importFromWkb_failure_consumes_nothing point_ops derived_ops
           allocator wkb_import empty_collection c data 60 wkbVariantOldOgc
           OGRERR_UNSUPPORTED_GEOMETRY_TYPE 0 [] Hrun).
  discriminate.
Defined.
